(** * Schedule coordination engine (src/app/lib/scheduleGenerator.ts)

    A shallow embedding of the class [ScheduleGenerator] and of the types of
    src/app/lib/types.ts, followed by the properties of the engine.

    Conventions of the embedding.
    - A TypeScript [number] holding a day, a length or a score is a
      mathematical integer ([Z]).  The program computes in IEEE doubles,
      which are exact on the integers of magnitude up to 2^53; a result
      beyond that range is rounded by the program and not by the embedding.
      An array has fewer than 2^32 elements ([createEmptySchedule] throws
      otherwise), so that the days, lengths and counts of a run that returns
      are in the exact range (the scores are sums of a dozen terms of at
      most 10^6), and so is the horizon computed by the constructor whenever
      it is below 2^32 for [totalDrillingDays ≥ 1].
      The quotients of the scoring function
      (e.g. [500000 * pVal / 100]) are exact (lemma
      [getPriorityValue_quotients]), so [Z.div] is the same number;
      [Math.ceil(a / b)] is [ceil_div]; the one real quotient,
      [averageRestDays], is a rational ([Q]).
    - An array is a [list]; [a[i]] is [getAt a i] below, which is [None]
      ([undefined]) outside [0 .. length - 1].  Writing a property of
      [undefined] throws, so the functions that write into an array return
      in the error monad [Result].
    - The string literals of [SupervisorState] ('S', 'I', 'P', 'B', 'D',
      '-') are the constructors [St_S] ... [St_Empty] of an inductive type;
      [S] alone is the successor of [nat]. *)

From stdpp Require Import base tactics option list sets numbers strings pretty.
From Stdlib Require Import QArith.

Local Open Scope Z_scope.

(** ** src/app/lib/types.ts *)

(** ['S' | 'I' | 'P' | 'B' | 'D' | '-'] *)
Inductive SupervisorState : Set :=
| St_S      (* 'S' subida / UP *)
| St_I      (* 'I' induccion / INDUCTION *)
| St_P      (* 'P' perforacion / DRILLING *)
| St_B      (* 'B' bajada / DOWN *)
| St_D      (* 'D' descanso / REST *)
| St_Empty. (* '-' *)

#[global] Instance SupervisorState_eq_dec : EqDecision SupervisorState.
Proof. solve_decision. Defined.

Record WorkRegime : Set := { workDays : Z; restDays : Z }.

Inductive PriorityLevel : Set := high | medium | low.

#[global] Instance PriorityLevel_eq_dec : EqDecision PriorityLevel.
Proof. solve_decision. Defined.

Record AlgorithmPriorities : Set := {
  twoDrillers : PriorityLevel;
  minimumRest : PriorityLevel;
  minimumDrilling : PriorityLevel;
  noThreeDrillers : PriorityLevel;
  maxConsecutiveWork : PriorityLevel
}.

Definition DEFAULT_PRIORITIES : AlgorithmPriorities := {|
  twoDrillers := high;
  minimumRest := medium;
  minimumDrilling := medium;
  noThreeDrillers := high;
  maxConsecutiveWork := low
|}.

(** [priorities?] is the optional field of the configuration. *)
Record ScheduleConfig : Set := {
  regime : WorkRegime;
  inductionDays : Z;
  totalDrillingDays : Z;
  cfg_priorities : option AlgorithmPriorities
}.

(** [isError?] is never set by the engine and is left out. *)
Record DayState : Set := { day : Z; state : SupervisorState }.

Inductive S2Phase : Set :=
| IDLE | GOING_UP | INDUCTION | DRILLING | GOING_DOWN | RESTING.

#[global] Instance S2Phase_eq_dec : EqDecision S2Phase.
Proof. solve_decision. Defined.

Record S2State : Set := {
  phase : S2Phase;
  daysInPhase : Z;
  cycleCount : Z;
  totalDrilled : Z;
  lastRestStart : Z;
  isFirstCycle : bool
}.

Record ScheduleStats : Set := {
  st_totalDays : Z;
  daysWithTwoDrillers : Z;
  daysWithOneDriller : Z;
  daysWithThreeDrillers : Z;
  daysWithZeroDrillers : Z;
  s2Cycles : Z;
  averageRestDays : Q
}.

Inductive ScheduleErrorType : Set :=
| THREE_DRILLING | ONE_DRILLING | INVALID_SEQUENCE
| NO_DRILLING | ZERO_DRILLING | SHORT_DRILLING.

#[global] Instance ScheduleErrorType_eq_dec : EqDecision ScheduleErrorType.
Proof. solve_decision. Defined.

Record ScheduleError : Set := {
  e_day : Z;
  e_type : ScheduleErrorType;
  e_message : string;
  e_supervisors : list string;
  e_causedByPriority : option string
}.

Record Schedule : Set := {
  s1 : list DayState;
  s2 : list DayState;
  s3 : list DayState;
  drillersPerDay : list Z;
  errors : list ScheduleError;
  stats : option ScheduleStats
}.

(** ** Exceptions and arrays *)

(** What a run can throw: [RangeError] ([new Array] of a negative length or
    of a length of 2^32 or more) and
    [TypeError] (a property of [undefined]).  [OutOfFuel] is not an exception
    of the program: it is what the embedding of the [while] loop of
    [generateFixedSchedule] answers when its iteration budget is used up
    (lemma [fixedLoop_fuel] shows that this never happens). *)
Inductive JsError : Set := RangeError | TypeError | OutOfFuel.

Inductive Result (A : Type) : Type :=
| Ok (a : A)
| Throw (e : JsError).
Arguments Ok {A} a.
Arguments Throw {A} e.

Definition bind {A B : Type} (m : Result A) (k : A → Result B) : Result B :=
  match m with
  | Ok a => k a
  | Throw e => Throw e
  end.

Notation "'let*' x ':=' m 'in' k" := (bind m (fun x => k))
  (at level 10, x pattern, m at level 100, k at level 200).

(** [a[i]] for a number [i]: [undefined] below 0 and from [length] on. *)
Definition getAt {A : Type} (a : list A) (i : Z) : option A :=
  if i <? 0 then None else a !! Z.to_nat i.

(** [schedule[i].state = x] *)
Definition setState (schedule : list DayState) (i : Z) (x : SupervisorState)
  : Result (list DayState) :=
  match getAt schedule i with
  | Some d => Ok (<[Z.to_nat i := {| day := day d; state := x |}]> schedule)
  | None => Throw TypeError
  end.

(** [a[i]?.state] *)
Definition stateAt (a : list DayState) (i : Z) : option SupervisorState :=
  state <$> getAt a i.

(** [a.findIndex(p)], -1 when no element satisfies [p]. *)
Fixpoint findIndex_from {A : Type} (p : A → bool) (a : list A) (i : Z) : Z :=
  match a with
  | [] => -1
  | x :: a' => if p x then i else findIndex_from p a' (i + 1)
  end.

Definition findIndex {A : Type} (p : A → bool) (a : list A) : Z :=
  findIndex_from p a 0.

(** ** class ScheduleGenerator *)

(** The private fields set by the constructor. *)
Record ScheduleGenerator : Set := {
  config : ScheduleConfig;
  priorities : AlgorithmPriorities;
  totalDays : Z
}.

(** [Math.ceil(a / b)] for integers [a] and [b > 0]. *)
Definition ceil_div (a b : Z) : Z := - ((- a) / b).

(** The constructor, on integers.  The program computes the same numbers in
    doubles: a difference, a sum or a product whose exact value is at most
    2^53 in magnitude is exact, and a larger one is rounded to a number of
    the same sign that is still at least 2^53 in magnitude.  For
    [totalDrillingDays ≥ 1] a horizon below 2^32 is therefore the horizon of
    the program, and a horizon of 2^32 or more is one in the program too;
    the theorems on the horizon take the bound as a hypothesis. *)
Definition constructor (config : ScheduleConfig) : ScheduleGenerator :=
  let cycleLength := workDays (regime config) + restDays (regime config) in
  let drillingPerCycle := workDays (regime config) - inductionDays config - 1 in
  let estimatedCycles :=
    ceil_div (totalDrillingDays config) (Z.max 1 drillingPerCycle) in
  {| config := config;
     priorities := default DEFAULT_PRIORITIES (cfg_priorities config);
     totalDays :=
       Z.max (estimatedCycles * cycleLength * 2) (totalDrillingDays config * 2) |}.

Definition getPriorityValue (level : PriorityLevel) : Z :=
  match level with
  | high => 100
  | medium => 10
  | low => 1
  end.

Section Engine.

Variable this : ScheduleGenerator.

(** *** getPossibleActions *)

Definition getPossibleActions (state : S2State) (isActive : bool)
  : list SupervisorState :=
  if negb isActive && bool_decide (phase state = IDLE) then [St_Empty]
  else if isActive && bool_decide (phase state = IDLE) then [St_S]
  else
    match phase state with
    | GOING_UP => [if isFirstCycle state then St_I else St_P]
    | INDUCTION =>
        if daysInPhase state <? inductionDays (config this) then [St_I]
        else [St_I; St_P]
    | DRILLING =>
        if daysInPhase state <? 2 then [St_P] else [St_P; St_B]
    | GOING_DOWN => [St_D]
    | RESTING =>
        if daysInPhase state <? 1 then [St_D] else [St_D; St_S]
    | IDLE => [St_Empty]
    end.

(** *** evaluateActions

    The score is built by the source in place ([score -= ...], [score += ...]);
    each [let score := ...] below is one of its statements, in order. *)

Definition countP (s1 s2 s3 : SupervisorState) : Z :=
  (if decide (s1 = St_P) then 1 else 0) +
  (if decide (s2 = St_P) then 1 else 0) +
  (if decide (s3 = St_P) then 1 else 0).

Definition evaluateActions (day : Z) (s1 s2 s3 : SupervisorState)
    (s2Idx s3Idx : S2State) (s3Active : bool) : Z :=
  let score := 0 in
  let countP := countP s1 s2 s3 in
  let pVal := getPriorityValue in
  (* hard constraints *)
  let score := if countP >? 2 then score - 1000000 else score in
  let score :=
    if (countP =? 1) && s3Active
    then score - 500000 * pVal (twoDrillers (priorities this)) / 100
    else score in
  let score :=
    if (countP =? 0) && (day >? inductionDays (config this))
    then score - 900000 else score in
  (* medium constraints *)
  let score :=
    if countP =? 2
    then score + 10000 * pVal (twoDrillers (priorities this)) / 10
    else score in
  let workDays := workDays (regime (config this)) in
  let restDays := restDays (regime (config this)) in
  let s2Limit :=
    workDays - (if isFirstCycle s2Idx then inductionDays (config this) else 0) - 1 in
  let score :=
    if bool_decide (s2 = St_P) && bool_decide (phase s2Idx = DRILLING)
       && (daysInPhase s2Idx >? s2Limit)
    then score - 2000 * pVal (maxConsecutiveWork (priorities this)) / 10
    else score in
  let s3Limit :=
    workDays - (if isFirstCycle s3Idx then inductionDays (config this) else 0) - 1 in
  let score :=
    if bool_decide (s3 = St_P) && bool_decide (phase s3Idx = DRILLING)
       && (daysInPhase s3Idx >? s3Limit)
    then score - 2000 * pVal (maxConsecutiveWork (priorities this)) / 10
    else score in
  (* soft constraints *)
  let s2MinRest := restDays - 1 in
  let score :=
    if bool_decide (s2 = St_S) && bool_decide (phase s2Idx = RESTING) then
      if countP <? 2 then score + 20000 * pVal (twoDrillers (priorities this)) / 100
      else if daysInPhase s2Idx <? s2MinRest
      then score - 5000 * pVal (minimumRest (priorities this)) / 10
      else score + 1000
    else score in
  let s3MinRest := restDays - 1 in
  let score :=
    if bool_decide (s3 = St_S) && bool_decide (phase s3Idx = RESTING) then
      if countP <? 2 then score + 20000 * pVal (twoDrillers (priorities this)) / 100
      else if daysInPhase s3Idx <? s3MinRest
      then score - 5000 * pVal (minimumRest (priorities this)) / 10
      else score + 1000
    else score in
  let score :=
    if bool_decide (s2 = St_P) && bool_decide (phase s2Idx = DRILLING)
    then score + 100 else score in
  let score :=
    if bool_decide (s3 = St_P) && bool_decide (phase s3Idx = DRILLING)
    then score + 50 else score in
  score.

(** *** chooseBestMove

    [bestScore] starts at [-Infinity], rendered as [None]; every score is a
    finite number, so [score > -Infinity] holds.  [possibleS2[0]] and
    [possibleS3[0]] are the heads of two lists that are never empty (lemma
    [getPossibleActions_nonempty]), so the default of [hd] is never taken. *)

Definition scoreGt (score : Z) (bestScore : option Z) : bool :=
  match bestScore with
  | None => true
  | Some b => score >? b
  end.

Definition chooseBestMove (day : Z) (s1State : SupervisorState)
    (s2Idx s3Idx : S2State) (s3Active : bool)
  : SupervisorState * SupervisorState :=
  let possibleS2 := getPossibleActions s2Idx true in
  let possibleS3 := getPossibleActions s3Idx s3Active in
  let bestScore : option Z := None in
  let bestChoice := (hd St_Empty possibleS2, hd St_Empty possibleS3) in
  snd (foldl (fun acc actionS2 =>
         foldl (fun acc actionS3 =>
           let score :=
             evaluateActions day s1State actionS2 actionS3 s2Idx s3Idx s3Active in
           if scoreGt score (fst acc)
           then (Some score, (actionS2, actionS3))
           else acc) acc possibleS3)
       (bestScore, bestChoice) possibleS2).

(** *** syncInternalState *)

Definition actionToPhase (action : SupervisorState) : S2Phase :=
  match action with
  | St_S => GOING_UP
  | St_I => INDUCTION
  | St_P => DRILLING
  | St_B => GOING_DOWN
  | St_D => RESTING
  | St_Empty => IDLE
  end.

Definition syncInternalState (state : S2State) (action : SupervisorState)
    (day : Z) : S2State :=
  let requestedPhase := actionToPhase action in
  if bool_decide (phase state ≠ requestedPhase) then
    {| phase := requestedPhase;
       daysInPhase := 1;
       cycleCount :=
         if decide (action = St_S) then cycleCount state + 1 else cycleCount state;
       totalDrilled :=
         if decide (action = St_P) then totalDrilled state + 1 else totalDrilled state;
       lastRestStart := lastRestStart state;
       isFirstCycle :=
         if decide (action = St_S)
         then bool_decide (phase state = IDLE) && (cycleCount state =? 0)
         else isFirstCycle state |}
  else
    {| phase := phase state;
       daysInPhase := daysInPhase state + 1;
       cycleCount := cycleCount state;
       totalDrilled :=
         if decide (action = St_P) then totalDrilled state + 1 else totalDrilled state;
       lastRestStart := lastRestStart state;
       isFirstCycle := isFirstCycle state |}.

(** *** createEmptySchedule *)

(** [new Array(this.totalDays)] throws a RangeError unless the length is an
    integer from 0 to 2^32 - 1. *)
Definition createEmptySchedule : Result (list DayState) :=
  if (totalDays this <? 0) || (totalDays this >=? 2 ^ 32) then Throw RangeError
  else Ok ((fun i => {| day := i; state := St_Empty |})
             <$> seqZ 0 (totalDays this)).

(** *** generateFixedSchedule *)

(** [for (let i = 0; i < n && day < this.totalDays; i++) schedule[day++].state = x]
    for an integer [n]: at most [n] rounds, and none once the horizon is
    reached.  The loop state is the array and [day]. *)
Fixpoint fillDays (x : SupervisorState) (rounds : nat)
    (schedule : list DayState) (day : Z) : Result (list DayState * Z) :=
  match rounds with
  | O => Ok (schedule, day)
  | S rounds' =>
      if day <? totalDays this then
        let* schedule := setState schedule day x in
        fillDays x rounds' schedule (day + 1)
      else Ok (schedule, day)
  end.

(** One round of the [while] loop: S, I.., P.., B, D.. *)
Definition fixedCycle (schedule : list DayState) (day : Z)
  : Result (list DayState * Z) :=
  let workDays := workDays (regime (config this)) in
  let restDays := restDays (regime (config this)) in
  let inductionDays := inductionDays (config this) in
  let* (schedule, day) := fillDays St_S 1 schedule day in
  let* (schedule, day) := fillDays St_I (Z.to_nat inductionDays) schedule day in
  let drillingDays := Z.max 1 (workDays - inductionDays - 1) in
  let* (schedule, day) := fillDays St_P (Z.to_nat drillingDays) schedule day in
  let* (schedule, day) := fillDays St_B 1 schedule day in
  let actualRestDays := Z.max 0 (restDays - 1) in
  fillDays St_D (Z.to_nat actualRestDays) schedule day.

(** [while (day < this.totalDays) { ... }] *)
Fixpoint fixedLoop (fuel : nat) (schedule : list DayState) (day : Z)
  : Result (list DayState) :=
  if day <? totalDays this then
    match fuel with
    | O => Throw OutOfFuel
    | S fuel' =>
        let* (schedule, day) := fixedCycle schedule day in
        fixedLoop fuel' schedule day
    end
  else Ok schedule.

Definition generateFixedSchedule (startDay : Z) : Result (list DayState) :=
  let* schedule := createEmptySchedule in
  if startDay <? 0 then Ok schedule
  else fixedLoop (Z.to_nat (totalDays this)) schedule startDay.

(** *** generateCoordinatedSecondarySupervisors *)

(** The variables the day loop updates: the two arrays and the two
    phase-states. *)
Record Coordination : Set := {
  co_s2 : list DayState;
  co_s3 : list DayState;
  stateS2 : S2State;
  stateS3 : S2State
}.

(** The body of the day loop. *)
Definition coordinateDay (s1 : list DayState) (s3StartDay : Z) (day : Z)
    (c : Coordination) : Result Coordination :=
  let s3IsActive := day >=? s3StartDay in
  let* s1Day := (match getAt s1 day with
                 | Some d => Ok d
                 | None => Throw TypeError
                 end) in
  let bestMove :=
    chooseBestMove day (state s1Day) (stateS2 c) (stateS3 c) s3IsActive in
  let* s2 := setState (co_s2 c) day (fst bestMove) in
  let* s3 := setState (co_s3 c) day (snd bestMove) in
  Ok {| co_s2 := s2;
        co_s3 := s3;
        stateS2 := syncInternalState (stateS2 c) (fst bestMove) day;
        stateS3 := syncInternalState (stateS3 c) (snd bestMove) day |}.

(** [rounds] further rounds of [for (day = ..; day < this.totalDays; day++)]. *)
Fixpoint coordinateDays (s1 : list DayState) (s3StartDay : Z) (rounds : nat)
    (day : Z) (c : Coordination) : Result Coordination :=
  match rounds with
  | O => Ok c
  | S rounds' =>
      let* c := coordinateDay s1 s3StartDay day c in
      coordinateDays s1 s3StartDay rounds' (day + 1) c
  end.

Definition initialS2State : S2State := {|
  phase := IDLE;
  daysInPhase := 0;
  cycleCount := 0;
  totalDrilled := 0;
  lastRestStart := -1;
  isFirstCycle := true
|}.

(** The state of the day loop before its first round: S2 already went up on
    day 0. *)
Definition initialCoordination : Result Coordination :=
  let* s2 := createEmptySchedule in
  let* s3 := createEmptySchedule in
  let stateS2 := initialS2State in
  let stateS3 := initialS2State in
  let stateS2 := {| phase := GOING_UP;
                    daysInPhase := 1;
                    cycleCount := cycleCount stateS2;
                    totalDrilled := totalDrilled stateS2;
                    lastRestStart := lastRestStart stateS2;
                    isFirstCycle := isFirstCycle stateS2 |} in
  let* s2 := setState s2 0 St_S in
  Ok {| co_s2 := s2; co_s3 := s3; stateS2 := stateS2; stateS3 := stateS3 |}.

Definition generateCoordinatedSecondarySupervisors (s1 : list DayState)
    (s3StartDay : Z) : Result (list DayState * list DayState) :=
  let* c := initialCoordination in
  let* c := coordinateDays s1 s3StartDay (Z.to_nat (totalDays this - 1)) 1 c in
  Ok (co_s2 c, co_s3 c).

(** *** calculateDrillersPerDay *)

Definition isDrilling (a : list DayState) (day : Z) : bool :=
  bool_decide (stateAt a day = Some St_P).

Definition calculateDrillersPerDay (s1 s2 s3 : list DayState) : list Z :=
  (fun day =>
     (if isDrilling s1 day then 1 else 0) +
     (if isDrilling s2 day then 1 else 0) +
     (if isDrilling s3 day then 1 else 0))
  <$> seqZ 0 (totalDays this).

(** *** calculateStats *)

(** The four counters of the first loop. *)
Record DayTally : Set := {
  daysWithTwo : Z; daysWithOne : Z; daysWithThree : Z; daysWithZero : Z
}.

Definition tallyDay (t : DayTally) (count : Z) : DayTally :=
  if count =? 2 then
    {| daysWithTwo := daysWithTwo t + 1; daysWithOne := daysWithOne t;
       daysWithThree := daysWithThree t; daysWithZero := daysWithZero t |}
  else if count =? 1 then
    {| daysWithTwo := daysWithTwo t; daysWithOne := daysWithOne t + 1;
       daysWithThree := daysWithThree t; daysWithZero := daysWithZero t |}
  else if count =? 3 then
    {| daysWithTwo := daysWithTwo t; daysWithOne := daysWithOne t;
       daysWithThree := daysWithThree t + 1; daysWithZero := daysWithZero t |}
  else if count =? 0 then
    {| daysWithTwo := daysWithTwo t; daysWithOne := daysWithOne t;
       daysWithThree := daysWithThree t; daysWithZero := daysWithZero t + 1 |}
  else t.

(** The four variables of the rest-period loop. *)
Record RestScan : Set := {
  totalRestDays : Z; restPeriods : Z; inRest : bool; currentRestDays : Z
}.

Definition restScanDay (r : RestScan) (d : DayState) : RestScan :=
  if decide (state d = St_D) then
    let currentRestDays := if inRest r then currentRestDays r else 0 in
    {| totalRestDays := totalRestDays r; restPeriods := restPeriods r;
       inRest := true; currentRestDays := currentRestDays + 1 |}
  else if inRest r then
    {| totalRestDays := totalRestDays r + currentRestDays r;
       restPeriods := restPeriods r + 1;
       inRest := false; currentRestDays := currentRestDays r |}
  else r.

Definition restScan (s2 : list DayState) : RestScan :=
  foldl restScanDay
    {| totalRestDays := 0; restPeriods := 0; inRest := false;
       currentRestDays := 0 |} s2.

Definition calculateStats (drillersPerDay : list Z) (s2 : list DayState)
  : ScheduleStats :=
  let t := foldl tallyDay
             {| daysWithTwo := 0; daysWithOne := 0; daysWithThree := 0;
                daysWithZero := 0 |} drillersPerDay in
  let s2Cycles :=
    Z.of_nat (length (filter
      (fun id : Z * DayState =>
         state id.2 = St_S ∧ (id.1 = 0 ∨ stateAt s2 (id.1 - 1) ≠ Some St_S))
      (zip (seqZ 0 (Z.of_nat (length s2))) s2))) in
  let r := restScan s2 in
  {| st_totalDays := totalDays this;
     daysWithTwoDrillers := daysWithTwo t;
     daysWithOneDriller := daysWithOne t;
     daysWithThreeDrillers := daysWithThree t;
     daysWithZeroDrillers := daysWithZero t;
     s2Cycles := s2Cycles;
     averageRestDays :=
       if restPeriods r >? 0
       then (inject_Z (totalRestDays r) / inject_Z (restPeriods r))%Q
       else 0%Q |}.

(** *** validateSequence, validateSchedule *)

Definition validateSequence (schedule : list DayState) (day : Z)
    (supervisor : string) (errors : list ScheduleError) : list ScheduleError :=
  if bool_decide (day = 0) || (day >=? totalDays this - 1) then errors
  else
    let prev := stateAt schedule (day - 1) in
    let curr := stateAt schedule day in
    let next := stateAt schedule (day + 1) in
    let errors :=
      if bool_decide (prev = Some St_S) && bool_decide (curr = Some St_S)
      then errors ++ [{| e_type := INVALID_SEQUENCE; e_day := day;
                         e_message := supervisor +:+ ": Subida consecutiva (S-S)";
                         e_supervisors := [supervisor];
                         e_causedByPriority := None |}]
      else errors in
    let errors :=
      if bool_decide (prev = Some St_S) && bool_decide (curr = Some St_B)
      then errors ++ [{| e_type := INVALID_SEQUENCE; e_day := day;
                         e_message := supervisor +:+ ": Bajada sin trabajo (S-B)";
                         e_supervisors := [supervisor];
                         e_causedByPriority := None |}]
      else errors in
    let errors :=
      if bool_decide (prev = Some St_B) && bool_decide (curr = Some St_S)
      then errors ++ [{| e_type := INVALID_SEQUENCE; e_day := day;
                         e_message := supervisor +:+ ": Sin descanso (B-S)";
                         e_supervisors := [supervisor];
                         e_causedByPriority :=
                           if decide (minimumRest (priorities this) = low)
                           then Some "minimumRest" else None |}]
      else errors in
    let errors :=
      if bool_decide (prev ≠ Some St_P) && bool_decide (curr = Some St_P)
         && bool_decide (next ≠ Some St_P) && bool_decide (next ≠ Some St_Empty)
      then errors ++ [{| e_type := SHORT_DRILLING; e_day := day;
                         e_message := supervisor +:+ ": Solo 1 día perforando";
                         e_supervisors := [supervisor];
                         e_causedByPriority :=
                           if decide (minimumDrilling (priorities this) = low)
                           then Some "minimumDrilling" else None |}]
      else errors in
    errors.

(** The body of the loop of [validateSchedule]. *)
Definition validateDay (s1 s2 s3 : list DayState) (drillersPerDay : list Z)
    (s3ActiveDay : Z) (errors : list ScheduleError) (day : Z)
  : list ScheduleError :=
  let count := getAt drillersPerDay day in
  let errors :=
    if bool_decide (count = Some 3)
    then errors ++ [{| e_type := THREE_DRILLING; e_day := day;
                       e_message :=
                         "Día " +:+ pretty day +:+ ": 3 supervisores perforando";
                       e_supervisors := ["S1"; "S2"; "S3"];
                       e_causedByPriority :=
                         if decide (noThreeDrillers (priorities this) ≠ high)
                         then Some "noThreeDrillers" else None |}]
    else errors in
  let errors :=
    if bool_decide (count = Some 1) && bool_decide (s3ActiveDay ≠ -1)
       && (day >=? s3ActiveDay)
    then
      let drilling :=
        filter (fun s : string => s ≠ "")
          [ if isDrilling s1 day then "S1" else "";
            if isDrilling s2 day then "S2" else "";
            if isDrilling s3 day then "S3" else "" ] in
      errors ++ [{| e_type := ONE_DRILLING; e_day := day;
                    e_message :=
                      "Día " +:+ pretty day +:+ ": Solo 1 supervisor perforando";
                    e_supervisors := drilling;
                    e_causedByPriority :=
                      if decide (minimumRest (priorities this) = high)
                      then Some "minimumRest" else None |}]
    else errors in
  let errors :=
    if bool_decide (count = Some 0) && (day >? inductionDays (config this) + 1)
    then errors ++ [{| e_type := ZERO_DRILLING; e_day := day;
                       e_message :=
                         "Día " +:+ pretty day +:+ ": Ningún supervisor perforando";
                       e_supervisors := [];
                       e_causedByPriority := None |}]
    else errors in
  let errors := validateSequence s1 day "S1" errors in
  let errors := validateSequence s2 day "S2" errors in
  let errors := validateSequence s3 day "S3" errors in
  errors.

Definition validateSchedule (s1 s2 s3 : list DayState)
    (drillersPerDay : list Z) : list ScheduleError :=
  let errors := [] in
  let s3ActiveDay := findIndex (fun d => bool_decide (state d ≠ St_Empty)) s3 in
  foldl (validateDay s1 s2 s3 drillersPerDay s3ActiveDay) errors
        (seqZ 0 (totalDays this)).

(** *** generateSchedule *)

(** Step 2 of [generateSchedule]: the day S3 enters. *)
Definition s3StartDay (s1 : list DayState) : Z :=
  let s1FirstDown := findIndex (fun d => bool_decide (state d = St_B)) s1 in
  Z.max 0 (s1FirstDown - inductionDays (config this) - 1).

Definition generateSchedule : Result Schedule :=
  let* s1 := generateFixedSchedule 0 in
  let s3StartDay := s3StartDay s1 in
  let* (s2, s3) := generateCoordinatedSecondarySupervisors s1 s3StartDay in
  let drillersPerDay := calculateDrillersPerDay s1 s2 s3 in
  let errors := validateSchedule s1 s2 s3 drillersPerDay in
  let stats := calculateStats drillersPerDay s2 in
  Ok {| s1 := s1; s2 := s2; s3 := s3; drillersPerDay := drillersPerDay;
        errors := errors; stats := Some stats |}.

End Engine.

(** [new ScheduleGenerator(config).generateSchedule()], the one entry point
    of the engine. *)
Definition run (config : ScheduleConfig) : Result Schedule :=
  generateSchedule (constructor config).

Definition mkConfig (workDays restDays inductionDays totalDrillingDays : Z)
  : ScheduleConfig :=
  {| regime := {| workDays := workDays; restDays := restDays |};
     inductionDays := inductionDays;
     totalDrillingDays := totalDrillingDays;
     cfg_priorities := None |}.

Definition states (a : list DayState) : list SupervisorState := state <$> a.

(** * Vocabulary of the properties *)

(** [Written this schedule w]: the array has the length of the horizon, its
    first [length w] days hold the states [w], the days after them are
    still '-'. *)
Definition Written (this : ScheduleGenerator) (schedule : list DayState)
    (w : list SupervisorState) : Prop :=
  length schedule = Z.to_nat (totalDays this) ∧
  states schedule =
    w ++ replicate (Z.to_nat (totalDays this) - length w) St_Empty ∧
  (length w ≤ Z.to_nat (totalDays this))%nat.

(** [extend n w seg]: [w] followed by [seg], cut at length [n]. *)
Definition extend {A} (n : nat) (w seg : list A) : list A :=
  w ++ take (n - length w) seg.

(** [chain R l]: [R] relates every element of [l] to the next one. *)
Fixpoint chain {A} (R : A → A → Prop) (l : list A) : Prop :=
  match l with
  | a :: l' => match l' with b :: _ => R a b | [] => True end ∧ chain R l'
  | [] => True
  end.

(** The three transitions of the hard-sequence rule: S-S, S-B and B-S. *)
Definition forbidden (a b : SupervisorState) : Prop :=
  (a = St_S ∧ b = St_S) ∨ (a = St_S ∧ b = St_B) ∨ (a = St_B ∧ b = St_S).

Definition allowed (a b : SupervisorState) : Prop := ¬ forbidden a b.

(** The two of them that leave UP: S-S and S-B. *)
Definition forbiddenFromUp (a b : SupervisorState) : Prop :=
  a = St_S ∧ (b = St_S ∨ b = St_B).

(** No pair of consecutive days of the sequence is a transition in [P]. *)
Definition noTransition (P : SupervisorState → SupervisorState → Prop)
    (a : list DayState) : Prop :=
  ∀ (d : Z) (x y : SupervisorState),
    stateAt a d = Some x → stateAt a (d + 1) = Some y → ¬ P x y.

Definition hardSequence (a : list DayState) : Prop := noTransition forbidden a.

(** The cycle of the fixed regime, in the words of the specification: 1 day
    UP, [inductionDays] days INDUCTION, [max(1, workDays - inductionDays - 1)]
    days DRILLING, 1 day DOWN, [max(0, restDays - 1)] days REST. *)
Definition fixedPattern (config : ScheduleConfig) : list SupervisorState :=
  [St_S]
  ++ replicate (Z.to_nat (inductionDays config)) St_I
  ++ replicate (Z.to_nat (Z.max 1 (workDays (regime config)
                                   - inductionDays config - 1))) St_P
  ++ [St_B]
  ++ replicate (Z.to_nat (Z.max 0 (restDays (regime config) - 1))) St_D.

(** [k] copies of a pattern, one after the other. *)
Definition repeated {A} (k : nat) (pattern : list A) : list A :=
  concat (replicate k pattern).

(** The state in which the day loop of
    [generateCoordinatedSecondarySupervisors] enters the round of day [d]:
    the initial state followed by the rounds of days [1 .. d - 1]. *)
Definition coordinationBefore (this : ScheduleGenerator) (s1 : list DayState)
    (s3StartDay : Z) (d : Z) : Result Coordination :=
  let* c := initialCoordination this in
  coordinateDays this s1 s3StartDay (Z.to_nat (d - 1)) 1 c.

(** The invariant of the day loop, when days [0 .. length w2 - 1] are
    written: [w2] and [w3] are the states of S2 and S3 on these days. *)
Record CoordInv (this : ScheduleGenerator) (s3StartDay : Z) (c : Coordination)
    (w2 w3 : list SupervisorState) : Prop := {
  inv_s2 : Written this (co_s2 c) w2;
  inv_s3 : Written this (co_s3 c) w3;
  inv_length : length w2 = length w3;
  inv_phase2 : actionToPhase <$> last w2 = Some (phase (stateS2 c));
  inv_phase3 : actionToPhase <$> last w3 = Some (phase (stateS3 c));
  inv_chain2 : chain allowed w2;
  inv_chain3 : chain allowed w3;
  inv_entry : ∀ (j : nat) x, w3 !! j = Some x →
                (x = St_Empty ↔ j = 0%nat ∨ Z.of_nat j < s3StartDay)
}.

(** [fd] is the index of the first DOWN day of the sequence. *)
Definition firstDownDayOf (a : list DayState) (fd : Z) : Prop :=
  stateAt a fd = Some St_B ∧ ∀ j, 0 ≤ j < fd → stateAt a j ≠ Some St_B.

(** [n] is the ceiling of the quotient [a / b], for [b > 0]. *)
Definition isCeilOf (n a b : Z) : Prop := (n - 1) * b < a ≤ n * b.

(** The lengths of the maximal runs of consecutive REST days of a sequence,
    in order: [restRunsFrom n l] when a run of [n] REST days precedes [l]. *)
Fixpoint restRunsFrom (n : Z) (l : list SupervisorState) : list Z :=
  match l with
  | [] => if n =? 0 then [] else [n]
  | St_D :: l' => restRunsFrom (n + 1) l'
  | _ :: l' => if n =? 0 then restRunsFrom 0 l' else n :: restRunsFrom 0 l'
  end.

Definition restRuns (l : list SupervisorState) : list Z := restRunsFrom 0 l.

Definition sumZ (l : list Z) : Z := foldr Z.add 0 l.

(** The mean of a list of integers, 0 for the empty list. *)
Definition mean (l : list Z) : Q :=
  match l with
  | [] => 0%Q
  | _ => (inject_Z (sumZ l) / inject_Z (Z.of_nat (length l)))%Q
  end.

(** Two configurations and two phase-states used as examples. *)
Definition regime_14x7 : ScheduleConfig := mkConfig 14 7 5 30.

Definition regime_2x1 : ScheduleConfig := mkConfig 2 1 0 1.

Definition inductionState (days : Z) : S2State := {|
  phase := INDUCTION;
  daysInPhase := days;
  cycleCount := 1;
  totalDrilled := 0;
  lastRestStart := -1;
  isFirstCycle := true
|}.

Definition restingState (days : Z) : S2State := {|
  phase := RESTING;
  daysInPhase := days;
  cycleCount := 1;
  totalDrilled := 8;
  lastRestStart := -1;
  isFirstCycle := false
|}.

(** The generator of regime 14x7 with the keep-two-producing rule at a
    given weight. *)
Definition generatorWith (level : PriorityLevel) : ScheduleGenerator :=
  constructor {|
    regime := {| workDays := 14; restDays := 7 |};
    inductionDays := 5;
    totalDrillingDays := 30;
    cfg_priorities := Some {| twoDrillers := level;
                              minimumRest := medium;
                              minimumDrilling := medium;
                              noThreeDrillers := high;
                              maxConsecutiveWork := low |}
  |}.

(** Regime 7x5 with 2 induction days, the keep-two-producing rule at low and
    the limit on consecutive work at high. *)
Definition regime_7x5 : ScheduleConfig := {|
  regime := {| workDays := 7; restDays := 5 |};
  inductionDays := 2;
  totalDrillingDays := 10;
  cfg_priorities := Some {| twoDrillers := low;
                            minimumRest := medium;
                            minimumDrilling := medium;
                            noThreeDrillers := high;
                            maxConsecutiveWork := high |}
|}.

(** * Further code of the repository *)

(** ** class ScheduleGenerator: the comparisons of priorities *)

Definition isPriorityEqualOrHigher (priority1 priority2 : PriorityLevel) : bool :=
  getPriorityValue priority1 >=? getPriorityValue priority2.

Definition isPriorityHigher (priority1 priority2 : PriorityLevel) : bool :=
  getPriorityValue priority1 >? getPriorityValue priority2.

(** ** SchedulePlanner: the input checks of handleGenerateSchedule *)

(** The four range checks of the handler, in their order: the message of
    the [Error] thrown by the first check that fails, [None] when the inputs
    pass. *)
Definition checkInputs (workDays restDays inductionDays totalDrillingDays : Z)
  : option string :=
  if (workDays <? 7) || (workDays >? 30)
  then Some "Los días de trabajo deben estar entre 7 y 30"
  else if (restDays <? 3) || (restDays >? 15)
  then Some "Los días de descanso deben estar entre 3 y 15"
  else if (inductionDays <? 1) || (inductionDays >? 5)
  then Some "Los días de inducción deben estar entre 1 y 5"
  else if (totalDrillingDays <? 10) || (totalDrillingDays >? 365)
  then Some "Los días totales de perforación deben estar entre 10 y 365"
  else None.

(** The configuration the handler builds from the fields of the form. *)
Definition formConfig (workDays restDays inductionDays totalDrillingDays : Z)
    (priorities : AlgorithmPriorities) : ScheduleConfig :=
  {| regime := {| workDays := workDays; restDays := restDays |};
     inductionDays := inductionDays;
     totalDrillingDays := totalDrillingDays;
     cfg_priorities := Some priorities |}.

(** The handler from its checks to the call of the engine: the message of a
    failed check, or what [generateSchedule] answers. *)
Definition handleGenerateSchedule
    (workDays restDays inductionDays totalDrillingDays : Z)
    (priorities : AlgorithmPriorities) : string + Result Schedule :=
  match checkInputs workDays restDays inductionDays totalDrillingDays with
  | Some message => inl message
  | None =>
      inr (run (formConfig workDays restDays inductionDays totalDrillingDays
                  priorities))
  end.

(** * Further vocabulary *)

(** The steps of the lifecycle of an entity from one day to the next. *)
Definition lifecycle (a b : SupervisorState) : Prop :=
  match a with
  | St_Empty => b = St_Empty ∨ b = St_S
  | St_S => b = St_I ∨ b = St_P
  | St_I => b = St_I ∨ b = St_P
  | St_P => b = St_P ∨ b = St_B
  | St_B => b = St_D
  | St_D => b = St_D ∨ b = St_S
  end.

(** Every pair of consecutive days of the sequence is a step of the
    lifecycle. *)
Definition followsLifecycle (a : list DayState) : Prop :=
  ∀ (d : Z) (x y : SupervisorState),
    stateAt a d = Some x → stateAt a (d + 1) = Some y → lifecycle x y.

(** The number of entities that are DRILLING on day [d] of a schedule. *)
Definition producersOn (sch : Schedule) (d : Z) : Z :=
  (if decide (stateAt (s1 sch) d = Some St_P) then 1 else 0) +
  (if decide (stateAt (s2 sch) d = Some St_P) then 1 else 0) +
  (if decide (stateAt (s3 sch) d = Some St_P) then 1 else 0).

(** [hasError sch type d]: the error list holds an error of this type for
    day [d]. *)
Definition hasError (sch : Schedule) (type : ScheduleErrorType) (d : Z) : Prop :=
  ∃ e, e ∈ errors sch ∧ e_type e = type ∧ e_day e = d.

(** The phase-state of S2 when the day loop starts: S2 went up on day 0. *)
Definition ascendingS2State : S2State := {|
  phase := GOING_UP;
  daysInPhase := 1;
  cycleCount := 0;
  totalDrilled := 0;
  lastRestStart := -1;
  isFirstCycle := true
|}.

(** [e] is an error that [validateSequence] reports for a sequence under
    the name [supervisor]: on a day after day 0 and before the last one,
    either one of the transitions S-S, S-B, B-S into that day, or a single
    DRILLING day. *)
Definition sequenceErrorOf (this : ScheduleGenerator)
    (schedule : list DayState) (supervisor : string) (e : ScheduleError)
  : Prop :=
  e_day e ≠ 0 ∧ e_day e < totalDays this - 1 ∧
  e_supervisors e = [supervisor] ∧
  ((e_type e = INVALID_SEQUENCE ∧
    ∃ x y, stateAt schedule (e_day e - 1) = Some x ∧
           stateAt schedule (e_day e) = Some y ∧ forbidden x y) ∨
   (e_type e = SHORT_DRILLING ∧
    stateAt schedule (e_day e - 1) ≠ Some St_P ∧
    stateAt schedule (e_day e) = Some St_P ∧
    stateAt schedule (e_day e + 1) ≠ Some St_P ∧
    stateAt schedule (e_day e + 1) ≠ Some St_Empty)).

(** [e] is an error that [validateSchedule] reports for the count of its
    day. *)
Definition countErrorOf (this : ScheduleGenerator) (counts : list Z)
    (s3ActiveDay : Z) (e : ScheduleError) : Prop :=
  (e_type e = THREE_DRILLING ∧ getAt counts (e_day e) = Some 3) ∨
  (e_type e = ONE_DRILLING ∧ getAt counts (e_day e) = Some 1 ∧
   s3ActiveDay ≠ -1 ∧ s3ActiveDay ≤ e_day e) ∨
  (e_type e = ZERO_DRILLING ∧ getAt counts (e_day e) = Some 0 ∧
   inductionDays (config this) + 1 < e_day e).

(** The number of days of the first [horizon] days on which exactly [k]
    entities are DRILLING. *)
Definition daysWithProducers (sch : Schedule) (horizon k : Z) : Z :=
  Z.of_nat (length (filter (fun d => producersOn sch d = k) (seqZ 0 horizon))).

(** The number of entries of [l] equal to [k]. *)
Definition occurrences (k : Z) (l : list Z) : Z :=
  Z.of_nat (length (filter (fun c => c = k) l)).

(** The errors of a list are in the order of their days. *)
Definition chronological (errors : list ScheduleError) : Prop :=
  ∀ (i j : nat) e e', errors !! i = Some e → errors !! j = Some e' →
    (i ≤ j)%nat → e_day e ≤ e_day e'.

(** Every element of the array carries its own position in [day]. *)
Definition indexed (a : list DayState) : Prop :=
  ∀ d x, getAt a d = Some x → day x = d.

(** The variables [bestScore] and [bestChoice] of [chooseBestMove]; [None] is
    the initial [-Infinity]. *)
Definition BestSoFar : Type :=
  (option Z * (SupervisorState * SupervisorState))%type.

(** The body of the inner loop of [chooseBestMove] for a score function. *)
Definition considerMove (score : SupervisorState → SupervisorState → Z)
    (actionS2 : SupervisorState) (acc : BestSoFar) (actionS3 : SupervisorState)
  : BestSoFar :=
  if scoreGt (score actionS2 actionS3) acc.1
  then (Some (score actionS2 actionS3), (actionS2, actionS3))
  else acc.

(** The best score so far is the score of the best choice so far. *)
Definition consistent (score : SupervisorState → SupervisorState → Z)
    (acc : BestSoFar) : Prop :=
  ∀ b, acc.1 = Some b → b = score acc.2.1 acc.2.2.

(** The best score so far is at least the score of the pair. *)
Definition covers (score : SupervisorState → SupervisorState → Z)
    (acc : BestSoFar) (a2 a3 : SupervisorState) : Prop :=
  ∃ b, acc.1 = Some b ∧ score a2 a3 ≤ b.

(** Regime 14x7 with 5 induction days and a campaign of 10^9 drilling days:
    all inputs are non-negative and the horizon is 5250000000 days. *)
Definition regime_14x7_long : ScheduleConfig := mkConfig 14 7 5 1000000000.

(** ** Proof steps *)

(** The errors appended to a list by a chain of guarded pushes are errors of
    the day of the pushes. *)
Ltac pushed_days :=
  intros e He;
  repeat (apply elem_of_app in He as [He|He]);
  repeat match goal with
         | H : _ ∈ (if ?b then _ else _) |- _ => destruct b
         end;
  try (by apply elem_of_nil in He);
  apply list_elem_of_singleton in He; by subst e.

(** Inversion of a chain of binds that returned. *)
Ltac bind_inv H :=
  repeat match type of H with
         | bind ?m _ = Ok _ =>
             let E := fresh "E" in
             destruct m as [?|?] eqn:E; cbn [bind] in H; [|discriminate H]
         end.

(** A sum of guarded terms lies between the sums of the smaller and of the
    larger branches. *)
Ltac bound_branches :=
  repeat match goal with
         | |- context [if ?c then ?k else ?k'] =>
             let H := fresh in
             let z := fresh "z" in
             assert (Z.min k k' ≤ (if c then k else k') ≤ Z.max k k') as H
               by (destruct c; lia);
             revert H; generalize (if c then k else k'); intros z
         end;
  intros; lia.

(** * Properties *)

(** ** Numbers *)

(** The five scaled weights of [evaluateActions] divide without remainder. *)
Lemma getPriorityValue_quotients level :
  (500000 * getPriorityValue level) `mod` 100 = 0 ∧
  (10000 * getPriorityValue level) `mod` 10 = 0 ∧
  (2000 * getPriorityValue level) `mod` 10 = 0 ∧
  (20000 * getPriorityValue level) `mod` 100 = 0 ∧
  (5000 * getPriorityValue level) `mod` 10 = 0.
Proof. by destruct level. Qed.

Lemma ceil_div_isCeilOf a b : 0 < b → isCeilOf (ceil_div a b) a b.
Proof.
  intros Hb. unfold isCeilOf, ceil_div.
  pose proof (Z.div_mod (- a) b) as Hdm.
  pose proof (Z.mod_pos_bound (- a) b Hb). nia.
Qed.

(** ** Arrays under construction *)

Section Written.

Variable this : ScheduleGenerator.

Local Abbreviation T := (Z.to_nat (totalDays this)).

Local Abbreviation Written := (Written this).

Lemma getAt_of_nat {A} (a : list A) (i : nat) : getAt a (Z.of_nat i) = a !! i.
Proof.
  unfold getAt. destruct (Z.ltb_spec (Z.of_nat i) 0); [lia|].
  by rewrite Nat2Z.id.
Qed.

Lemma getAt_Some {A} (a : list A) (i : Z) x :
  getAt a i = Some x ↔ 0 ≤ i ∧ a !! Z.to_nat i = Some x.
Proof.
  unfold getAt. destruct (Z.ltb_spec i 0); split.
  - done.
  - intros [? _]. lia.
  - intros ?. split; [lia|done].
  - by intros [_ ?].
Qed.

Lemma stateAt_states (a : list DayState) (i : nat) :
  stateAt a (Z.of_nat i) = states a !! i.
Proof. unfold stateAt, states. by rewrite getAt_of_nat, list_lookup_fmap. Qed.

Lemma states_length a : length (states a) = length a.
Proof. unfold states. by rewrite length_fmap. Qed.

Lemma setState_states schedule i x schedule' :
  setState schedule i x = Ok schedule' →
  states schedule' = <[Z.to_nat i := x]> (states schedule) ∧
  length schedule' = length schedule ∧
  0 ≤ i < Z.of_nat (length schedule).
Proof.
  unfold setState. destruct (getAt schedule i) as [d|] eqn:E; [|done].
  intros [= <-]. apply getAt_Some in E as [Hi E].
  apply lookup_lt_Some in E as Hlt.
  unfold states. rewrite list_fmap_insert, length_insert. simpl.
  repeat split; lia.
Qed.

Lemma setState_Ok schedule (i : nat) x :
  (i < length schedule)%nat →
  ∃ schedule', setState schedule (Z.of_nat i) x = Ok schedule'.
Proof.
  intros Hi. unfold setState. rewrite getAt_of_nat.
  destruct (lookup_lt_is_Some_2 schedule i Hi) as [d ->]. eauto.
Qed.

Lemma Written_length schedule w : Written schedule w → length schedule = T.
Proof. by intros (? & _). Qed.

Lemma Written_full schedule w :
  Written schedule w → length w = T → states schedule = w.
Proof.
  intros (_ & -> & _) ->. by rewrite Nat.sub_diag, app_nil_r.
Qed.

(** Writing the next day of an array under construction. *)
Lemma setState_Written schedule w x :
  Written schedule w → (length w < T)%nat →
  ∃ schedule', setState schedule (Z.of_nat (length w)) x = Ok schedule' ∧
               Written schedule' (w ++ [x]).
Proof.
  intros (HT & Hst & Hle) Hlt.
  destruct (setState_Ok schedule (length w) x) as [schedule' E]; [lia|].
  exists schedule'. split; [done|].
  apply setState_states in E as (E & Hlen & _).
  rewrite Nat2Z.id in E. split; [lia|]. split.
  - rewrite E, Hst.
    rewrite insert_app_r_alt, Nat.sub_diag by lia.
    destruct (T - length w)%nat as [|k] eqn:Ek; [lia|]. simpl.
    rewrite length_app. simpl. rewrite <- app_assoc. simpl.
    do 3 f_equal. lia.
  - rewrite length_app. simpl. lia.
Qed.

Lemma createEmptySchedule_bounds schedule :
  createEmptySchedule this = Ok schedule → 0 ≤ totalDays this < 2 ^ 32.
Proof.
  unfold createEmptySchedule.
  destruct (Z.ltb_spec (totalDays this) 0); [done|].
  destruct (Z.geb_spec (totalDays this) (2 ^ 32)); [done|]. lia.
Qed.

Lemma createEmptySchedule_Throw :
  totalDays this < 0 ∨ 2 ^ 32 ≤ totalDays this →
  createEmptySchedule this = Throw RangeError.
Proof.
  intros HT. unfold createEmptySchedule.
  destruct (Z.ltb_spec (totalDays this) 0); [done|].
  destruct (Z.geb_spec (totalDays this) (2 ^ 32)); [done|]. lia.
Qed.

Lemma createEmptySchedule_Written :
  0 ≤ totalDays this < 2 ^ 32 →
  ∃ schedule, createEmptySchedule this = Ok schedule ∧ Written schedule [].
Proof.
  intros HT. unfold createEmptySchedule.
  destruct (Z.ltb_spec (totalDays this) 0); [lia|].
  destruct (Z.geb_spec (totalDays this) (2 ^ 32)); [lia|]. cbn [orb].
  eexists; split; [done|]. split; [|split].
  - rewrite length_fmap, length_seqZ. done.
  - unfold states. rewrite <- list_fmap_compose. simpl.
    rewrite Nat.sub_0_r. apply list_eq. intros i.
    rewrite list_lookup_fmap.
    destruct (decide (i < T)%nat) as [Hi|Hi].
    + rewrite lookup_seqZ_lt by lia. simpl.
      by rewrite lookup_replicate_2.
    + rewrite lookup_seqZ_ge by lia. simpl. symmetry.
      apply lookup_replicate_None. lia.
  - simpl. lia.
Qed.

(** ** The fixed-regime generator *)

Lemma extend_nil {A} n (w : list A) : extend n w [] = w.
Proof. unfold extend. by rewrite take_nil, app_nil_r. Qed.

Lemma extend_full {A} n (w seg : list A) : (n ≤ length w)%nat → extend n w seg = w.
Proof.
  intros H. unfold extend. replace (n - length w)%nat with 0%nat by lia.
  by rewrite take_0, app_nil_r.
Qed.

Lemma extend_cons {A} n (w : list A) x seg :
  (length w < n)%nat → extend n w (x :: seg) = extend n (w ++ [x]) seg.
Proof.
  intros H. unfold extend. rewrite length_app. simpl.
  destruct (n - length w)%nat as [|k] eqn:Ek; [lia|]. simpl.
  rewrite <- app_assoc. simpl. do 3 f_equal. lia.
Qed.

Lemma extend_extend {A} n (w a b : list A) :
  extend n (extend n w a) b = extend n w (a ++ b).
Proof.
  unfold extend. rewrite take_app, <- app_assoc. do 2 f_equal.
  rewrite length_app, length_take. f_equal. lia.
Qed.

Lemma extend_length {A} n (w seg : list A) :
  (length w ≤ n)%nat →
  length (extend n w seg) = ((length w + length seg) `min` n)%nat.
Proof. intros H. unfold extend. rewrite length_app, length_take. lia. Qed.

(** A counted loop of [generateFixedSchedule] writes [rounds] copies of [x],
    cut at the horizon, and leaves [day] after the last one. *)
Lemma fillDays_Written x rounds schedule w :
  Written schedule w →
  ∃ schedule',
    fillDays this x rounds schedule (Z.of_nat (length w))
    = Ok (schedule', Z.of_nat (length (extend T w (replicate rounds x)))) ∧
    Written schedule' (extend T w (replicate rounds x)).
Proof.
  revert schedule w. induction rounds as [|rounds IH]; intros schedule w HW.
  - simpl. rewrite extend_nil. eauto.
  - simpl. destruct HW as (HT & Hst & Hle).
    destruct (Z.ltb_spec (Z.of_nat (length w)) (totalDays this)) as [Hlt|Hge].
    + destruct (setState_Written schedule w x) as (schedule1 & -> & HW1);
        [done|lia|].
      simpl. rewrite extend_cons by lia.
      destruct (IH schedule1 (w ++ [x]) HW1) as (schedule' & E & HW').
      exists schedule'. split; [|done].
      rewrite <- E. f_equal. rewrite length_app. simpl. lia.
    + rewrite extend_full by lia. exists schedule. done.
Qed.

Lemma fillDays_segment x rounds schedule w seg :
  Written schedule (extend T w seg) →
  ∃ schedule',
    fillDays this x rounds schedule (Z.of_nat (length (extend T w seg)))
    = Ok (schedule',
          Z.of_nat (length (extend T w (seg ++ replicate rounds x)))) ∧
    Written schedule' (extend T w (seg ++ replicate rounds x)).
Proof.
  intros HW. rewrite <- extend_extend. by apply fillDays_Written.
Qed.

(** One round of the [while] loop writes one copy of the pattern, cut at the
    horizon. *)
Lemma fixedCycle_Written schedule w :
  Written schedule w →
  ∃ schedule',
    fixedCycle this schedule (Z.of_nat (length w))
    = Ok (schedule',
          Z.of_nat (length (extend T w (fixedPattern (config this))))) ∧
    Written schedule' (extend T w (fixedPattern (config this))).
Proof.
  intros HW. unfold fixedCycle. cbv zeta.
  assert (Written schedule (extend T w [])) as HW0 by (by rewrite extend_nil).
  replace (Z.of_nat (length w)) with (Z.of_nat (length (extend T w [])))
    by (by rewrite extend_nil).
  destruct (fillDays_segment St_S 1 _ _ _ HW0) as (a1 & -> & HW1). cbn [bind].
  destruct (fillDays_segment St_I (Z.to_nat (inductionDays (config this))) _ _ _ HW1)
    as (a2 & -> & HW2). cbn [bind].
  destruct (fillDays_segment St_P
              (Z.to_nat (Z.max 1 (workDays (regime (config this))
                                  - inductionDays (config this) - 1))) _ _ _ HW2)
    as (a3 & -> & HW3). cbn [bind].
  destruct (fillDays_segment St_B 1 _ _ _ HW3) as (a4 & -> & HW4). cbn [bind].
  destruct (fillDays_segment St_D
              (Z.to_nat (Z.max 0 (restDays (regime (config this)) - 1))) _ _ _ HW4)
    as (a5 & -> & HW5).
  exists a5. unfold fixedPattern.
  rewrite <- !app_assoc in HW5 |- *. simpl in HW5 |- *. done.
Qed.

Lemma repeated_S {A} k (pattern : list A) :
  repeated (S k) pattern = pattern ++ repeated k pattern.
Proof. done. Qed.

(** The [while] loop: no budget of [fuel ≥ totalDays - day] rounds runs out,
    and the array ends as the repeated pattern cut at the horizon. *)
Lemma fixedLoop_fuel fuel schedule w :
  Written schedule w → (T ≤ fuel + length w)%nat →
  ∃ schedule',
    fixedLoop this fuel schedule (Z.of_nat (length w)) = Ok schedule' ∧
    Written schedule' (extend T w (repeated fuel (fixedPattern (config this)))) ∧
    length (extend T w (repeated fuel (fixedPattern (config this)))) = T.
Proof.
  revert schedule w. induction fuel as [|fuel IH]; intros schedule w HW Hfuel.
  - assert (length w = T) as Hfull by (destruct HW as (_ & _ & ?); simpl in *; lia).
    simpl. destruct (Z.ltb_spec (Z.of_nat (length w)) (totalDays this)); [lia|].
    rewrite extend_full by lia. eauto.
  - pose proof HW as (_ & _ & Hle). simpl.
    destruct (Z.ltb_spec (Z.of_nat (length w)) (totalDays this)) as [Hlt|Hge].
    + destruct (fixedCycle_Written _ _ HW) as (schedule1 & -> & HW1). simpl bind.
      rewrite repeated_S, <- extend_extend. apply IH; [done|].
      rewrite extend_length by done. unfold fixedPattern. simpl. lia.
    + rewrite extend_full by lia. exists schedule. split; [done|]. split; [done|lia].
Qed.

Lemma generateFixedSchedule_bounds startDay schedule :
  generateFixedSchedule this startDay = Ok schedule →
  0 ≤ totalDays this < 2 ^ 32.
Proof.
  unfold generateFixedSchedule.
  destruct (createEmptySchedule this) as [e|] eqn:E; [|done].
  intros _. by eapply createEmptySchedule_bounds.
Qed.

(** [generateFixedSchedule(0)] returns, for every horizon that an array can
    have. *)
Lemma generateFixedSchedule_Ok :
  0 ≤ totalDays this < 2 ^ 32 →
  ∃ s1, generateFixedSchedule this 0 = Ok s1 ∧
        length s1 = T ∧
        states s1 = take T (repeated T (fixedPattern (config this))).
Proof.
  intros HT. unfold generateFixedSchedule.
  destruct (createEmptySchedule_Written HT) as (schedule & -> & HW). simpl.
  destruct (fixedLoop_fuel T schedule [] HW) as (s1 & E & HW1 & Hlen);
    [simpl; lia|].
  simpl in E. exists s1. split; [done|]. split; [by destruct HW1|].
  rewrite (Written_full _ _ HW1 Hlen). unfold extend. simpl.
  by rewrite Nat.sub_0_r.
Qed.

End Written.

(** ** Chains *)

Section Chain.

Context {A : Type} (R : A → A → Prop).

Lemma chain_cons a l :
  chain R l → (∀ b, head l = Some b → R a b) → chain R (a :: l).
Proof.
  intros Hl Hh. simpl. split; [|done]. destruct l; [done|]. by apply Hh.
Qed.

Lemma chain_app l1 l2 :
  chain R l1 → chain R l2 →
  (∀ a b, last l1 = Some a → head l2 = Some b → R a b) →
  chain R (l1 ++ l2).
Proof.
  induction l1 as [|a l1 IH]; intros H1 H2 Hj; [done|].
  destruct H1 as [Ha H1]. simpl app. apply chain_cons.
  - apply IH; [done..|]. intros x y Hx. apply Hj.
    destruct l1; [done|]. by rewrite last_cons_cons.
  - intros b Hb. destruct l1 as [|c l1]; simpl in *.
    + by apply Hj.
    + by inversion Hb; subst.
Qed.

Lemma chain_snoc l x :
  chain R l → (∀ a, last l = Some a → R a x) → chain R (l ++ [x]).
Proof.
  intros Hl Hx. apply chain_app; [done..|].
  intros a b Ha [= <-]. by apply Hx.
Qed.

Lemma chain_replicate n x : R x x → chain R (replicate n x).
Proof.
  intros Hx. induction n as [|n IH]; [done|].
  simpl replicate. apply chain_cons; [done|].
  intros b Hb. destruct n; simpl in Hb; [done|]. by inversion Hb; subst.
Qed.

Lemma head_replicate_app n x (l : list A) b :
  head (replicate n x ++ l) = Some b → b = x ∨ head l = Some b.
Proof. destruct n; simpl; [by right|]. intros [= <-]. by left. Qed.

Lemma chain_replicate_app n x l :
  R x x → chain R l → (∀ b, head l = Some b → R x b) →
  chain R (replicate n x ++ l).
Proof.
  intros Hx Hl Hh. apply chain_app; [by apply chain_replicate|done|].
  intros a b Ha Hb.
  assert (a = x) as ->; [|by apply Hh].
  apply last_Some_elem_of, elem_of_replicate in Ha. by destruct Ha.
Qed.

Lemma chain_take n l : chain R l → chain R (take n l).
Proof.
  revert n. induction l as [|a l IH]; intros [|n] Hl; try done.
  destruct Hl as [Ha Hl]. simpl take. apply chain_cons; [by apply IH|].
  intros b Hb. destruct l as [|c l]; [by destruct n|].
  destruct n; [done|]. simpl in Hb. by inversion Hb; subst.
Qed.

Lemma chain_lookup l i a b :
  chain R l → l !! i = Some a → l !! S i = Some b → R a b.
Proof.
  revert i. induction l as [|x l IH]; intros i Hl Ha Hb; [done|].
  destruct Hl as [Hx Hl]. destruct i as [|i].
  - destruct l as [|y l]; [done|]. simpl in *. by simplify_eq.
  - simpl in *. by eapply IH.
Qed.

Lemma head_repeated k (c : list A) b :
  head (repeated k c) = Some b → head c = Some b.
Proof.
  induction k as [|k IH]; [done|]. unfold repeated in *. simpl.
  destruct c; [|done]. simpl. exact IH.
Qed.

Lemma chain_repeated k c :
  chain R c → (∀ a b, last c = Some a → head c = Some b → R a b) →
  chain R (repeated k c).
Proof.
  intros Hc Hw. induction k as [|k IH]; [done|].
  change (repeated (S k) c) with (c ++ repeated k c).
  apply chain_app; [done..|].
  intros a b Ha Hb. apply Hw; [done|]. by eapply head_repeated.
Qed.

End Chain.

Lemma lookup_repeated {A} k (c : list A) i :
  (i < k * length c)%nat → repeated k c !! i = c !! (i mod length c)%nat.
Proof.
  revert i. induction k as [|k IH]; intros i Hi; [lia|].
  change (repeated (S k) c) with (c ++ repeated k c).
  destruct (decide (i < length c)%nat) as [Hlt|Hge].
  - rewrite lookup_app_l by done. by rewrite Nat.mod_small.
  - rewrite lookup_app_r by lia. rewrite IH by lia. f_equal.
    replace i with ((i - length c) + 1 * length c)%nat at 2 by lia.
    by rewrite Nat.Div0.mod_add.
Qed.

(** ** The hard-sequence rule on a sequence of states *)

Lemma stateAt_Some a d x :
  stateAt a d = Some x ↔ 0 ≤ d ∧ states a !! Z.to_nat d = Some x.
Proof.
  split.
  - intros H. assert (0 ≤ d) as Hd.
    { unfold stateAt, getAt in H. destruct (Z.ltb_spec d 0); [done|lia]. }
    split; [done|]. by rewrite <- stateAt_states, Z2Nat.id.
  - intros [Hd H]. by rewrite <- (Z2Nat.id d), stateAt_states.
Qed.

Lemma chain_noTransition P a :
  chain (λ x y, ¬ P x y) (states a) → noTransition P a.
Proof.
  intros Hc d x y Hx Hy.
  apply stateAt_Some in Hx as [Hd Hx]. apply stateAt_Some in Hy as [_ Hy].
  replace (Z.to_nat (d + 1)) with (S (Z.to_nat d)) in Hy by lia.
  exact (chain_lookup _ _ _ _ _ Hc Hx Hy).
Qed.

Lemma chain_hardSequence a : chain allowed (states a) → hardSequence a.
Proof. apply chain_noTransition. Qed.

Lemma chain_mono {A} (R R' : A → A → Prop) l :
  (∀ a b, R a b → R' a b) → chain R l → chain R' l.
Proof.
  intros HR. induction l as [|a l IH]; [done|]. intros [Ha Hl].
  split; [|by apply IH]. destruct l; [done|]. by apply HR.
Qed.

Lemma allowed_from x y : x ≠ St_S → x ≠ St_B → allowed x y.
Proof. intros ? ? [[? _]|[[? _]|[? _]]]; done. Qed.

Lemma allowed_to x y : y ≠ St_S → y ≠ St_B → allowed x y.
Proof. intros ? ? [[_ ?]|[[_ ?]|[_ ?]]]; done. Qed.

Lemma allowed_S_iff y : allowed St_S y ↔ y ≠ St_S ∧ y ≠ St_B.
Proof.
  unfold allowed, forbidden. split.
  - intros H. split; intros ->; apply H; auto.
  - intros [? ?] [[_ ?]|[[_ ?]|[? _]]]; done.
Qed.

Lemma allowed_B_iff y : allowed St_B y ↔ y ≠ St_S.
Proof.
  unfold allowed, forbidden. split.
  - intros H ->. apply H; auto.
  - intros ? [[? _]|[[? _]|[_ ?]]]; done.
Qed.

(** Inside one cycle of the fixed regime no transition is forbidden. *)
Lemma fixedPattern_chain config : chain allowed (fixedPattern config).
Proof.
  unfold fixedPattern. simpl app.
  destruct (Z.to_nat (1 `max` _)) as [|p] eqn:Ep; [lia|]. clear Ep.
  apply chain_cons.
  - apply chain_replicate_app; [by apply allowed_from| |by intros; apply allowed_from].
    apply chain_replicate_app; [by apply allowed_from| |by intros; apply allowed_from].
    apply chain_cons; [by apply chain_replicate, allowed_from|].
    intros b Hb. apply allowed_to.
    all: destruct (Z.to_nat (0 `max` _)); simpl in Hb; by simplify_eq.
  - intros b Hb. apply allowed_to.
    all: apply head_replicate_app in Hb as [->|Hb]; [done|];
      simpl in Hb; by simplify_eq.
Qed.

(** With at least two rest days the cycle ends in a REST day, so that the
    step from one cycle to the next is D-S. *)
Lemma fixedPattern_wrap config a b :
  2 ≤ restDays (regime config) →
  last (fixedPattern config) = Some a → head (fixedPattern config) = Some b →
  allowed a b.
Proof.
  intros Hr Ha _. apply allowed_from.
  all: unfold fixedPattern in Ha; rewrite !app_assoc in Ha;
    destruct (Z.to_nat (0 `max` _)) as [|r] eqn:Er; [lia|];
    rewrite replicate_S_end, app_assoc, last_snoc in Ha; by simplify_eq.
Qed.

(** The cycle has no DOWN day up to the day after the induction. *)
Lemma fixedPattern_no_early_down config (k : nat) :
  (k ≤ Z.to_nat (inductionDays config) + 1)%nat →
  fixedPattern config !! k ≠ Some St_B.
Proof.
  intros Hk. unfold fixedPattern. destruct k as [|k]; [done|]. simpl.
  destruct (Z.to_nat (1 `max` _)) as [|p] eqn:Ep; [lia|]. clear Ep.
  destruct (decide (k < Z.to_nat (inductionDays config))%nat) as [Hlt|Hge].
  - rewrite lookup_app_l by (by rewrite length_replicate).
    by rewrite lookup_replicate_2.
  - rewrite lookup_app_r by (rewrite length_replicate; lia).
    rewrite length_replicate.
    replace (k - Z.to_nat (inductionDays config))%nat with 0%nat by lia. done.
Qed.

Lemma fixedPattern_length_induction config :
  (Z.to_nat (inductionDays config) + 3 ≤ length (fixedPattern config))%nat.
Proof. unfold fixedPattern. rewrite !length_app, !length_replicate. simpl. lia. Qed.

Lemma fixedPattern_length config : (3 ≤ length (fixedPattern config))%nat.
Proof. unfold fixedPattern. rewrite !length_app, !length_replicate. simpl. lia. Qed.

Section FixedRegime.

Variable this : ScheduleGenerator.
Local Abbreviation T := (Z.to_nat (totalDays this)).

(** Day by day: day [d] of S1 is day [d mod length] of the pattern. *)
Lemma generateFixedSchedule_lookup s1 d :
  generateFixedSchedule this 0 = Ok s1 → 0 ≤ d < totalDays this →
  stateAt s1 d =
    fixedPattern (config this)
      !! (Z.to_nat d mod length (fixedPattern (config this)))%nat.
Proof.
  intros E Hd. pose proof (generateFixedSchedule_bounds this _ _ E) as HT.
  destruct (generateFixedSchedule_Ok this HT) as (s1' & E' & _ & Hst).
  rewrite E in E'. injection E' as <-.
  rewrite <- (Z2Nat.id d), stateAt_states, Hst, Nat2Z.id by lia.
  rewrite lookup_take_lt by lia. apply lookup_repeated.
  pose proof (fixedPattern_length (config this)). nia.
Qed.

Lemma generateFixedSchedule_hardSequence s1 :
  generateFixedSchedule this 0 = Ok s1 →
  2 ≤ restDays (regime (config this)) →
  hardSequence s1.
Proof.
  intros E Hr.
  pose proof (generateFixedSchedule_bounds this _ _ E) as HT.
  destruct (generateFixedSchedule_Ok this HT) as (s1' & E' & _ & Hst).
  rewrite E in E'. injection E' as <-.
  apply chain_hardSequence. rewrite Hst.
  apply chain_take, chain_repeated; [apply fixedPattern_chain|].
  intros a b. by apply fixedPattern_wrap.
Qed.

(** Whatever the regime, S1 never leaves UP for UP or DOWN. *)
Lemma generateFixedSchedule_fromUp s1 :
  generateFixedSchedule this 0 = Ok s1 → noTransition forbiddenFromUp s1.
Proof.
  intros E.
  pose proof (generateFixedSchedule_bounds this _ _ E) as HT.
  destruct (generateFixedSchedule_Ok this HT) as (s1' & E' & _ & Hst).
  rewrite E in E'. injection E' as <-.
  apply chain_noTransition. rewrite Hst.
  apply chain_take, chain_repeated.
  - eapply chain_mono; [|apply fixedPattern_chain].
    intros a b Hab [-> Hb]. apply Hab. unfold forbidden. tauto.
  - intros a b Ha _ [-> _]. unfold fixedPattern in Ha.
    rewrite !app_assoc in Ha.
    destruct (Z.to_nat (0 `max` _)) as [|r].
    + change (replicate 0 St_D) with (@nil SupervisorState) in Ha.
      rewrite app_nil_r, last_snoc in Ha. done.
    + rewrite replicate_S_end, app_assoc, last_snoc in Ha. done.
Qed.

(** The first DOWN day of S1 comes after the UP day, the induction and at
    least one DRILLING day. *)
Lemma generateFixedSchedule_down_late s1 fd :
  generateFixedSchedule this 0 = Ok s1 → stateAt s1 fd = Some St_B →
  inductionDays (config this) + 2 ≤ fd.
Proof.
  intros E Hfd.
  pose proof (generateFixedSchedule_bounds this _ _ E) as HT.
  destruct (generateFixedSchedule_Ok this HT) as (s1' & E' & Hlen & _).
  rewrite E in E'. injection E' as <-.
  pose proof Hfd as [H0 Hlt%lookup_lt_Some]%stateAt_Some.
  rewrite states_length in Hlt.
  destruct (Z.le_gt_cases (inductionDays (config this) + 2) fd) as [|Hearly];
    [done|exfalso].
  rewrite (generateFixedSchedule_lookup s1 fd E) in Hfd by lia.
  pose proof (fixedPattern_length_induction (config this)).
  rewrite Nat.mod_small in Hfd by lia.
  by apply (fixedPattern_no_early_down (config this) (Z.to_nat fd)); [lia|].
Qed.

End FixedRegime.

(** ** The legal-action function and the choice of the best move *)

Section Moves.

Variable this : ScheduleGenerator.

Lemma getPossibleActions_nonempty st active :
  getPossibleActions this st active ≠ [].
Proof.
  unfold getPossibleActions.
  destruct active, (phase st); simpl; repeat case_match; done.
Qed.

Lemma getPossibleActions_hd st active :
  hd St_Empty (getPossibleActions this st active)
  ∈ getPossibleActions this st active.
Proof.
  pose proof (getPossibleActions_nonempty st active).
  destruct (getPossibleActions this st active); [done|]. simpl. left.
Qed.

(** A legal action never makes a forbidden transition from the state that
    set the current phase. *)
Lemma getPossibleActions_allowed st active prev x :
  phase st = actionToPhase prev →
  x ∈ getPossibleActions this st active →
  allowed prev x.
Proof.
  intros Hp Hx. destruct prev; try (by apply allowed_from).
  - apply allowed_S_iff. unfold getPossibleActions in Hx. rewrite Hp in Hx.
    simpl in Hx. rewrite !andb_false_r in Hx.
    apply list_elem_of_singleton in Hx. by destruct (isFirstCycle st); subst.
  - apply allowed_B_iff. unfold getPossibleActions in Hx. rewrite Hp in Hx.
    simpl in Hx. rewrite !andb_false_r in Hx.
    apply list_elem_of_singleton in Hx. by subst.
Qed.

(** '-' is the action of an entity that has not started, and of no other. *)
Lemma getPossibleActions_Empty st active x :
  x ∈ getPossibleActions this st active →
  (x = St_Empty ↔ phase st = IDLE ∧ active = false).
Proof.
  unfold getPossibleActions. intros Hx.
  destruct active, (phase st); simpl in Hx; repeat case_match;
    repeat (apply elem_of_cons in Hx as [->|Hx]); try (by apply elem_of_nil in Hx);
    split; (done || by intros [? ?]).
Qed.

(** The best move is made of one legal action of each entity. *)
Lemma chooseBestMove_legal day s1State s2Idx s3Idx s3Active :
  (chooseBestMove this day s1State s2Idx s3Idx s3Active).1
    ∈ getPossibleActions this s2Idx true ∧
  (chooseBestMove this day s1State s2Idx s3Idx s3Active).2
    ∈ getPossibleActions this s3Idx s3Active.
Proof.
  unfold chooseBestMove. cbv zeta.
  set (A2 := getPossibleActions this s2Idx true).
  set (A3 := getPossibleActions this s3Idx s3Active).
  set (P := fun acc : option Z * (SupervisorState * SupervisorState) =>
              acc.2.1 ∈ A2 ∧ acc.2.2 ∈ A3).
  set (inner := fun actionS2 =>
    fun (acc : option Z * (SupervisorState * SupervisorState)) actionS3 =>
      if scoreGt (evaluateActions this day s1State actionS2 actionS3
                    s2Idx s3Idx s3Active) acc.1
      then (Some (evaluateActions this day s1State actionS2 actionS3
                    s2Idx s3Idx s3Active), (actionS2, actionS3))
      else acc).
  assert (∀ a2 l3 acc, a2 ∈ A2 → (∀ x, x ∈ l3 → x ∈ A3) → P acc →
            P (foldl (inner a2) acc l3)) as Hinner.
  { intros a2 l3. induction l3 as [|a3 l3 IH]; intros acc Ha2 Hl3 Hacc; [done|].
    simpl. apply IH; [done|set_solver|].
    unfold inner. case_match; [|done]. split; simpl; set_solver. }
  assert (∀ l2 acc, (∀ x, x ∈ l2 → x ∈ A2) → P acc →
            P (foldl (fun acc a2 => foldl (inner a2) acc A3) acc l2)) as Houter.
  { intros l2. induction l2 as [|a2 l2 IH]; intros acc Hl2 Hacc; [done|].
    simpl. apply IH; [set_solver|]. apply Hinner; [set_solver|done|done]. }
  apply (Houter A2 (None, (hd St_Empty A2, hd St_Empty A3))); [done|].
  split; apply getPossibleActions_hd.
Qed.

Lemma syncInternalState_phase st action day :
  phase (syncInternalState st action day) = actionToPhase action.
Proof.
  unfold syncInternalState. case_bool_decide as H; simpl; [done|].
  by destruct (decide (phase st = actionToPhase action)).
Qed.

End Moves.

(** ** The day-by-day coordinator *)

Lemma Written_Empty this schedule w :
  Written this schedule w → (length w < Z.to_nat (totalDays this))%nat →
  Written this schedule (w ++ [St_Empty]).
Proof.
  intros (HT & Hst & Hle) Hlt. split; [done|]. split.
  - rewrite Hst, length_app, <- app_assoc. simpl. f_equal.
    destruct (Z.to_nat (totalDays this) - length w)%nat as [|k] eqn:Ek; [lia|]. simpl.
    do 2 f_equal. lia.
  - rewrite length_app. simpl. lia.
Qed.

Lemma initialCoordination_inv this s3StartDay :
  1 ≤ totalDays this < 2 ^ 32 →
  ∃ c, initialCoordination this = Ok c ∧ CoordInv this s3StartDay c [St_S] [St_Empty].
Proof.
  intros HT. unfold initialCoordination.
  destruct (createEmptySchedule_Written this) as (e & -> & HW); [lia|].
  cbn [bind].
  destruct (setState_Written this e [] St_S HW) as (a2 & E & HW2); [simpl; lia|].
  change (Z.of_nat (length [])) with 0 in E. cbv zeta. rewrite E. cbn [bind].
  eexists. split; [done|].
  split; simpl; try done.
  - apply (Written_Empty this e [] HW). simpl. lia.
  - intros [|j] x Hx; simpl in Hx; [|done]. naive_solver.
Qed.

Lemma coordinateDays_add this s1 s3StartDay n m d c :
  coordinateDays this s1 s3StartDay (n + m) d c =
  let* c' := coordinateDays this s1 s3StartDay n d c in
  coordinateDays this s1 s3StartDay m (d + Z.of_nat n) c'.
Proof.
  revert d c. induction n as [|n IH]; intros d c.
  - simpl. by rewrite Z.add_0_r.
  - simpl. destruct (coordinateDay this s1 s3StartDay d c) as [c1|]; [|done].
    cbn [bind]. rewrite IH. do 2 f_equal. lia.
Qed.

Section Coordinator.

Variable this : ScheduleGenerator.
Variable s1 : list DayState.
Variable s3StartDay : Z.
Hypothesis s1_length : length s1 = Z.to_nat (totalDays this).

Local Abbreviation T := (Z.to_nat (totalDays this)).
Local Abbreviation Inv := (CoordInv this s3StartDay).

(** One round of the day loop: it writes one legal action for each entity
    and keeps the invariant. *)
Lemma coordinateDay_inv c w2 w3 :
  Inv c w2 w3 → (1 ≤ length w2 < T)%nat →
  ∃ c' x2 x3,
    coordinateDay this s1 s3StartDay (Z.of_nat (length w2)) c = Ok c' ∧
    Inv c' (w2 ++ [x2]) (w3 ++ [x3]) ∧
    x2 ∈ getPossibleActions this (stateS2 c) true ∧
    x3 ∈ getPossibleActions this (stateS3 c)
           (Z.of_nat (length w2) >=? s3StartDay).
Proof.
  intros [HW2 HW3 Hlen Hp2 Hp3 Hc2 Hc3 He] Hd. unfold coordinateDay.
  rewrite getAt_of_nat.
  destruct (lookup_lt_is_Some_2 s1 (length w2)) as [d1 ->]; [lia|].
  cbn [bind]. cbv zeta.
  set (active := Z.of_nat (length w2) >=? s3StartDay).
  set (bm := chooseBestMove this _ _ _ _ active).
  destruct (chooseBestMove_legal this (Z.of_nat (length w2)) (state d1)
              (stateS2 c) (stateS3 c) active) as [Hx2 Hx3].
  fold bm in Hx2, Hx3.
  destruct (setState_Written this _ _ bm.1 HW2) as (a2 & -> & HW2'); [lia|].
  cbn [bind].
  destruct (setState_Written this _ _ bm.2 HW3) as (a3 & E3 & HW3'); [lia|].
  rewrite <- Hlen in E3. rewrite E3. cbn [bind].
  eexists _, bm.1, bm.2. split; [done|]. split; [|done].
  split; simpl.
  - done.
  - done.
  - rewrite !length_app. simpl. lia.
  - by rewrite last_snoc, syncInternalState_phase.
  - by rewrite last_snoc, syncInternalState_phase.
  - apply chain_snoc; [done|]. intros a Ha. rewrite Ha in Hp2.
    injection Hp2 as Hp2. by eapply getPossibleActions_allowed.
  - apply chain_snoc; [done|]. intros a Ha. rewrite Ha in Hp3.
    injection Hp3 as Hp3. by eapply getPossibleActions_allowed.
  - intros j x Hx. apply lookup_snoc_Some in Hx as [[_ Hx]|[Hj <-]];
      [by apply He|].
    rewrite (getPossibleActions_Empty _ _ _ _ Hx3).
    subst active. rewrite <- Hlen in Hj. subst j.
    destruct (Z.geb_spec (Z.of_nat (length w2)) s3StartDay) as [Hge|Hlt].
    + split; [by intros [_ ?]|]. lia.
    + split; [intros _; by right|]. intros _. split; [|done].
      destruct (last w3) as [y|] eqn:Ey; [|done].
      injection Hp3 as <-.
      rewrite last_lookup in Ey. apply He in Ey as [_ Ey].
      rewrite Ey; [done|]. lia.
Qed.

Lemma coordinateDays_inv rounds c w2 w3 :
  Inv c w2 w3 → (1 ≤ length w2)%nat → (length w2 + rounds ≤ T)%nat →
  ∃ c' v2 v3,
    coordinateDays this s1 s3StartDay rounds (Z.of_nat (length w2)) c = Ok c' ∧
    Inv c' (w2 ++ v2) (w3 ++ v3) ∧ length v2 = rounds.
Proof.
  revert c w2 w3. induction rounds as [|rounds IH]; intros c w2 w3 HI H1 HT.
  - exists c, [], []. by rewrite !app_nil_r.
  - simpl. destruct (coordinateDay_inv c w2 w3 HI) as (c1 & x2 & x3 & -> & HI1 & _);
      [lia|].
    cbn [bind].
    destruct (IH c1 (w2 ++ [x2]) (w3 ++ [x3]) HI1) as (c' & v2 & v3 & E & HI' & Hv).
    { rewrite length_app. simpl. lia. }
    { rewrite length_app. simpl. lia. }
    exists c', (x2 :: v2), (x3 :: v3).
    rewrite length_app, Nat2Z.inj_add in E.
    change (Z.of_nat (length [x2])) with 1 in E.
    rewrite E. rewrite <- !app_assoc in HI'. simpl in *. auto.
Qed.

End Coordinator.

(** ** A complete run *)

Section Run.

Variable this : ScheduleGenerator.
Local Abbreviation T := (Z.to_nat (totalDays this)).

Lemma generateCoordinatedSecondarySupervisors_eq s1 e :
  generateCoordinatedSecondarySupervisors this s1 e =
  let* c := coordinationBefore this s1 e (totalDays this) in
  Ok (co_s2 c, co_s3 c).
Proof.
  unfold generateCoordinatedSecondarySupervisors, coordinationBefore.
  by destruct (initialCoordination this).
Qed.

(** The day loop runs to the horizon; for each of its days [d] it passes
    through the state [coordinationBefore d] and writes on day [d] a legal
    action of each entity, which is still there at the end. *)
Lemma coordination_day s1 e d :
  length s1 = T → 1 ≤ d < totalDays this → totalDays this < 2 ^ 32 →
  ∃ cd cF x2 x3,
    coordinationBefore this s1 e d = Ok cd ∧
    coordinationBefore this s1 e (totalDays this) = Ok cF ∧
    x2 ∈ getPossibleActions this (stateS2 cd) true ∧
    x3 ∈ getPossibleActions this (stateS3 cd) (d >=? e) ∧
    stateAt (co_s2 cF) d = Some x2 ∧
    stateAt (co_s3 cF) d = Some x3.
Proof.
  intros Hs1 Hd Hmax. unfold coordinationBefore.
  destruct (initialCoordination_inv this e) as (c0 & -> & HI0); [lia|].
  cbn [bind].
  replace (Z.to_nat (totalDays this - 1))
    with (Z.to_nat (d - 1) + (1 + Z.to_nat (totalDays this - 1 - d)))%nat by lia.
  rewrite coordinateDays_add.
  destruct (coordinateDays_inv this s1 e Hs1 (Z.to_nat (d - 1)) c0 _ _ HI0)
    as (cd & u2 & u3 & E & HId & Hu); [simpl; lia..|].
  change (Z.of_nat (length [St_S])) with 1 in E. rewrite E. cbn [bind].
  rewrite coordinateDays_add.
  assert (Z.of_nat (length ([St_S] ++ u2)) = d) as Hlen
    by (rewrite length_app; simpl; lia).
  destruct (coordinateDay_inv this s1 e Hs1 cd _ _ HId)
    as (c1 & x2 & x3 & E1 & HI1 & Hx2 & Hx3); [lia|].
  rewrite Hlen in E1, Hx3.
  replace (1 + Z.of_nat (Z.to_nat (d - 1))) with d by lia.
  simpl coordinateDays at 1. rewrite E1. cbn [bind].
  destruct (coordinateDays_inv this s1 e Hs1 (Z.to_nat (totalDays this - 1 - d))
              c1 _ _ HI1) as (cF & v2 & v3 & EF & HIF & Hv).
  { rewrite !length_app. simpl. lia. }
  { rewrite !length_app in *. simpl in *. lia. }
  replace (Z.of_nat (length (([St_S] ++ u2) ++ [x2]))) with (d + 1) in EF
    by (rewrite length_app; simpl; lia).
  change (Z.of_nat 1) with 1. rewrite EF.
  exists cd, cF, x2, x3. repeat (split; [done|]).
  destruct HIF as [HW2 HW3 HlenF _ _ _ _ _].
  assert (length ((([St_S] ++ u2) ++ [x2]) ++ v2) = T) as Hfull.
  { rewrite !length_app in *. simpl in *. lia. }
  rewrite <- (Z2Nat.id d), !stateAt_states by lia.
  rewrite (Written_full _ _ _ HW2 Hfull).
  rewrite (Written_full _ _ _ HW3) by lia.
  assert (length ([St_S] ++ u2) = Z.to_nat d) as Hl2 by lia.
  assert (length ([St_Empty] ++ u3) = Z.to_nat d) as Hl3.
  { destruct HId as [_ _ HlenD _ _ _ _ _]. lia. }
  split.
  - rewrite lookup_app_l by (rewrite length_app, Hl2; simpl; lia).
    rewrite lookup_app_r by lia. by rewrite Hl2, Nat.sub_diag.
  - rewrite lookup_app_l by (rewrite length_app, Hl3; simpl; lia).
    rewrite lookup_app_r by lia. by rewrite Hl3, Nat.sub_diag.
Qed.

(** The state of the day loop at the horizon. *)
Lemma coordination_final s1 e :
  length s1 = T → 1 ≤ totalDays this < 2 ^ 32 →
  ∃ cF w2 w3,
    coordinationBefore this s1 e (totalDays this) = Ok cF ∧
    CoordInv this e cF w2 w3 ∧
    states (co_s2 cF) = w2 ∧ states (co_s3 cF) = w3 ∧
    length w2 = T ∧ length w3 = T.
Proof.
  intros Hs1 HT. unfold coordinationBefore.
  destruct (initialCoordination_inv this e) as (c0 & -> & HI0); [lia|].
  cbn [bind].
  destruct (coordinateDays_inv this s1 e Hs1 (Z.to_nat (totalDays this - 1))
              c0 _ _ HI0) as (cF & v2 & v3 & EF & HIF & Hv); [simpl; lia..|].
  change (Z.of_nat (length [St_S])) with 1 in EF. rewrite EF.
  exists cF, ([St_S] ++ v2), ([St_Empty] ++ v3). split; [done|]. split; [done|].
  pose proof HIF as [HW2 HW3 HlenF _ _ _ _ _].
  assert (length ([St_S] ++ v2) = T) as Hfull by (simpl; lia).
  rewrite (Written_full _ _ _ HW2 Hfull).
  rewrite (Written_full _ _ _ HW3) by lia.
  repeat split; [done|lia].
Qed.

(** What [generateSchedule] returns, for every horizon of one day or more
    that an array can have. *)
Lemma generateSchedule_Ok :
  1 ≤ totalDays this < 2 ^ 32 →
  ∃ a1 cF,
    generateFixedSchedule this 0 = Ok a1 ∧
    coordinationBefore this a1 (s3StartDay this a1) (totalDays this) = Ok cF ∧
    generateSchedule this =
      Ok {| s1 := a1; s2 := co_s2 cF; s3 := co_s3 cF;
            drillersPerDay :=
              calculateDrillersPerDay this a1 (co_s2 cF) (co_s3 cF);
            errors :=
              validateSchedule this a1 (co_s2 cF) (co_s3 cF)
                (calculateDrillersPerDay this a1 (co_s2 cF) (co_s3 cF));
            stats :=
              Some (calculateStats this
                      (calculateDrillersPerDay this a1 (co_s2 cF) (co_s3 cF))
                      (co_s2 cF)) |}.
Proof.
  intros HT.
  destruct (generateFixedSchedule_Ok this) as (a1 & E1 & Hlen & _); [lia|].
  destruct (coordination_final a1 (s3StartDay this a1) Hlen HT)
    as (cF & w2 & w3 & EF & _).
  exists a1, cF. split; [done|]. split; [done|].
  unfold generateSchedule. rewrite E1. cbn [bind]. cbv zeta.
  rewrite generateCoordinatedSecondarySupervisors_eq, EF. done.
Qed.

(** A run on an empty horizon stops at the write of day 0 of S2; a run on a
    negative horizon at the allocation of S1. *)
Lemma generateSchedule_Throw :
  totalDays this < 1 →
  generateSchedule this =
    Throw (if totalDays this <? 0 then RangeError else TypeError).
Proof.
  intros HT. unfold generateSchedule, generateFixedSchedule.
  destruct (Z.ltb_spec (totalDays this) 0) as [Hneg|Hpos].
  { by rewrite createEmptySchedule_Throw by lia. }
  assert (totalDays this = 0) as H0 by lia.
  unfold generateCoordinatedSecondarySupervisors, initialCoordination,
    createEmptySchedule.
  rewrite H0. change ((0 <? 0) || (0 >=? 2 ^ 32)) with false.
  simpl. rewrite ?H0. done.
Qed.

(** So does a run on a horizon that is too long for an array. *)
Lemma generateSchedule_Throw_long :
  2 ^ 32 ≤ totalDays this → generateSchedule this = Throw RangeError.
Proof.
  intros HT. unfold generateSchedule, generateFixedSchedule.
  by rewrite createEmptySchedule_Throw by lia.
Qed.

Lemma generateSchedule_horizon sch :
  generateSchedule this = Ok sch → 1 ≤ totalDays this < 2 ^ 32.
Proof.
  intros E. destruct (Z.le_gt_cases 1 (totalDays this)) as [|Hlt].
  - destruct (Z.le_gt_cases (2 ^ 32) (totalDays this)) as [Hlong|]; [|lia].
    by rewrite generateSchedule_Throw_long in E.
  - rewrite generateSchedule_Throw in E by lia. done.
Qed.

End Run.

(** ** findIndex *)

Lemma findIndex_from_spec {A} (p : A → bool) a i0 :
  (findIndex_from p a i0 = -1 ∧ 0 ≤ i0 → ∀ x, x ∈ a → p x = false) ∧
  (0 ≤ i0 → findIndex_from p a i0 = -1 ∨
     ∃ (k : nat) x, findIndex_from p a i0 = i0 + Z.of_nat k ∧
       a !! k = Some x ∧ p x = true ∧
       ∀ (j : nat) y, (j < k)%nat → a !! j = Some y → p y = false).
Proof.
  revert i0. induction a as [|x a IH]; intros i0.
  - split; [by intros _ y ?%elem_of_nil|]. intros _. by left.
  - simpl. destruct (p x) eqn:Hpx.
    + split; [lia|]. intros _. right. exists 0%nat, x.
      repeat split; [lia|done|]. intros j y Hj. lia.
    + destruct (IH (i0 + 1)) as [IH1 IH2]. split.
      * intros [E H0] y [->|Hy]%elem_of_cons; [done|]. apply IH1; [|done].
        split; [done|lia].
      * intros H0. destruct IH2 as [E|(k & y & E & Hk & Hpy & Hmin)]; [lia|by left|].
        right. exists (S k), y. repeat split; [lia|done|done|].
        intros [|j] z Hj Hz; simpl in Hz; [by simplify_eq|].
        eapply Hmin; [|done]. lia.
Qed.

(** [findIndex] of the DOWN days is the first DOWN day of a sequence that
    has one. *)
Lemma findIndex_firstDownDayOf a fd :
  firstDownDayOf a fd →
  findIndex (fun d => bool_decide (state d = St_B)) a = fd.
Proof.
  intros [Hfd Hmin]. unfold findIndex.
  apply stateAt_Some in Hfd as [H0 Hfd]. unfold states in Hfd.
  rewrite list_lookup_fmap in Hfd.
  destruct (a !! Z.to_nat fd) as [dfd|] eqn:Efd; [|done].
  simpl in Hfd. injection Hfd as Hfd.
  destruct (findIndex_from_spec (fun d => bool_decide (state d = St_B)) a 0)
    as [H1 H2].
  destruct H2 as [E|(k & x & E & Hk & Hpx & Hk_min)]; [done| |].
  - exfalso. assert (bool_decide (state dfd = St_B) = false) as Hf.
    { apply H1; [done|]. by eapply list_elem_of_lookup_2. }
    by rewrite bool_decide_eq_false in Hf.
  - rewrite E. apply bool_decide_eq_true in Hpx.
    destruct (Z.lt_trichotomy (Z.of_nat k) fd) as [Hlt|[Heq|Hgt]]; [|lia|].
    + exfalso. apply (Hmin (Z.of_nat k)); [lia|].
      rewrite stateAt_states. unfold states.
      by rewrite list_lookup_fmap, Hk, <- Hpx.
    + exfalso. assert (bool_decide (state dfd = St_B) = false) as Hf.
      { apply (Hk_min (Z.to_nat fd)); [lia|done]. }
      by rewrite bool_decide_eq_false in Hf.
Qed.

(** ** Metrics and validation *)

Section Metrics.

Variable this : ScheduleGenerator.

Lemma calculateDrillersPerDay_length a1 a2 a3 :
  length (calculateDrillersPerDay this a1 a2 a3) = Z.to_nat (totalDays this).
Proof. unfold calculateDrillersPerDay. by rewrite length_fmap, length_seqZ. Qed.

(** Count consistency: the count of a day is the number of entities whose
    state that day is 'P'. *)
Lemma calculateDrillersPerDay_lookup a1 a2 a3 d c :
  getAt (calculateDrillersPerDay this a1 a2 a3) d = Some c →
  0 ≤ d < totalDays this ∧
  c = (if isDrilling a1 d then 1 else 0) + (if isDrilling a2 d then 1 else 0)
      + (if isDrilling a3 d then 1 else 0).
Proof.
  intros [Hd H]%getAt_Some. unfold calculateDrillersPerDay in H.
  rewrite list_lookup_fmap in H.
  destruct (seqZ 0 (totalDays this) !! Z.to_nat d) as [d'|] eqn:E; [|done].
  apply lookup_seqZ in E as [-> Hlt]. simpl in H. injection H as <-.
  rewrite Z.add_0_l, Z2Nat.id by done. split; [lia|done].
Qed.

Lemma elem_of_push {A} (b : bool) (l : list A) x y :
  y ∈ l → y ∈ (if b then l ++ [x] else l).
Proof. intros Hy. destruct b; [|done]. apply elem_of_app. by left. Qed.

Lemma validateSequence_incl schedule day supervisor errors e :
  e ∈ errors → e ∈ validateSequence this schedule day supervisor errors.
Proof.
  intros He. unfold validateSequence. case_match; [done|]. cbv zeta.
  by do 4 apply elem_of_push.
Qed.

Lemma validateDay_incl a1 a2 a3 counts s3ActiveDay errors day e :
  e ∈ errors → e ∈ validateDay this a1 a2 a3 counts s3ActiveDay errors day.
Proof.
  intros He. unfold validateDay. cbv zeta.
  do 3 apply validateSequence_incl. by do 3 apply elem_of_push.
Qed.

(** A day with three producers gets its THREE_DRILLING error. *)
Lemma validateDay_three a1 a2 a3 counts s3ActiveDay errors day :
  getAt counts day = Some 3 →
  ∃ e, e ∈ validateDay this a1 a2 a3 counts s3ActiveDay errors day ∧
       e_type e = THREE_DRILLING ∧ e_day e = day.
Proof.
  intros Hc. unfold validateDay. cbv zeta. rewrite Hc.
  rewrite (bool_decide_eq_true_2 (Some 3 = Some 3)) by done.
  eexists. split.
  - do 3 apply validateSequence_incl. do 2 apply elem_of_push.
    apply elem_of_app. right. apply list_elem_of_singleton. reflexivity.
  - done.
Qed.

Lemma validateDays_incl a1 a2 a3 counts s3ActiveDay days errors e :
  e ∈ errors →
  e ∈ foldl (validateDay this a1 a2 a3 counts s3ActiveDay) errors days.
Proof.
  revert errors. induction days as [|d days IH]; intros errors He; [done|].
  simpl. by apply IH, validateDay_incl.
Qed.

Lemma validateDays_three a1 a2 a3 counts s3ActiveDay days errors day :
  day ∈ days → getAt counts day = Some 3 →
  ∃ e, e ∈ foldl (validateDay this a1 a2 a3 counts s3ActiveDay) errors days ∧
       e_type e = THREE_DRILLING ∧ e_day e = day.
Proof.
  revert errors. induction days as [|d days IH]; intros errors Hd Hc.
  - by apply elem_of_nil in Hd.
  - simpl. apply elem_of_cons in Hd as [<-|Hd]; [|by apply IH].
    destruct (validateDay_three a1 a2 a3 counts s3ActiveDay errors day Hc)
      as (e & He & Ht & Hday).
    exists e. split; [|done]. by apply validateDays_incl.
Qed.

End Metrics.

(** ** The rest-period statistic *)

Lemma restScanDay_rest r d :
  state d = St_D →
  restScanDay r d =
    {| totalRestDays := totalRestDays r; restPeriods := restPeriods r;
       inRest := true;
       currentRestDays := (if inRest r then currentRestDays r else 0) + 1 |}.
Proof. intros H. unfold restScanDay. by rewrite decide_True. Qed.

Lemma restScanDay_other r d :
  state d ≠ St_D →
  restScanDay r d =
    if inRest r
    then {| totalRestDays := totalRestDays r + currentRestDays r;
            restPeriods := restPeriods r + 1;
            inRest := false; currentRestDays := currentRestDays r |}
    else r.
Proof. intros H. unfold restScanDay. by rewrite decide_False. Qed.

Lemma restRunsFrom_other n x l :
  x ≠ St_D →
  restRunsFrom n (x :: l) =
    if n =? 0 then restRunsFrom 0 l else n :: restRunsFrom 0 l.
Proof. by destruct x. Qed.

(** The rest-period loop of [calculateStats] and the runs of REST days: the
    loop has counted the runs that a later day closed; a run that reaches the
    end of the sequence is still in [currentRestDays]. *)
Lemma restScan_from l r :
  (inRest r = true → 1 ≤ currentRestDays r) →
  ∃ completed,
    restRunsFrom (if inRest r then currentRestDays r else 0) (states l)
    = completed ++ (if inRest (foldl restScanDay r l)
                    then [currentRestDays (foldl restScanDay r l)] else []) ∧
    sumZ completed = totalRestDays (foldl restScanDay r l) - totalRestDays r ∧
    Z.of_nat (length completed)
    = restPeriods (foldl restScanDay r l) - restPeriods r ∧
    (inRest (foldl restScanDay r l) = true
     → 1 ≤ currentRestDays (foldl restScanDay r l)).
Proof.
  revert r. induction l as [|d l IH]; intros r Hr.
  - exists []. simpl. destruct (inRest r) eqn:Ein.
    + specialize (Hr eq_refl).
      destruct (Z.eqb_spec (currentRestDays r) 0); [lia|].
      repeat split; lia || done.
    + repeat split; lia || done.
  - change (states (d :: l)) with (state d :: states l).
    change (foldl restScanDay r (d :: l))
      with (foldl restScanDay (restScanDay r d) l).
    destruct (decide (state d = St_D)) as [HD|HD].
    + rewrite (restScanDay_rest r d HD), HD.
      change (restRunsFrom ?n (St_D :: ?t)) with (restRunsFrom (n + 1) t).
      match goal with |- context [foldl restScanDay ?x l] => set (r1 := x) end.
      destruct (IH r1) as (completed & E & Hsum & Hlen & Hinv).
      { simpl. intros _. destruct (inRest r); [specialize (Hr eq_refl)|]; lia. }
      exists completed. split; [exact E|]. done.
    + rewrite (restScanDay_other r d HD), (restRunsFrom_other _ _ _ HD).
      destruct (inRest r) eqn:Ein.
      * specialize (Hr eq_refl).
        destruct (Z.eqb_spec (currentRestDays r) 0); [lia|].
        match goal with |- context [foldl restScanDay ?x l] => set (r1 := x) end.
        destruct (IH r1) as (completed & E & Hsum & Hlen & Hinv); [done|].
        exists (currentRestDays r :: completed). simpl in E. rewrite E.
        simpl in *. repeat split; [lia|lia|done].
      * change (0 =? 0) with true. cbv iota.
        destruct (IH r) as (completed & E & Hsum & Hlen & Hinv);
          [by rewrite Ein|].
        rewrite Ein in E. exists completed. done.
Qed.

Lemma restScan_runs s2 :
  ∃ completed,
    restRuns (states s2)
    = completed ++ (if inRest (restScan s2)
                    then [currentRestDays (restScan s2)] else []) ∧
    sumZ completed = totalRestDays (restScan s2) ∧
    Z.of_nat (length completed) = restPeriods (restScan s2).
Proof.
  destruct (restScan_from s2
              {| totalRestDays := 0; restPeriods := 0; inRest := false;
                 currentRestDays := 0 |}) as (completed & E & Hsum & Hlen & _);
    [done|].
  exists completed. simpl in *. fold (restScan s2) in *.
  split; [done|]. split; lia.
Qed.

Lemma restScan_snoc l d : restScan (l ++ [d]) = restScanDay (restScan l) d.
Proof. unfold restScan. by rewrite foldl_app. Qed.

(** The loop ends inside a rest period exactly when the last day is REST. *)
Lemma restScan_inRest s2 :
  inRest (restScan s2) = true ↔ last (states s2) = Some St_D.
Proof.
  induction s2 as [|d l _] using rev_ind; [done|].
  rewrite restScan_snoc. unfold states. rewrite fmap_app.
  change (state <$> [d]) with [state d]. rewrite last_snoc.
  destruct (decide (state d = St_D)) as [HD|HD].
  - rewrite (restScanDay_rest _ _ HD), HD. done.
  - rewrite (restScanDay_other _ _ HD).
    split; [|by intros [= ?]].
    destruct (inRest (restScan l)) eqn:E; simpl; [done|by rewrite E].
Qed.

Lemma mean_completed completed total periods :
  sumZ completed = total → Z.of_nat (length completed) = periods →
  mean completed =
    if periods >? 0 then (inject_Z total / inject_Z periods)%Q else 0%Q.
Proof.
  intros <- <-. destruct completed as [|n completed]; [done|].
  unfold mean. destruct (Z.gtb_spec (Z.of_nat (length (n :: completed))) 0);
    [done|]. simpl in *. lia.
Qed.

(** What [averageRestDays] is: the mean length of the runs of REST days of S2
    that a later day closes.  It is the mean of all the runs of REST days
    when the sequence does not end on a REST day. *)
Lemma averageRestDays_completed this counts s2 :
  ∃ completed,
    restRuns (states s2)
    = completed ++ (if inRest (restScan s2)
                    then [currentRestDays (restScan s2)] else []) ∧
    averageRestDays (calculateStats this counts s2) = mean completed.
Proof.
  destruct (restScan_runs s2) as (completed & E & Hsum & Hlen).
  exists completed. split; [done|]. simpl.
  by rewrite (mean_completed completed _ _ Hsum Hlen).
Qed.

Lemma averageRestDays_mean this counts s2 :
  last (states s2) ≠ Some St_D →
  averageRestDays (calculateStats this counts s2) = mean (restRuns (states s2)).
Proof.
  intros Hlast.
  destruct (averageRestDays_completed this counts s2) as (completed & E & ->).
  destruct (inRest (restScan s2)) eqn:Ein.
  - by apply restScan_inRest in Ein.
  - by rewrite E, app_nil_r.
Qed.

(** * The claims *)

(** ** C2: legal actions of the phase INDUCTION *)

(** C2, as stated, fails: on day 2 of a 5-day induction the only legal action
    is INDUCTION (DRILLING is not offered), and on day 5 INDUCTION is still
    offered although [daysInPhase < inductionDays] no longer holds. *)
Lemma C2_counterexample :
  (St_P ∉ getPossibleActions (constructor regime_14x7) (inductionState 2) true) ∧
  St_I ∈ getPossibleActions (constructor regime_14x7) (inductionState 5) true ∧
  ¬ (daysInPhase (inductionState 5)
     < inductionDays (config (constructor regime_14x7))).
Proof.
  split; [|split].
  - vm_compute. by intros ?%list_elem_of_singleton.
  - vm_compute. left.
  - vm_compute. done.
Qed.

(** C2, amended: for an entity in phase INDUCTION, INDUCTION is always among
    the legal next actions, and DRILLING is among them exactly when
    [daysInPhase ≥ inductionDays]; before that INDUCTION is the only legal
    action. *)
Theorem C2_induction_actions (this : ScheduleGenerator) (st : S2State)
    (isActive : bool) :
  phase st = INDUCTION →
  St_I ∈ getPossibleActions this st isActive ∧
  (St_P ∈ getPossibleActions this st isActive
   ↔ inductionDays (config this) ≤ daysInPhase st) ∧
  getPossibleActions this st isActive =
    if daysInPhase st <? inductionDays (config this)
    then [St_I] else [St_I; St_P].
Proof.
  intros Hp. unfold getPossibleActions. rewrite Hp. simpl.
  rewrite !andb_false_r.
  destruct (Z.ltb_spec (daysInPhase st) (inductionDays (config this))).
  - split; [left|]. split; [|done]. split; [|lia].
    by intros ?%list_elem_of_singleton.
  - split; [left|]. split; [|done]. split; [lia|].
    intros _. right. left.
Qed.

Lemma C2_induction_actions_witness :
  St_I ∈ getPossibleActions (constructor regime_14x7) (inductionState 2) true ∧
  (St_P ∈ getPossibleActions (constructor regime_14x7) (inductionState 2) true
   ↔ inductionDays (config (constructor regime_14x7))
     ≤ daysInPhase (inductionState 2)) ∧
  getPossibleActions (constructor regime_14x7) (inductionState 2) true =
    if daysInPhase (inductionState 2)
       <? inductionDays (config (constructor regime_14x7))
    then [St_I] else [St_I; St_P].
Proof.
  apply (C2_induction_actions (constructor regime_14x7) (inductionState 2) true).
  reflexivity.
Defined.

(** ** C6: the penalty for a single producer *)

Lemma if_add (c : bool) (x k : Z) :
  (if c then x + k else x) = x + (if c then k else 0).
Proof. destruct c; lia. Qed.

Lemma if_sub (c : bool) (x k : Z) :
  (if c then x - k else x) = x + (if c then - k else 0).
Proof. destruct c; lia. Qed.

Lemma if_branches (c1 c2 c3 : bool) (x k1 k2 k3 : Z) :
  (if c1 then if c2 then x + k1 else if c3 then x - k2 else x + k3 else x)
  = x + (if c1 then if c2 then k1 else if c3 then - k2 else k3 else 0).
Proof. destruct c1, c2, c3; lia. Qed.

(** [s3Active] enters the score through the single-producer penalty only, so
    that the penalty is the difference between the score with entity 3
    inactive and the score with entity 3 active. *)
Lemma evaluateActions_s3Active this day a1 a2 a3 s2Idx s3Idx :
  evaluateActions this day a1 a2 a3 s2Idx s3Idx true =
  evaluateActions this day a1 a2 a3 s2Idx s3Idx false
  - (if countP a1 a2 a3 =? 1
     then 500000 * getPriorityValue (twoDrillers (priorities this)) / 100
     else 0).
Proof.
  unfold evaluateActions. cbv zeta.
  rewrite andb_true_r, andb_false_r.
  rewrite !if_branches, !if_add, !if_sub.
  destruct (countP a1 a2 a3 =? 1); lia.
Qed.

(** C6, as stated, fails: with the keep-two-producing weight at low, one
    producer (S1) and entity 3 active, the penalty is 5000, and the whole
    score stays below 5×10^5 in magnitude. *)
Lemma C6_counterexample :
  countP St_P St_D St_D = 1 ∧
  evaluateActions (generatorWith low) 20 St_P St_D St_D
    (restingState 1) (restingState 1) false
  - evaluateActions (generatorWith low) 20 St_P St_D St_D
      (restingState 1) (restingState 1) true = 5000 ∧
  evaluateActions (generatorWith low) 20 St_P St_D St_D
    (restingState 1) (restingState 1) true = -5000 ∧
  ¬ (500000 ≤ Z.abs (evaluateActions (generatorWith low) 20 St_P St_D St_D
                       (restingState 1) (restingState 1) true)).
Proof. repeat split; vm_compute; (reflexivity || by intros H; apply H). Qed.

(** C6, amended: when the candidate pair leaves exactly one producer on a day
    on which entity 3 is active, the score includes the penalty
    [500000 * pVal(twoDrillers) / 100], that is 5×10^5 for high, 5×10^4 for
    medium and 5×10^3 for low; it reaches 5×10^5 exactly when the weight is
    high. *)
Theorem C6_single_producer_penalty (this : ScheduleGenerator) (day : Z)
    (a1 a2 a3 : SupervisorState) (s2Idx s3Idx : S2State) :
  countP a1 a2 a3 = 1 →
  let penalty :=
    evaluateActions this day a1 a2 a3 s2Idx s3Idx false
    - evaluateActions this day a1 a2 a3 s2Idx s3Idx true in
  penalty = 500000 * getPriorityValue (twoDrillers (priorities this)) / 100 ∧
  penalty = match twoDrillers (priorities this) with
            | high => 500000
            | medium => 50000
            | low => 5000
            end ∧
  (500000 ≤ penalty ↔ twoDrillers (priorities this) = high).
Proof.
  intros Hc penalty. subst penalty.
  rewrite evaluateActions_s3Active, Hc. simpl Z.eqb. cbv iota.
  generalize (evaluateActions this day a1 a2 a3 s2Idx s3Idx false). intros e.
  destruct (twoDrillers (priorities this)); simpl getPriorityValue.
  all: change (500000 * 100 / 100) with 500000;
       change (500000 * 10 / 100) with 50000;
       change (500000 * 1 / 100) with 5000.
  all: split; [lia|]; split; [lia|]; split; (done || lia).
Qed.

Lemma C6_single_producer_penalty_witness :
  let penalty :=
    evaluateActions (generatorWith medium) 20 St_P St_D St_D
      (restingState 1) (restingState 1) false
    - evaluateActions (generatorWith medium) 20 St_P St_D St_D
        (restingState 1) (restingState 1) true in
  penalty = 500000 * getPriorityValue
                       (twoDrillers (priorities (generatorWith medium))) / 100 ∧
  penalty = match twoDrillers (priorities (generatorWith medium)) with
            | high => 500000
            | medium => 50000
            | low => 5000
            end ∧
  (500000 ≤ penalty ↔ twoDrillers (priorities (generatorWith medium)) = high).
Proof.
  apply (C6_single_producer_penalty (generatorWith medium) 20 St_P St_D St_D
           (restingState 1) (restingState 1)).
  reflexivity.
Defined.

(** ** C3: the sequence of entity 1 *)

(** C3, as stated, fails: the inputs of regime 14x7 with 5 induction days
    and 10^9 drilling days are non-negative, the horizon is 5250000000, and
    [new Array] of that length throws: there is an error condition. *)
Lemma C3_counterexample :
  0 ≤ workDays (regime regime_14x7_long) ∧
  0 ≤ restDays (regime regime_14x7_long) ∧
  0 ≤ inductionDays regime_14x7_long ∧
  0 ≤ totalDrillingDays regime_14x7_long ∧
  totalDays (constructor regime_14x7_long) = 5250000000 ∧
  2 ^ 32 ≤ totalDays (constructor regime_14x7_long) ∧
  createEmptySchedule (constructor regime_14x7_long) = Throw RangeError ∧
  generateFixedSchedule (constructor regime_14x7_long) 0 = Throw RangeError.
Proof. repeat split; by vm_compute. Qed.

(** C3, amended: for every horizon [0 ≤ totalDays < 2^32] (the lengths an
    array can have) and every regime, [generateFixedSchedule(0)] returns, its
    result has length [totalDays] and is the pattern UP, INDUCTION..,
    DRILLING.., DOWN, REST.. repeated and cut at the horizon: day [d] holds
    the state of position [d mod length] of the pattern; in particular day 0,
    when there is one, is UP. *)
Theorem C3_fixed_regime (this : ScheduleGenerator) :
  0 ≤ totalDays this < 2 ^ 32 →
  ∃ a1,
    generateFixedSchedule this 0 = Ok a1 ∧
    Z.of_nat (length a1) = totalDays this ∧
    states a1 =
      take (Z.to_nat (totalDays this))
           (repeated (Z.to_nat (totalDays this)) (fixedPattern (config this))) ∧
    (∀ d, 0 ≤ d < totalDays this →
       stateAt a1 d =
         fixedPattern (config this)
           !! (Z.to_nat d mod length (fixedPattern (config this)))%nat) ∧
    (0 < totalDays this → stateAt a1 0 = Some St_S).
Proof.
  intros HT.
  destruct (generateFixedSchedule_Ok this HT) as (a1 & E & Hlen & Hst).
  exists a1. split; [done|]. split; [lia|]. split; [done|]. split.
  - intros d Hd. by apply generateFixedSchedule_lookup.
  - intros Hpos. rewrite (generateFixedSchedule_lookup this a1 0 E) by lia.
    change (Z.to_nat 0) with 0%nat. by rewrite Nat.Div0.mod_0_l.
Qed.

Lemma C3_fixed_regime_witness :
  ∃ a1,
    generateFixedSchedule (constructor regime_2x1) 0 = Ok a1 ∧
    Z.of_nat (length a1) = totalDays (constructor regime_2x1) ∧
    states a1 =
      take (Z.to_nat (totalDays (constructor regime_2x1)))
           (repeated (Z.to_nat (totalDays (constructor regime_2x1)))
                     (fixedPattern (config (constructor regime_2x1)))) ∧
    (∀ d, 0 ≤ d < totalDays (constructor regime_2x1) →
       stateAt a1 d =
         fixedPattern (config (constructor regime_2x1))
           !! (Z.to_nat d
               mod length (fixedPattern (config (constructor regime_2x1))))%nat) ∧
    (0 < totalDays (constructor regime_2x1) → stateAt a1 0 = Some St_S).
Proof.
  apply (C3_fixed_regime (constructor regime_2x1)).
  split; vm_compute; (reflexivity || discriminate).
Defined.

(** ** C4: the horizon *)

(** C4: the constructor sets
    [totalDays = max(estimatedCycles * (workDays + restDays) * 2,
    totalDrillingDays * 2)] with [estimatedCycles] the ceiling of
    [totalDrillingDays / max(1, workDays - inductionDays - 1)]; for
    [totalDrillingDays ≥ 1] and a horizon below 2^32 (the lengths an array
    can have, and numbers on which the arithmetic of the constructor is
    exact) the run returns a schedule whose three sequences have exactly this
    length, and [totalDays > totalDrillingDays]. *)
Theorem C4_horizon (config : ScheduleConfig) :
  1 ≤ totalDrillingDays config →
  totalDays (constructor config) < 2 ^ 32 →
  ∃ estimatedCycles sch,
    isCeilOf estimatedCycles (totalDrillingDays config)
      (Z.max 1 (workDays (regime config) - inductionDays config - 1)) ∧
    totalDays (constructor config) =
      Z.max (estimatedCycles
             * (workDays (regime config) + restDays (regime config)) * 2)
            (totalDrillingDays config * 2) ∧
    run config = Ok sch ∧
    Z.of_nat (length (s1 sch)) = totalDays (constructor config) ∧
    Z.of_nat (length (s2 sch)) = totalDays (constructor config) ∧
    Z.of_nat (length (s3 sch)) = totalDays (constructor config) ∧
    totalDrillingDays config < totalDays (constructor config).
Proof.
  intros Htdd Hmax.
  assert (totalDrillingDays config < totalDays (constructor config)) as HT
    by (simpl; lia).
  destruct (generateSchedule_Ok (constructor config)) as (a1 & cF & E1 & EF & E);
    [lia|].
  destruct (generateFixedSchedule_Ok (constructor config)) as (a1' & E1' & Hlen & _);
    [lia|].
  rewrite E1 in E1'. injection E1' as <-.
  destruct (coordination_final (constructor config) a1
              (s3StartDay (constructor config) a1) Hlen)
    as (cF' & w2 & w3 & EF' & _ & H2 & H3 & Hl2 & Hl3); [lia|].
  rewrite EF in EF'. injection EF' as <-.
  eexists _, _. split; [apply ceil_div_isCeilOf; lia|]. split; [done|].
  split; [exact E|]. simpl s1. simpl s2. simpl s3.
  rewrite <- (states_length (co_s2 cF)), <- (states_length (co_s3 cF)), H2, H3.
  repeat split; lia.
Qed.

Lemma C4_horizon_witness :
  ∃ estimatedCycles sch,
    isCeilOf estimatedCycles (totalDrillingDays regime_14x7)
      (Z.max 1 (workDays (regime regime_14x7) - inductionDays regime_14x7 - 1)) ∧
    totalDays (constructor regime_14x7) =
      Z.max (estimatedCycles
             * (workDays (regime regime_14x7) + restDays (regime regime_14x7)) * 2)
            (totalDrillingDays regime_14x7 * 2) ∧
    run regime_14x7 = Ok sch ∧
    Z.of_nat (length (s1 sch)) = totalDays (constructor regime_14x7) ∧
    Z.of_nat (length (s2 sch)) = totalDays (constructor regime_14x7) ∧
    Z.of_nat (length (s3 sch)) = totalDays (constructor regime_14x7) ∧
    totalDrillingDays regime_14x7 < totalDays (constructor regime_14x7).
Proof.
  apply (C4_horizon regime_14x7); vm_compute; (reflexivity || discriminate).
Defined.

(** ** C10: the empty horizon *)

(** C10: a configuration with [totalDrillingDays = 0] has the horizon
    [totalDays = 0]; the arrays of the run are empty, the write of day 0 of
    S2 finds no element at position 0 and throws, and the run returns no
    schedule. *)
Theorem C10_empty_horizon (config : ScheduleConfig) :
  totalDrillingDays config = 0 →
  totalDays (constructor config) = 0 ∧
  createEmptySchedule (constructor config) = Ok [] ∧
  getAt (A:=DayState) [] 0 = None ∧
  setState [] 0 St_S = Throw TypeError ∧
  initialCoordination (constructor config) = Throw TypeError ∧
  run config = Throw TypeError.
Proof.
  intros H0.
  assert (totalDays (constructor config) = 0) as HT.
  { simpl. rewrite H0. unfold ceil_div. simpl. rewrite Zdiv_0_l. done. }
  split; [done|].
  assert (createEmptySchedule (constructor config) = Ok []) as HE.
  { unfold createEmptySchedule. by rewrite HT. }
  split; [done|]. split; [done|]. split; [done|]. split.
  - unfold initialCoordination. by rewrite HE.
  - unfold run. rewrite generateSchedule_Throw by lia. by rewrite HT.
Qed.

Lemma C10_empty_horizon_witness :
  totalDays (constructor (mkConfig 14 7 5 0)) = 0 ∧
  createEmptySchedule (constructor (mkConfig 14 7 5 0)) = Ok [] ∧
  getAt (A:=DayState) [] 0 = None ∧
  setState [] 0 St_S = Throw TypeError ∧
  initialCoordination (constructor (mkConfig 14 7 5 0)) = Throw TypeError ∧
  run (mkConfig 14 7 5 0) = Throw TypeError.
Proof. apply (C10_empty_horizon (mkConfig 14 7 5 0)). reflexivity. Defined.

(** ** C1: the hard-sequence rule *)

(** C1, as stated, fails: regime 2x1 without induction satisfies the
    invariants of the data model, and its entity 1 goes DOWN on day 2 and UP
    on day 3. *)
Lemma C1_counterexample :
  1 ≤ workDays (regime regime_2x1) ∧ 1 ≤ restDays (regime regime_2x1) ∧
  0 ≤ inductionDays regime_2x1 ∧
  ∃ sch, run regime_2x1 = Ok sch ∧
         stateAt (s1 sch) 2 = Some St_B ∧ stateAt (s1 sch) 3 = Some St_S ∧
         ¬ hardSequence (s1 sch).
Proof.
  repeat (split; [by vm_compute|]).
  destruct (run regime_2x1) as [sch|] eqn:E; [|by vm_compute in E].
  vm_compute in E. injection E as <-. eexists; split; [done|].
  split; [by vm_compute|]. split; [by vm_compute|]. intros H.
  apply (H 2 St_B St_S); [by vm_compute..|]. unfold forbidden. tauto.
Qed.

(** C1, amended: in every produced schedule the transitions UP-UP, UP-DOWN
    and DOWN-UP never occur for entities 2 and 3; for entity 1 UP-UP and
    UP-DOWN never occur, and DOWN-UP never occurs when [restDays ≥ 2]. *)
Theorem C1_hard_sequence (config : ScheduleConfig) (sch : Schedule) :
  run config = Ok sch →
  hardSequence (s2 sch) ∧
  hardSequence (s3 sch) ∧
  noTransition forbiddenFromUp (s1 sch) ∧
  (2 ≤ restDays (regime config) → hardSequence (s1 sch)).
Proof.
  intros E. unfold run in E.
  pose proof (generateSchedule_horizon _ _ E) as HT.
  destruct (generateSchedule_Ok (constructor config) HT) as (a1 & cF & E1 & EF & E').
  rewrite E in E'. injection E' as ->. cbn [s1 s2 s3].
  destruct (generateFixedSchedule_Ok (constructor config)) as (a1' & E1' & Hlen & _);
    [lia|].
  rewrite E1 in E1'. injection E1' as <-.
  destruct (coordination_final (constructor config) a1
              (s3StartDay (constructor config) a1) Hlen HT)
    as (cF' & w2 & w3 & EF' & HI & H2 & H3 & _).
  rewrite EF in EF'. injection EF' as <-.
  destruct HI as [_ _ _ _ _ Hc2 Hc3 _].
  split; [apply chain_hardSequence; by rewrite H2|].
  split; [apply chain_hardSequence; by rewrite H3|].
  split; [by apply (generateFixedSchedule_fromUp (constructor config))|].
  intros Hr. by apply (generateFixedSchedule_hardSequence (constructor config)).
Qed.

Lemma C1_hard_sequence_witness :
  ∃ sch, run regime_14x7 = Ok sch ∧
         hardSequence (s2 sch) ∧
         hardSequence (s3 sch) ∧
         noTransition forbiddenFromUp (s1 sch) ∧
         (2 ≤ restDays (regime regime_14x7) → hardSequence (s1 sch)).
Proof.
  destruct (run regime_14x7) as [sch|] eqn:E; [|by vm_compute in E].
  exists sch. split; [reflexivity|]. exact (C1_hard_sequence regime_14x7 sch E).
Defined.

(** ** C5: the day entity 3 becomes active *)

(** C5: when [fd] is the first DOWN day of entity 1, the entry day computed
    for entity 3 is [max(0, fd - inductionDays - 1)]; it is day 1 or later,
    and it is the day entity 3 becomes active: the days of entity 3 that are
    still '-' are exactly the days before it. *)
Theorem C5_entry_day (config : ScheduleConfig) (sch : Schedule) (fd : Z) :
  run config = Ok sch →
  firstDownDayOf (s1 sch) fd →
  let entry := Z.max 0 (fd - inductionDays config - 1) in
  s3StartDay (constructor config) (s1 sch) = entry ∧
  1 ≤ entry ∧
  (∀ d, 0 ≤ d < totalDays (constructor config) →
     (stateAt (s3 sch) d = Some St_Empty ↔ d < entry)).
Proof.
  intros E Hfd entry. unfold run in E.
  pose proof (generateSchedule_horizon _ _ E) as HT.
  destruct (generateSchedule_Ok (constructor config) HT) as (a1 & cF & E1 & EF & E').
  rewrite E in E'. injection E' as ->. cbn [s1 s3] in *.
  assert (s3StartDay (constructor config) a1 = entry) as He.
  { unfold s3StartDay. cbv zeta. by rewrite (findIndex_firstDownDayOf a1 fd Hfd). }
  split; [done|].
  assert (1 ≤ entry) as Hentry1.
  { destruct Hfd as [Hfd _].
    pose proof (generateFixedSchedule_down_late _ _ _ E1 Hfd) as Hlate.
    simpl in Hlate. subst entry. lia. }
  split; [done|]. intros d Hd.
  destruct (generateFixedSchedule_Ok (constructor config)) as (a1' & E1' & Hlen & _);
    [lia|].
  rewrite E1 in E1'. injection E1' as <-.
  destruct (coordination_final (constructor config) a1
              (s3StartDay (constructor config) a1) Hlen HT)
    as (cF' & w2 & w3 & EF' & HI & H2 & H3 & Hl2 & Hl3).
  rewrite EF in EF'. injection EF' as <-.
  destruct HI as [_ _ _ _ _ _ _ Hentry]. rewrite He in Hentry.
  rewrite <- (Z2Nat.id d), stateAt_states, H3 by lia.
  destruct (lookup_lt_is_Some_2 w3 (Z.to_nat d)) as [x Hx]; [lia|].
  rewrite Hx. specialize (Hentry _ _ Hx).
  split.
  - intros [= ->]. destruct Hentry as [Hentry _]. specialize (Hentry eq_refl). lia.
  - intros Hd'. f_equal. apply Hentry. lia.
Qed.

Lemma C5_entry_day_witness :
  ∃ sch, run regime_2x1 = Ok sch ∧ firstDownDayOf (s1 sch) 2 ∧
    let entry := Z.max 0 (2 - inductionDays regime_2x1 - 1) in
    s3StartDay (constructor regime_2x1) (s1 sch) = entry ∧
    1 ≤ entry ∧
    (∀ d, 0 ≤ d < totalDays (constructor regime_2x1) →
       (stateAt (s3 sch) d = Some St_Empty ↔ d < entry)).
Proof.
  destruct (run regime_2x1) as [sch|] eqn:E; [|by vm_compute in E].
  assert (firstDownDayOf (s1 sch) 2) as Hfd.
  { vm_compute in E. injection E as <-. split; [reflexivity|].
    intros j Hj. assert (j = 0 ∨ j = 1) as [-> | ->] by lia; by vm_compute. }
  exists sch. split; [reflexivity|]. split; [exact Hfd|].
  exact (C5_entry_day regime_2x1 sch 2 E Hfd).
Defined.

(** ** C9: only legal actions are recorded *)

(** C9: for every horizon of one day or more, and below 2^32 (the lengths an
    array can have), the run returns a schedule, and on every day [d] of the
    day loop the states recorded for entities 2 and 3 are among the legal
    actions of the phase-states with which the loop enters the round of day
    [d]. *)
Theorem C9_recorded_actions_legal (config : ScheduleConfig) (d : Z) :
  1 ≤ totalDays (constructor config) < 2 ^ 32 →
  1 ≤ d ≤ totalDays (constructor config) - 1 →
  ∃ sch c x2 x3,
    run config = Ok sch ∧
    coordinationBefore (constructor config) (s1 sch)
      (s3StartDay (constructor config) (s1 sch)) d = Ok c ∧
    stateAt (s2 sch) d = Some x2 ∧
    x2 ∈ getPossibleActions (constructor config) (stateS2 c) true ∧
    stateAt (s3 sch) d = Some x3 ∧
    x3 ∈ getPossibleActions (constructor config) (stateS3 c)
           (d >=? s3StartDay (constructor config) (s1 sch)).
Proof.
  intros HT Hd.
  destruct (generateSchedule_Ok (constructor config) HT) as (a1 & cF & E1 & EF & E).
  destruct (generateFixedSchedule_Ok (constructor config)) as (a1' & E1' & Hlen & _);
    [lia|].
  rewrite E1 in E1'. injection E1' as <-.
  destruct (coordination_day (constructor config) a1
              (s3StartDay (constructor config) a1) d Hlen)
    as (cd & cF' & x2 & x3 & Ed & EF' & Hx2 & Hx3 & Hs2 & Hs3); [lia..|].
  rewrite EF in EF'. injection EF' as <-.
  eexists _, cd, x2, x3. split; [exact E|]. simpl. done.
Qed.

Lemma C9_recorded_actions_legal_witness :
  ∃ sch c x2 x3,
    run regime_14x7 = Ok sch ∧
    coordinationBefore (constructor regime_14x7) (s1 sch)
      (s3StartDay (constructor regime_14x7) (s1 sch)) 20 = Ok c ∧
    stateAt (s2 sch) 20 = Some x2 ∧
    x2 ∈ getPossibleActions (constructor regime_14x7) (stateS2 c) true ∧
    stateAt (s3 sch) 20 = Some x3 ∧
    x3 ∈ getPossibleActions (constructor regime_14x7) (stateS3 c)
           (20 >=? s3StartDay (constructor regime_14x7) (s1 sch)).
Proof.
  apply (C9_recorded_actions_legal regime_14x7 20);
    split; vm_compute; (reflexivity || discriminate).
Defined.

(** ** C7: the safety ceiling *)

(** C7: in every returned schedule the count of every day is at most 3, and
    every day whose count is 3 has a THREE_DRILLING error of that day in the
    error list, whatever the priorities of the configuration are. *)
Theorem C7_safety_ceiling (config : ScheduleConfig) (sch : Schedule)
    (d count : Z) :
  run config = Ok sch →
  getAt (drillersPerDay sch) d = Some count →
  count ≤ 3 ∧
  (count = 3 →
   ∃ e, e ∈ errors sch ∧ e_type e = THREE_DRILLING ∧ e_day e = d).
Proof.
  intros E Hc. unfold run in E.
  pose proof (generateSchedule_horizon _ _ E) as HT.
  destruct (generateSchedule_Ok (constructor config) HT) as (a1 & cF & _ & _ & E').
  rewrite E in E'. injection E' as ->. cbn [drillersPerDay errors] in *.
  pose proof (calculateDrillersPerDay_lookup _ _ _ _ _ _ Hc) as [Hd Hcount].
  split; [repeat case_match; lia|].
  intros ->. unfold validateSchedule. cbv zeta.
  apply validateDays_three; [|done]. apply elem_of_seqZ. lia.
Qed.

Lemma C7_safety_ceiling_witness :
  ∃ sch, run regime_2x1 = Ok sch ∧
    getAt (drillersPerDay sch) 3 = Some 2 ∧
    2 ≤ 3 ∧
    (2 = 3 →
     ∃ e, e ∈ errors sch ∧ e_type e = THREE_DRILLING ∧ e_day e = 3).
Proof.
  destruct (run regime_2x1) as [sch|] eqn:E; [|by vm_compute in E].
  assert (getAt (drillersPerDay sch) 3 = Some 2) as Hc.
  { vm_compute in E. injection E as <-. reflexivity. }
  exists sch. split; [reflexivity|]. split; [exact Hc|].
  exact (C7_safety_ceiling regime_2x1 sch 3 2 E Hc).
Defined.

(** ** C8: the average rest period *)

(** C8 at two configurations on which entity 2 rests on the last day of the
    horizon.  Regime 2x1 without induction: the sequence of entity 2 is
    S I P P B D, with one run of REST days, of length 1 and mean 1; no later
    day closes it and [averageRestDays] is 0.  Regime 7x5 with 2 induction
    days (keep-two-producing low, limit on consecutive work high): the runs
    of REST days have the lengths 1, 3, 3, 2, 1, 1, 1, of mean 12/7; the last
    one is open and [averageRestDays] is 11/6. *)
Theorem C8_open_rest_run_not_counted :
  (∃ sch st,
     run regime_2x1 = Ok sch ∧ stats sch = Some st ∧
     states (s2 sch) = [St_S; St_I; St_P; St_P; St_B; St_D] ∧
     restRuns (states (s2 sch)) = [1] ∧
     (mean (restRuns (states (s2 sch))) == 1)%Q ∧
     (averageRestDays st == 0)%Q ∧
     ¬ (averageRestDays st == mean (restRuns (states (s2 sch))))%Q) ∧
  (∃ sch st,
     run regime_7x5 = Ok sch ∧ stats sch = Some st ∧
     last (states (s2 sch)) = Some St_D ∧
     restRuns (states (s2 sch)) = [1; 3; 3; 2; 1; 1; 1] ∧
     (mean (restRuns (states (s2 sch))) == 12 # 7)%Q ∧
     (averageRestDays st == 11 # 6)%Q ∧
     ¬ (averageRestDays st == mean (restRuns (states (s2 sch))))%Q).
Proof.
  split.
  - destruct (run regime_2x1) as [sch|] eqn:E; [|by vm_compute in E].
    vm_compute in E. injection E as <-.
    eexists _, _. split; [reflexivity|]. split; [reflexivity|].
    repeat split; by vm_compute.
  - destruct (run regime_7x5) as [sch|] eqn:E; [|by vm_compute in E].
    vm_compute in E. injection E as <-.
    eexists _, _. split; [reflexivity|]. split; [reflexivity|].
    repeat split; by vm_compute.
Qed.

(** On a sequence of entity 2 that does not end on a REST day the statistic
    is the mean of C8. *)
Lemma C8_average_when_last_day_not_rest (config : ScheduleConfig)
    (sch : Schedule) (st : ScheduleStats) :
  run config = Ok sch → stats sch = Some st →
  last (states (s2 sch)) ≠ Some St_D →
  averageRestDays st = mean (restRuns (states (s2 sch))).
Proof.
  intros E Hst Hlast. unfold run in E.
  pose proof (generateSchedule_horizon _ _ E) as HT.
  destruct (generateSchedule_Ok (constructor config) HT) as (a1 & cF & _ & _ & E').
  rewrite E in E'. injection E' as ->. cbn [stats s2] in *.
  injection Hst as <-. by apply averageRestDays_mean.
Qed.

(** * Further properties of the engine *)

(** ** The day loop, one round at a time *)

Section Trace.

Variable this : ScheduleGenerator.
Variable s1 : list DayState.
Variable s3StartDay : Z.
Hypothesis s1_length : length s1 = Z.to_nat (totalDays this).

Local Abbreviation T := (Z.to_nat (totalDays this)).
Local Abbreviation Inv := (CoordInv this s3StartDay).
Local Abbreviation before := (coordinationBefore this s1 s3StartDay).

(** One round of the day loop, with the phase-states it leaves. *)
Lemma coordinateDay_step c w2 w3 :
  Inv c w2 w3 → (1 ≤ length w2 < T)%nat →
  ∃ c' x2 x3,
    coordinateDay this s1 s3StartDay (Z.of_nat (length w2)) c = Ok c' ∧
    Inv c' (w2 ++ [x2]) (w3 ++ [x3]) ∧
    x2 ∈ getPossibleActions this (stateS2 c) true ∧
    x3 ∈ getPossibleActions this (stateS3 c)
           (Z.of_nat (length w2) >=? s3StartDay) ∧
    stateS2 c' = syncInternalState (stateS2 c) x2 (Z.of_nat (length w2)) ∧
    stateS3 c' = syncInternalState (stateS3 c) x3 (Z.of_nat (length w2)).
Proof.
  intros HI Hd.
  destruct (coordinateDay_inv this s1 s3StartDay s1_length c w2 w3 HI Hd)
    as (c' & x2 & x3 & E & HI' & Hx2 & Hx3).
  exists c', x2, x3. repeat (split; [done|]).
  destruct HI as [HW2 HW3 Hlen _ _ _ _ _].
  destruct HI' as [HW2' HW3' _ _ _ _ _ _].
  unfold coordinateDay in E. rewrite getAt_of_nat in E.
  destruct (lookup_lt_is_Some_2 s1 (length w2)) as [d1 Ed1]; [lia|].
  rewrite Ed1 in E. cbn [bind] in E. cbv zeta in E.
  set (bm := chooseBestMove this _ _ _ _ _) in E.
  destruct (setState (co_s2 c) (Z.of_nat (length w2)) bm.1) as [a2|] eqn:E2;
    [|done].
  cbn [bind] in E.
  destruct (setState (co_s3 c) (Z.of_nat (length w2)) bm.2) as [a3|] eqn:E3;
    [|done].
  cbn [bind] in E. injection E as <-. simpl in *.
  apply setState_states in E2 as (E2 & _ & _).
  apply setState_states in E3 as (E3 & _ & _).
  rewrite Nat2Z.id in E2, E3.
  destruct HW2 as (Hl2 & Hs2 & _). destruct HW2' as (_ & Hs2' & _).
  destruct HW3 as (Hl3 & Hs3 & _). destruct HW3' as (_ & Hs3' & _).
  assert (bm.1 = x2) as ->.
  { assert (states a2 !! length w2 = Some bm.1) as H1.
    { rewrite E2. apply list_lookup_insert_eq. rewrite states_length. lia. }
    rewrite Hs2', lookup_app_l in H1 by (rewrite length_app; simpl; lia).
    rewrite lookup_app_r, Nat.sub_diag in H1 by lia. by injection H1. }
  assert (bm.2 = x3) as ->.
  { assert (states a3 !! length w2 = Some bm.2) as H1.
    { rewrite E3. apply list_lookup_insert_eq. rewrite states_length. lia. }
    rewrite Hs3', lookup_app_l in H1 by (rewrite length_app; simpl; lia).
    rewrite lookup_app_r, Hlen, Nat.sub_diag in H1 by lia. by injection H1. }
  done.
Qed.

(** The round of day [d] leads from [before d] to [before (d + 1)]. *)
Lemma coordinationBefore_succ d :
  1 ≤ d →
  before (d + 1) = let* c := before d in coordinateDay this s1 s3StartDay d c.
Proof.
  intros Hd. unfold coordinationBefore.
  destruct (initialCoordination this) as [c0|]; [|done]. cbn [bind].
  replace (Z.to_nat (d + 1 - 1)) with (Z.to_nat (d - 1) + 1)%nat by lia.
  rewrite coordinateDays_add.
  destruct (coordinateDays this s1 s3StartDay (Z.to_nat (d - 1)) 1 c0) as [c|];
    [|done].
  cbn [bind]. simpl coordinateDays.
  replace (1 + Z.of_nat (Z.to_nat (d - 1))) with d by lia.
  by destruct (coordinateDay this s1 s3StartDay d c).
Qed.

(** The day loop on day [d]: the phase-states it enters the round with are
    those of the states of day [d - 1]; it records one legal action for each
    entity, which is still there at the horizon, and moves the phase-states
    by these actions. *)
Lemma coordination_trace d :
  1 ≤ d < totalDays this → totalDays this < 2 ^ 32 →
  ∃ cd cd1 cF p2 p3 x2 x3,
    before d = Ok cd ∧ before (d + 1) = Ok cd1 ∧
    before (totalDays this) = Ok cF ∧
    stateAt (co_s2 cF) (d - 1) = Some p2 ∧
    phase (stateS2 cd) = actionToPhase p2 ∧
    stateAt (co_s3 cF) (d - 1) = Some p3 ∧
    phase (stateS3 cd) = actionToPhase p3 ∧
    stateAt (co_s2 cF) d = Some x2 ∧
    x2 ∈ getPossibleActions this (stateS2 cd) true ∧
    stateS2 cd1 = syncInternalState (stateS2 cd) x2 d ∧
    stateAt (co_s3 cF) d = Some x3 ∧
    x3 ∈ getPossibleActions this (stateS3 cd) (d >=? s3StartDay) ∧
    stateS3 cd1 = syncInternalState (stateS3 cd) x3 d.
Proof.
  intros Hd Hmax.
  assert (∃ cd u2 u3, before d = Ok cd ∧ Inv cd ([St_S] ++ u2) ([St_Empty] ++ u3)
            ∧ length u2 = Z.to_nat (d - 1)) as (cd & u2 & u3 & Ed & HId & Hu).
  { unfold coordinationBefore.
    destruct (initialCoordination_inv this s3StartDay) as (c0 & -> & HI0); [lia|].
    cbn [bind].
    destruct (coordinateDays_inv this s1 s3StartDay s1_length (Z.to_nat (d - 1))
                c0 _ _ HI0) as (cd & u2 & u3 & E & HId & Hu); [simpl; lia..|].
    change (Z.of_nat (length [St_S])) with 1 in E. eauto 10. }
  assert (Z.of_nat (length ([St_S] ++ u2)) = d) as Hlen
    by (rewrite length_app; simpl; lia).
  destruct (coordinateDay_step cd _ _ HId)
    as (cd1 & x2 & x3 & E1 & HI1 & Hx2 & Hx3 & Hs2 & Hs3); [lia|].
  rewrite Hlen in E1, Hx3, Hs2, Hs3.
  assert (before (d + 1) = Ok cd1) as Ed1.
  { rewrite coordinationBefore_succ by lia. by rewrite Ed. }
  assert (∃ cF v2 v3, before (totalDays this) = Ok cF ∧
            Inv cF ((([St_S] ++ u2) ++ [x2]) ++ v2)
                   ((([St_Empty] ++ u3) ++ [x3]) ++ v3) ∧
            length v2 = Z.to_nat (totalDays this - 1 - d))
    as (cF & v2 & v3 & EF & HIF & Hv).
  { destruct (coordinateDays_inv this s1 s3StartDay s1_length
                (Z.to_nat (totalDays this - 1 - d)) cd1 _ _ HI1)
      as (cF & v2 & v3 & EF & HIF & Hv).
    { rewrite !length_app. simpl. lia. }
    { rewrite !length_app in *. simpl in *. lia. }
    exists cF, v2, v3. split; [|done].
    replace (Z.of_nat (length (([St_S] ++ u2) ++ [x2]))) with (d + 1) in EF
      by (rewrite length_app; simpl; lia).
    unfold coordinationBefore in Ed1 |- *.
    destruct (initialCoordination this) as [c0|]; [|done]. cbn [bind] in *.
    replace (Z.to_nat (totalDays this - 1))
      with (Z.to_nat (d + 1 - 1) + Z.to_nat (totalDays this - 1 - d))%nat by lia.
    rewrite coordinateDays_add, Ed1. cbn [bind].
    replace (1 + Z.of_nat (Z.to_nat (d + 1 - 1))) with (d + 1) by lia. done. }
  exists cd, cd1, cF.
  pose proof HIF as [HW2 HW3 HlenF _ _ _ _ _].
  pose proof HId as [_ _ HlenD Hp2 Hp3 _ _ _].
  assert (length ((([St_S] ++ u2) ++ [x2]) ++ v2) = T) as Hfull.
  { rewrite !length_app in *. simpl in *. lia. }
  assert (states (co_s2 cF) = (([St_S] ++ u2) ++ [x2]) ++ v2) as HF2
    by apply (Written_full _ _ _ HW2 Hfull).
  assert (states (co_s3 cF) = (([St_Empty] ++ u3) ++ [x3]) ++ v3) as HF3
    by (apply (Written_full _ _ _ HW3); lia).
  assert (length ([St_S] ++ u2) = Z.to_nat d) as Hl2 by lia.
  assert (length ([St_Empty] ++ u3) = Z.to_nat d) as Hl3 by lia.
  destruct (last ([St_S] ++ u2)) as [p2|] eqn:El2; [|done].
  destruct (last ([St_Empty] ++ u3)) as [p3|] eqn:El3; [|done].
  injection Hp2 as Hp2. injection Hp3 as Hp3.
  rewrite last_lookup, Hl2 in El2. rewrite last_lookup, Hl3 in El3.
  exists p2, p3, x2, x3.
  assert (∀ d', 0 ≤ d' → stateAt (co_s2 cF) d' = states (co_s2 cF) !! Z.to_nat d')
    as Hat2 by (intros d' ?; by rewrite <- (Z2Nat.id d'), stateAt_states, Nat2Z.id).
  assert (∀ d', 0 ≤ d' → stateAt (co_s3 cF) d' = states (co_s3 cF) !! Z.to_nat d')
    as Hat3 by (intros d' ?; by rewrite <- (Z2Nat.id d'), stateAt_states, Nat2Z.id).
  rewrite !Hat2, !Hat3, HF2, HF3 by lia.
  replace (Z.to_nat (d - 1)) with (pred (Z.to_nat d)) by lia.
  repeat split; try done.
  - do 2 rewrite lookup_app_l by (rewrite ?length_app; simpl in *; lia). done.
  - do 2 rewrite lookup_app_l by (rewrite ?length_app; simpl in *; lia). done.
  - rewrite lookup_app_l by (rewrite length_app, Hl2; simpl; lia).
    rewrite lookup_app_r by lia. by rewrite Hl2, Nat.sub_diag.
  - rewrite lookup_app_l by (rewrite length_app, Hl3; simpl; lia).
    rewrite lookup_app_r by lia. by rewrite Hl3, Nat.sub_diag.
Qed.

End Trace.

(** ** A run, one day at a time *)

(** What a returned schedule is made of. *)
Lemma run_inversion config sch :
  run config = Ok sch →
  1 ≤ totalDays (constructor config) < 2 ^ 32 ∧
  generateFixedSchedule (constructor config) 0 = Ok (s1 sch) ∧
  length (s1 sch) = Z.to_nat (totalDays (constructor config)) ∧
  ∃ cF,
    coordinationBefore (constructor config) (s1 sch)
      (s3StartDay (constructor config) (s1 sch))
      (totalDays (constructor config)) = Ok cF ∧
    s2 sch = co_s2 cF ∧ s3 sch = co_s3 cF ∧
    drillersPerDay sch =
      calculateDrillersPerDay (constructor config) (s1 sch) (s2 sch) (s3 sch) ∧
    errors sch =
      validateSchedule (constructor config) (s1 sch) (s2 sch) (s3 sch)
        (drillersPerDay sch) ∧
    stats sch =
      Some (calculateStats (constructor config) (drillersPerDay sch) (s2 sch)).
Proof.
  intros E. unfold run in E.
  pose proof (generateSchedule_horizon _ _ E) as HT.
  destruct (generateSchedule_Ok (constructor config) HT) as (a1 & cF & E1 & EF & E').
  rewrite E in E'. injection E' as ->. cbn [s1 s2 s3 drillersPerDay errors stats].
  destruct (generateFixedSchedule_Ok (constructor config)) as (a1' & E1' & Hlen & _);
    [lia|].
  rewrite E1 in E1'. injection E1' as <-.
  split; [done|]. split; [done|]. split; [done|]. exists cF. done.
Qed.

Lemma run_length config sch :
  run config = Ok sch →
  length (s1 sch) = Z.to_nat (totalDays (constructor config)) ∧
  length (s2 sch) = Z.to_nat (totalDays (constructor config)) ∧
  length (s3 sch) = Z.to_nat (totalDays (constructor config)).
Proof.
  intros E. destruct (run_inversion _ _ E) as (HT & _ & Hl1 & cF & EF & -> & -> & _).
  destruct (coordination_final (constructor config) (s1 sch)
              (s3StartDay (constructor config) (s1 sch)) Hl1 HT)
    as (cF' & w2 & w3 & EF' & _ & H2 & H3 & Hl2 & Hl3).
  rewrite EF in EF'. injection EF' as <-.
  rewrite <- (states_length (co_s2 cF)), <- (states_length (co_s3 cF)), H2, H3.
  done.
Qed.

(** The state the day loop starts from. *)
Lemma initialCoordination_states this c :
  initialCoordination this = Ok c →
  stateS2 c = ascendingS2State ∧ stateS3 c = initialS2State.
Proof.
  unfold initialCoordination.
  destruct (createEmptySchedule this) as [e|]; [|done]. cbn [bind]. cbv zeta.
  destruct (setState e 0 St_S) as [a2|]; [|done]. cbn [bind].
  by intros [= <-].
Qed.

Lemma coordinationBefore_1 this s1 e :
  coordinationBefore this s1 e 1 = initialCoordination this.
Proof.
  unfold coordinationBefore. by destruct (initialCoordination this).
Qed.

Section RunTrace.

Variable config : ScheduleConfig.
Variable sch : Schedule.
Hypothesis run_Ok : run config = Ok sch.

Local Abbreviation this := (constructor config).
Local Abbreviation entry := (s3StartDay (constructor config) (s1 sch)).
Local Abbreviation before :=
  (coordinationBefore (constructor config) (s1 sch)
     (s3StartDay (constructor config) (s1 sch))).

(** Day [d] of a returned schedule, as the day loop made it. *)
Lemma run_trace d :
  1 ≤ d < totalDays this →
  ∃ cd cd1 p2 p3 x2 x3,
    before d = Ok cd ∧ before (d + 1) = Ok cd1 ∧
    stateAt (s2 sch) (d - 1) = Some p2 ∧
    phase (stateS2 cd) = actionToPhase p2 ∧
    stateAt (s3 sch) (d - 1) = Some p3 ∧
    phase (stateS3 cd) = actionToPhase p3 ∧
    stateAt (s2 sch) d = Some x2 ∧
    x2 ∈ getPossibleActions this (stateS2 cd) true ∧
    stateS2 cd1 = syncInternalState (stateS2 cd) x2 d ∧
    stateAt (s3 sch) d = Some x3 ∧
    x3 ∈ getPossibleActions this (stateS3 cd) (d >=? entry) ∧
    stateS3 cd1 = syncInternalState (stateS3 cd) x3 d.
Proof.
  intros Hd.
  destruct (run_inversion _ _ run_Ok) as (HT & _ & Hl1 & cF & EF & E2 & E3 & _).
  destruct (coordination_trace this (s1 sch) entry Hl1 d Hd (proj2 HT))
    as (cd & cd1 & cF' & p2 & p3 & x2 & x3 & Ed & Ed1 & EF' & H).
  rewrite EF in EF'. injection EF' as <-. rewrite E2, E3.
  exists cd, cd1, p2, p3, x2, x3. done.
Qed.

(** An invariant of the two phase-states holds in every round of the day
    loop when it holds at the start and every legal move keeps it. *)
Lemma run_invariant (P : Z → S2State → S2State → Prop) :
  P 1 ascendingS2State initialS2State →
  (∀ d st2 st3 x2 x3,
     1 ≤ d < totalDays this → P d st2 st3 →
     x2 ∈ getPossibleActions this st2 true →
     x3 ∈ getPossibleActions this st3 (d >=? entry) →
     P (d + 1) (syncInternalState st2 x2 d) (syncInternalState st3 x3 d)) →
  ∀ d cd, 1 ≤ d ≤ totalDays this → before d = Ok cd →
          P d (stateS2 cd) (stateS3 cd).
Proof.
  intros H1 Hstep d. 
  assert (∀ n : nat, ∀ cd, Z.of_nat n + 1 ≤ totalDays this →
            before (Z.of_nat n + 1) = Ok cd → P (Z.of_nat n + 1) (stateS2 cd) (stateS3 cd))
    as Hn.
  { induction n as [|n IH]; intros cd Hle E.
    - change (Z.of_nat 0 + 1) with 1 in *. rewrite coordinationBefore_1 in E.
      apply initialCoordination_states in E as [-> ->]. done.
    - replace (Z.of_nat (S n) + 1) with ((Z.of_nat n + 1) + 1) in * by lia.
      destruct (run_trace (Z.of_nat n + 1))
        as (c & c1 & p2 & p3 & x2 & x3 & Ec & Ec1 & _ & _ & _ & _ & _ & Hx2 & Hs2
            & _ & Hx3 & Hs3); [lia|].
      rewrite E in Ec1. injection Ec1 as <-. rewrite Hs2, Hs3.
      apply Hstep; [lia| |done|done]. apply IH; [lia|done]. }
  intros cd Hd E.
  replace d with (Z.of_nat (Z.to_nat (d - 1)) + 1) in * by lia.
  apply Hn; [lia|done].
Qed.

End RunTrace.

(** ** The lifecycle of the reactive entities *)

Lemma actionToPhase_inj x y : actionToPhase x = actionToPhase y → x = y.
Proof. by destruct x, y. Qed.

Lemma getPossibleActions_lifecycle this st active prev x :
  phase st = actionToPhase prev →
  x ∈ getPossibleActions this st active →
  lifecycle prev x.
Proof.
  intros Hp Hx. unfold getPossibleActions in Hx. rewrite Hp in Hx.
  destruct prev, active; simpl in Hx; repeat case_match;
    repeat (apply elem_of_cons in Hx as [->|Hx]);
    try (by apply elem_of_nil in Hx); simpl; auto.
Qed.

(** A change of phase starts the count of days at 1. *)
Lemma syncInternalState_change st action day :
  phase st ≠ actionToPhase action →
  phase (syncInternalState st action day) = actionToPhase action ∧
  daysInPhase (syncInternalState st action day) = 1 ∧
  isFirstCycle (syncInternalState st action day) =
    if decide (action = St_S)
    then bool_decide (phase st = IDLE) && (cycleCount st =? 0)
    else isFirstCycle st.
Proof.
  intros H. unfold syncInternalState. by rewrite bool_decide_eq_true_2.
Qed.

(** Staying in the phase adds a day and changes nothing else but the
    drilled total. *)
Lemma syncInternalState_stay st action day :
  phase st = actionToPhase action →
  phase (syncInternalState st action day) = phase st ∧
  daysInPhase (syncInternalState st action day) = daysInPhase st + 1 ∧
  isFirstCycle (syncInternalState st action day) = isFirstCycle st ∧
  cycleCount (syncInternalState st action day) = cycleCount st.
Proof.
  intros H. unfold syncInternalState.
  rewrite bool_decide_eq_false_2 by (by intros ?). done.
Qed.

Lemma fixedPattern_lifecycle config : chain lifecycle (fixedPattern config).
Proof.
  unfold fixedPattern. simpl app.
  destruct (Z.to_nat (1 `max` _)) as [|p] eqn:Ep; [lia|]. clear Ep.
  apply chain_cons.
  - apply chain_replicate_app; [by left| |].
    + apply chain_replicate_app; [by left| |].
      * apply chain_cons; [apply chain_replicate; by left|].
        intros b Hb. destruct (Z.to_nat (0 `max` _)); simpl in Hb; by simplify_eq.
      * intros b [= <-]. by right.
    + intros b Hb. simpl in Hb. injection Hb as <-. by right.
  - intros b Hb. apply head_replicate_app in Hb as [->|Hb]; [by left|].
    simpl in Hb. injection Hb as <-. by right.
Qed.

Lemma fixedPattern_lifecycle_wrap config a b :
  2 ≤ restDays (regime config) →
  last (fixedPattern config) = Some a → head (fixedPattern config) = Some b →
  lifecycle a b.
Proof.
  intros Hr Ha Hb. unfold fixedPattern in Ha, Hb. simpl in Hb. injection Hb as <-.
  rewrite !app_assoc in Ha.
  destruct (Z.to_nat (0 `max` _)) as [|r] eqn:Er; [lia|].
  rewrite replicate_S_end, app_assoc, last_snoc in Ha. injection Ha as <-.
  by right.
Qed.

Lemma chain_followsLifecycle a : chain lifecycle (states a) → followsLifecycle a.
Proof.
  intros Hc d x y Hx Hy.
  apply stateAt_Some in Hx as [Hd Hx]. apply stateAt_Some in Hy as [_ Hy].
  replace (Z.to_nat (d + 1)) with (S (Z.to_nat d)) in Hy by lia.
  exact (chain_lookup _ _ _ _ _ Hc Hx Hy).
Qed.

Lemma stateAt_lt a d x : stateAt a d = Some x → 0 ≤ d < Z.of_nat (length a).
Proof.
  intros [Hd H%lookup_lt_Some]%stateAt_Some. rewrite states_length in H. lia.
Qed.

(** X1: in every returned schedule each step of entities 2 and 3 from one
    day to the next is a step of the lifecycle '-' → '-' | S, S → I | P,
    I → I | P, P → P | B, B → D, D → D | S; so is each step of entity 1 when
    [restDays ≥ 2]. *)
Theorem X1_lifecycle (config : ScheduleConfig) (sch : Schedule) :
  run config = Ok sch →
  followsLifecycle (s2 sch) ∧
  followsLifecycle (s3 sch) ∧
  (2 ≤ restDays (regime config) → followsLifecycle (s1 sch)).
Proof.
  intros E. pose proof (run_length _ _ E) as (Hl1 & Hl2 & Hl3).
  split; [|split].
  - intros d x y Hx Hy.
    pose proof (stateAt_lt _ _ _ Hx). pose proof (stateAt_lt _ _ _ Hy).
    destruct (run_trace config sch E (d + 1))
      as (cd & _ & p2 & _ & x2 & _ & _ & _ & Hp2 & Hph & _ & _ & Hx2 & Hlegal & _);
      [lia|].
    replace (d + 1 - 1) with d in Hp2 by lia.
    rewrite Hx in Hp2. rewrite Hy in Hx2. simplify_eq.
    by eapply getPossibleActions_lifecycle.
  - intros d x y Hx Hy.
    pose proof (stateAt_lt _ _ _ Hx). pose proof (stateAt_lt _ _ _ Hy).
    destruct (run_trace config sch E (d + 1))
      as (cd & _ & _ & p3 & _ & x3 & _ & _ & _ & _ & Hp3 & Hph & _ & _ & _ & Hx3
          & Hlegal & _); [lia|].
    replace (d + 1 - 1) with d in Hp3 by lia.
    rewrite Hx in Hp3. rewrite Hy in Hx3. simplify_eq.
    by eapply getPossibleActions_lifecycle.
  - intros Hr. destruct (run_inversion _ _ E) as (HT & E1 & _).
    destruct (generateFixedSchedule_Ok (constructor config)) as (a1 & E1' & _ & Hst);
      [lia|].
    rewrite E1 in E1'. injection E1' as <-.
    apply chain_followsLifecycle. rewrite Hst.
    apply chain_take, chain_repeated; [apply fixedPattern_lifecycle|].
    intros a b. by apply fixedPattern_lifecycle_wrap.
Qed.

Lemma X1_lifecycle_witness :
  ∃ sch, run regime_14x7 = Ok sch ∧
    followsLifecycle (s2 sch) ∧
    followsLifecycle (s3 sch) ∧
    (2 ≤ restDays (regime regime_14x7) → followsLifecycle (s1 sch)).
Proof.
  destruct (run regime_14x7) as [sch|] eqn:E; [|by vm_compute in E].
  exists sch. split; [reflexivity|]. exact (X1_lifecycle regime_14x7 sch E).
Defined.

(** ** The first days *)

Lemma coordination_final_heads this s1 e :
  length s1 = Z.to_nat (totalDays this) → 1 ≤ totalDays this < 2 ^ 32 →
  ∃ cF v2 v3,
    coordinationBefore this s1 e (totalDays this) = Ok cF ∧
    states (co_s2 cF) = St_S :: v2 ∧ states (co_s3 cF) = St_Empty :: v3 ∧
    (∀ (j : nat) x, (St_Empty :: v3) !! j = Some x →
       (x = St_Empty ↔ j = 0%nat ∨ Z.of_nat j < e)).
Proof.
  intros Hs1 HT. unfold coordinationBefore.
  destruct (initialCoordination_inv this e) as (c0 & -> & HI0); [lia|].
  cbn [bind].
  destruct (coordinateDays_inv this s1 e Hs1 (Z.to_nat (totalDays this - 1))
              c0 _ _ HI0) as (cF & v2 & v3 & EF & HIF & Hv); [simpl; lia..|].
  change (Z.of_nat (length [St_S])) with 1 in EF. rewrite EF.
  exists cF, v2, v3. split; [done|].
  pose proof HIF as [HW2 HW3 HlenF _ _ _ _ He].
  assert (length ([St_S] ++ v2) = Z.to_nat (totalDays this)) as Hfull
    by (simpl; lia).
  rewrite (Written_full _ _ _ HW2 Hfull).
  rewrite (Written_full _ _ _ HW3) by lia. done.
Qed.

(** The days of entity 3 that are still '-': day 0 and the days before the
    entry day. *)
Lemma run_empty_days config sch d :
  run config = Ok sch → 0 ≤ d < totalDays (constructor config) →
  (stateAt (s3 sch) d = Some St_Empty
   ↔ d = 0 ∨ d < s3StartDay (constructor config) (s1 sch)).
Proof.
  intros E Hd.
  destruct (run_inversion _ _ E) as (HT & _ & Hl1 & cF & EF & _ & E3 & _).
  pose proof (run_length _ _ E) as (_ & _ & Hl3).
  destruct (coordination_final_heads (constructor config) (s1 sch)
              (s3StartDay (constructor config) (s1 sch)) Hl1 HT)
    as (cF' & v2 & v3 & EF' & _ & H3 & Hentry).
  rewrite EF in EF'. injection EF' as <-.
  rewrite E3 in *. rewrite <- (Z2Nat.id d), stateAt_states, H3 by lia.
  assert (length (St_Empty :: v3) = Z.to_nat (totalDays (constructor config)))
    as Hlen by (by rewrite <- H3, states_length).
  destruct (lookup_lt_is_Some_2 (St_Empty :: v3) (Z.to_nat d)) as [x Hx]; [lia|].
  rewrite Hx. specialize (Hentry _ _ Hx). rewrite Z2Nat.id by lia.
  split.
  - intros [= ->]. destruct Hentry as [Hentry _]. specialize (Hentry eq_refl). lia.
  - intros Hd'. f_equal. apply Hentry. lia.
Qed.

Lemma run_day0 config sch :
  run config = Ok sch →
  stateAt (s1 sch) 0 = Some St_S ∧ stateAt (s2 sch) 0 = Some St_S ∧
  stateAt (s3 sch) 0 = Some St_Empty.
Proof.
  intros E.
  destruct (run_inversion _ _ E) as (HT & E1 & Hl1 & cF & EF & E2 & E3 & _).
  destruct (coordination_final_heads (constructor config) (s1 sch)
              (s3StartDay (constructor config) (s1 sch)) Hl1 HT)
    as (cF' & v2 & v3 & EF' & H2 & H3 & _).
  rewrite EF in EF'. injection EF' as <-.
  split; [|split].
  - rewrite (generateFixedSchedule_lookup _ _ 0 E1) by lia.
    change (Z.to_nat 0) with 0%nat. by rewrite Nat.Div0.mod_0_l.
  - change 0 with (Z.of_nat 0). by rewrite E2, stateAt_states, H2.
  - change 0 with (Z.of_nat 0). by rewrite E3, stateAt_states, H3.
Qed.

(** While S2 is in its first ascent and induction, the only legal action is
    INDUCTION. *)
Lemma getPossibleActions_induction this st d x :
  isFirstCycle st = true →
  (d = 1 ∧ phase st = GOING_UP) ∨
  (2 ≤ d ≤ inductionDays (config this) ∧ phase st = INDUCTION
   ∧ daysInPhase st = d - 1) →
  x ∈ getPossibleActions this st true → x = St_I.
Proof.
  intros Hf [[_ Hp]|(Hd & Hp & Hdays)] Hx;
    unfold getPossibleActions in Hx; rewrite Hp in Hx; simpl in Hx.
  - rewrite Hf in Hx. by apply list_elem_of_singleton in Hx.
  - destruct (Z.ltb_spec (daysInPhase st) (inductionDays (config this))); [|lia].
    by apply list_elem_of_singleton in Hx.
Qed.

(** X2: every returned schedule starts with S1 and S2 going UP on day 0 and
    S3 still '-'; S1 then spends days 1 to [inductionDays] in INDUCTION, and
    S2 days 1 to [max(1, inductionDays)] (S2 has one INDUCTION day even
    without induction). *)
Theorem X2_first_days (cfg : ScheduleConfig) (sch : Schedule) :
  run cfg = Ok sch →
  stateAt (s1 sch) 0 = Some St_S ∧
  stateAt (s2 sch) 0 = Some St_S ∧
  stateAt (s3 sch) 0 = Some St_Empty ∧
  (∀ d, 1 ≤ d ≤ inductionDays cfg → d < totalDays (constructor cfg) →
        stateAt (s1 sch) d = Some St_I) ∧
  (∀ d, 1 ≤ d ≤ Z.max 1 (inductionDays cfg) →
        d < totalDays (constructor cfg) →
        stateAt (s2 sch) d = Some St_I).
Proof.
  intros E. destruct (run_day0 _ _ E) as (H1 & H2 & H3).
  repeat (split; [done|]). split.
  - intros d Hd HT. destruct (run_inversion _ _ E) as (_ & E1 & _).
    rewrite (generateFixedSchedule_lookup _ _ d E1) by lia.
    change (config (constructor cfg)) with cfg.
    pose proof (fixedPattern_length_induction cfg).
    rewrite Nat.mod_small by lia.
    unfold fixedPattern.
    destruct (Z.to_nat d) as [|k] eqn:Ek; [lia|]. simpl.
    rewrite lookup_app_l by (rewrite length_replicate; lia).
    apply lookup_replicate_2. lia.
  - intros d Hd HT.
    destruct (run_trace cfg sch E d)
      as (cd & _ & _ & _ & x2 & _ & Ed & _ & _ & _ & _ & _ & Hx2 & Hlegal & _);
      [lia|].
    rewrite Hx2. f_equal.
    assert (isFirstCycle (stateS2 cd) = true ∧
            ((d = 1 ∧ phase (stateS2 cd) = GOING_UP) ∨
             (2 ≤ d ≤ inductionDays cfg ∧ phase (stateS2 cd) = INDUCTION
              ∧ daysInPhase (stateS2 cd) = d - 1))) as [Hf Hcase].
    { apply (run_invariant cfg sch E
               (λ d st2 _, d ≤ Z.max 1 (inductionDays cfg) →
                  isFirstCycle st2 = true ∧
                  ((d = 1 ∧ phase st2 = GOING_UP) ∨
                   (2 ≤ d ≤ inductionDays cfg ∧ phase st2 = INDUCTION
                    ∧ daysInPhase st2 = d - 1)))) with (cd := cd);
        [by intros; split; [|left]| |lia|done|lia].
      clear. intros d st2 st3 x2 x3 Hd IH Hx2 _ Hle.
      destruct IH as [Hf Hcase]; [lia|].
      assert (x2 = St_I) as ->
        by exact (getPossibleActions_induction (constructor cfg) st2 d x2
                    Hf Hcase Hx2).
      destruct Hcase as [[-> Hp]|(Hd2 & Hp & Hdays)].
      + destruct (syncInternalState_change st2 St_I 1) as (Hp' & Hd' & Hf');
          [by rewrite Hp|].
        rewrite Hf', Hp', Hd'. split; [done|]. right.
        repeat split; simpl; (done || lia).
      + destruct (syncInternalState_stay st2 St_I d) as (Hp' & Hd' & Hf' & _);
          [by rewrite Hp|].
        rewrite Hf', Hp', Hd'. split; [done|]. right.
        repeat split; simpl; (done || lia). }
    exact (getPossibleActions_induction (constructor cfg) _ d x2 Hf Hcase Hlegal).
Qed.

Lemma X2_first_days_witness :
  ∃ sch, run regime_14x7 = Ok sch ∧
    stateAt (s1 sch) 0 = Some St_S ∧
    stateAt (s2 sch) 0 = Some St_S ∧
    stateAt (s3 sch) 0 = Some St_Empty ∧
    (∀ d, 1 ≤ d ≤ inductionDays regime_14x7 →
          d < totalDays (constructor regime_14x7) →
          stateAt (s1 sch) d = Some St_I) ∧
    (∀ d, 1 ≤ d ≤ Z.max 1 (inductionDays regime_14x7) →
          d < totalDays (constructor regime_14x7) →
          stateAt (s2 sch) d = Some St_I).
Proof.
  destruct (run regime_14x7) as [sch|] eqn:E; [|by vm_compute in E].
  exists sch. split; [reflexivity|]. exact (X2_first_days regime_14x7 sch E).
Defined.

(** ** Drilling stints and second ascents *)

Lemma getPossibleActions_first_drilling_day this st active x :
  phase st = DRILLING → daysInPhase st = 1 →
  x ∈ getPossibleActions this st active → x = St_P.
Proof.
  intros Hp Hd Hx. unfold getPossibleActions in Hx. rewrite Hp, Hd in Hx.
  simpl in Hx. rewrite !andb_false_r in Hx.
  by apply list_elem_of_singleton in Hx.
Qed.

Lemma getPossibleActions_going_up this st active x :
  phase st = GOING_UP →
  x ∈ getPossibleActions this st active →
  x = if isFirstCycle st then St_I else St_P.
Proof.
  intros Hp Hx. unfold getPossibleActions in Hx. rewrite Hp in Hx.
  simpl in Hx. rewrite !andb_false_r in Hx.
  by apply list_elem_of_singleton in Hx.
Qed.

Lemma getPossibleActions_idle_active this st x :
  phase st = IDLE → x ∈ getPossibleActions this st true → x = St_S.
Proof.
  intros Hp Hx. unfold getPossibleActions in Hx. rewrite Hp in Hx.
  simpl in Hx. by apply list_elem_of_singleton in Hx.
Qed.

Section Stints.

Variable cfg : ScheduleConfig.
Variable sch : Schedule.
Hypothesis run_Ok : run cfg = Ok sch.

Lemma run_days_bound a d x :
  a = s2 sch ∨ a = s3 sch → stateAt a d = Some x →
  0 ≤ d < totalDays (constructor cfg).
Proof.
  intros Ha Hx. pose proof (run_length _ _ run_Ok) as (_ & Hl2 & Hl3).
  apply stateAt_lt in Hx. destruct Ha as [-> | ->]; lia.
Qed.

(** A first DRILLING day of S2 or S3 is followed by a DRILLING day. *)
Lemma drilling_second_day a d y :
  a = s2 sch ∨ a = s3 sch →
  stateAt a d = Some St_P → stateAt a (d - 1) ≠ Some St_P →
  stateAt a (d + 1) = Some y → y = St_P.
Proof.
  intros Ha HP Hprev Hnext.
  pose proof (run_days_bound _ _ _ Ha HP). pose proof (run_days_bound _ _ _ Ha Hnext).
  destruct (run_day0 _ _ run_Ok) as (_ & H20 & H30).
  assert (d ≠ 0) as Hd0 by (intros ->; destruct Ha as [-> | ->]; congruence).
  destruct (run_trace cfg sch run_Ok d)
    as (cd & cd1 & p2 & p3 & x2 & x3 & Ed & Ed1 & Hp2 & Hph2 & Hp3 & Hph3
        & Hx2 & _ & Hs2 & Hx3 & _ & Hs3); [lia|].
  destruct (run_trace cfg sch run_Ok (d + 1))
    as (cd' & _ & _ & _ & y2 & y3 & Ed' & _ & _ & _ & _ & _
        & Hy2 & Hl2 & _ & Hy3 & Hl3 & _); [lia|].
  rewrite Ed1 in Ed'. injection Ed' as <-.
  destruct Ha as [-> | ->].
  - rewrite HP in Hx2. injection Hx2 as <-. rewrite Hnext in Hy2. injection Hy2 as <-.
    destruct (syncInternalState_change (stateS2 cd) St_P d) as (Hp' & Hd' & _).
    { rewrite Hph2. intros ?%actionToPhase_inj. congruence. }
    rewrite <- Hs2 in Hp', Hd'.
    by eapply getPossibleActions_first_drilling_day.
  - rewrite HP in Hx3. injection Hx3 as <-. rewrite Hnext in Hy3. injection Hy3 as <-.
    destruct (syncInternalState_change (stateS3 cd) St_P d) as (Hp' & Hd' & _).
    { rewrite Hph3. intros ?%actionToPhase_inj. congruence. }
    rewrite <- Hs3 in Hp', Hd'.
    by eapply getPossibleActions_first_drilling_day.
Qed.

(** An ascent of S2 or S3 out of a rest is followed by a DRILLING day. *)
Lemma ascent_after_rest a d y :
  a = s2 sch ∨ a = s3 sch →
  stateAt a (d - 1) = Some St_D → stateAt a d = Some St_S →
  stateAt a (d + 1) = Some y → y = St_P.
Proof.
  intros Ha Hprev HS Hnext.
  pose proof (run_days_bound _ _ _ Ha Hprev). pose proof (run_days_bound _ _ _ Ha Hnext).
  destruct (run_trace cfg sch run_Ok d)
    as (cd & cd1 & p2 & p3 & x2 & x3 & Ed & Ed1 & Hp2 & Hph2 & Hp3 & Hph3
        & Hx2 & _ & Hs2 & Hx3 & _ & Hs3); [lia|].
  destruct (run_trace cfg sch run_Ok (d + 1))
    as (cd' & _ & _ & _ & y2 & y3 & Ed' & _ & _ & _ & _ & _
        & Hy2 & Hl2 & _ & Hy3 & Hl3 & _); [lia|].
  rewrite Ed1 in Ed'. injection Ed' as <-.
  destruct Ha as [-> | ->].
  - rewrite HS in Hx2. injection Hx2 as <-. rewrite Hnext in Hy2. injection Hy2 as <-.
    rewrite Hprev in Hp2. injection Hp2 as <-.
    destruct (syncInternalState_change (stateS2 cd) St_S d) as (Hp' & _ & Hf').
    { by rewrite Hph2. }
    rewrite <- Hs2 in Hp', Hf'. rewrite Hph2 in Hf'. simpl in Hf'.
    apply (getPossibleActions_going_up _ _ _ _ Hp') in Hl2. by rewrite Hf' in Hl2.
  - rewrite HS in Hx3. injection Hx3 as <-. rewrite Hnext in Hy3. injection Hy3 as <-.
    rewrite Hprev in Hp3. injection Hp3 as <-.
    destruct (syncInternalState_change (stateS3 cd) St_S d) as (Hp' & _ & Hf').
    { by rewrite Hph3. }
    rewrite <- Hs3 in Hp', Hf'. rewrite Hph3 in Hf'. simpl in Hf'.
    apply (getPossibleActions_going_up _ _ _ _ Hp') in Hl3. by rewrite Hf' in Hl3.
Qed.

(** The first ascent of S3: on day [max(1, s3StartDay)] it goes UP, and
    INDUCTION follows. *)
Lemma s3_first_ascent :
  let e := Z.max 1 (s3StartDay (constructor cfg) (s1 sch)) in
  e < totalDays (constructor cfg) →
  stateAt (s3 sch) e = Some St_S ∧
  ∀ y, stateAt (s3 sch) (e + 1) = Some y → y = St_I.
Proof.
  intros e He.
  destruct (run_trace cfg sch run_Ok e)
    as (cd & cd1 & _ & p3 & _ & x3 & Ed & Ed1 & _ & _ & Hp3 & Hph3
        & _ & _ & _ & Hx3 & Hl3 & Hs3); [lia|].
  assert (p3 = St_Empty) as ->.
  { assert (stateAt (s3 sch) (e - 1) = Some St_Empty) as H
      by (apply (run_empty_days _ _ _ run_Ok); lia).
    congruence. }
  assert ((e >=? s3StartDay (constructor cfg) (s1 sch)) = true) as Hact
    by (apply Z.geb_le; lia).
  rewrite Hact in Hl3.
  apply (getPossibleActions_idle_active _ _ _ Hph3) in Hl3 as ->.
  split; [done|]. intros y Hy.
  pose proof (stateAt_lt _ _ _ Hy) as Hlt.
  pose proof (run_length _ _ run_Ok) as (_ & _ & Hlen3).
  destruct (run_trace cfg sch run_Ok (e + 1))
    as (cd' & _ & _ & _ & _ & y3 & Ed' & _ & _ & _ & _ & _
        & _ & _ & _ & Hy3 & Hl3' & _); [lia|].
  rewrite Ed1 in Ed'. injection Ed' as <-.
  rewrite Hy in Hy3. injection Hy3 as <-.
  assert (cycleCount (stateS3 cd) = 0) as Hcc.
  { apply (run_invariant cfg sch run_Ok
             (λ _ _ st3, phase st3 = IDLE → cycleCount st3 = 0)) with (d := e);
      [done| |lia|done|done].
    clear. intros d st2 st3 x2 x3 Hd IH _ Hx3 Hidle.
    rewrite syncInternalState_phase in Hidle.
    assert (x3 = St_Empty) as -> by (by destruct x3).
    apply getPossibleActions_Empty in Hx3 as [Hx3 _].
    destruct (Hx3 eq_refl) as [Hp _].
    destruct (syncInternalState_stay st3 St_Empty d) as (_ & _ & _ & ->);
      [done|]. by apply IH. }
  destruct (syncInternalState_change (stateS3 cd) St_S e) as (Hp' & _ & Hf').
  { by rewrite Hph3. }
  rewrite <- Hs3 in Hp', Hf'. rewrite Hph3, Hcc in Hf'. simpl in Hf'.
  apply (getPossibleActions_going_up _ _ _ _ Hp') in Hl3'. by rewrite Hf' in Hl3'.
Qed.

End Stints.

(** X3: in every returned schedule a drilling stint of entity 2 or 3 that
    the horizon does not cut lasts two days or more: a DRILLING day that
    does not follow a DRILLING day is followed by one. *)
Theorem X3_two_drilling_days (cfg : ScheduleConfig) (sch : Schedule)
    (a : list DayState) (d : Z) (y : SupervisorState) :
  run cfg = Ok sch →
  a = s2 sch ∨ a = s3 sch →
  stateAt a d = Some St_P → stateAt a (d - 1) ≠ Some St_P →
  stateAt a (d + 1) = Some y → y = St_P.
Proof. intros E. by apply drilling_second_day with (cfg := cfg). Qed.

Lemma X3_two_drilling_days_witness :
  ∃ sch, run regime_2x1 = Ok sch ∧
    (stateAt (s2 sch) 2 = Some St_P ∧ stateAt (s2 sch) (2 - 1) ≠ Some St_P ∧
     stateAt (s2 sch) (2 + 1) = Some St_P) ∧
    St_P = St_P.
Proof.
  destruct (run regime_2x1) as [sch|] eqn:E; [|by vm_compute in E].
  assert (stateAt (s2 sch) 2 = Some St_P ∧ stateAt (s2 sch) (2 - 1) ≠ Some St_P ∧
          stateAt (s2 sch) (2 + 1) = Some St_P) as H.
  { vm_compute in E. injection E as <-. repeat split; by vm_compute. }
  exists sch. split; [reflexivity|]. split; [exact H|].
  destruct H as (H1 & H2 & H3).
  exact (X3_two_drilling_days regime_2x1 sch (s2 sch) 2 St_P E
           (or_introl eq_refl) H1 H2 H3).
Defined.

(** X4: induction is not repeated: in every returned schedule an UP day of
    entity 2 or 3 that follows a REST day is followed by a DRILLING day. *)
Theorem X4_no_second_induction (cfg : ScheduleConfig) (sch : Schedule)
    (a : list DayState) (d : Z) (y : SupervisorState) :
  run cfg = Ok sch →
  a = s2 sch ∨ a = s3 sch →
  stateAt a (d - 1) = Some St_D → stateAt a d = Some St_S →
  stateAt a (d + 1) = Some y → y = St_P.
Proof. intros E. by apply ascent_after_rest with (cfg := cfg). Qed.

Lemma X4_no_second_induction_witness :
  ∃ sch, run regime_7x5 = Ok sch ∧
    (stateAt (s2 sch) (10 - 1) = Some St_D ∧ stateAt (s2 sch) 10 = Some St_S ∧
     stateAt (s2 sch) (10 + 1) = Some St_P) ∧
    St_P = St_P.
Proof.
  destruct (run regime_7x5) as [sch|] eqn:E; [|by vm_compute in E].
  assert (stateAt (s2 sch) (10 - 1) = Some St_D ∧ stateAt (s2 sch) 10 = Some St_S ∧
          stateAt (s2 sch) (10 + 1) = Some St_P) as H.
  { vm_compute in E. injection E as <-. repeat split; by vm_compute. }
  exists sch. split; [reflexivity|]. split; [exact H|].
  destruct H as (H1 & H2 & H3).
  exact (X4_no_second_induction regime_7x5 sch (s2 sch) 10 St_P E
           (or_introl eq_refl) H1 H2 H3).
Defined.

(** X5: entity 3 starts on day [e = max(1, s3StartDay)]: when that day is
    inside the horizon, the days before it are '-', day [e] is UP and the
    day after it (if any) is INDUCTION. *)
Theorem X5_entity3_first_ascent (cfg : ScheduleConfig) (sch : Schedule) :
  run cfg = Ok sch →
  let e := Z.max 1 (s3StartDay (constructor cfg) (s1 sch)) in
  e < totalDays (constructor cfg) →
  (∀ d, 0 ≤ d < e → stateAt (s3 sch) d = Some St_Empty) ∧
  stateAt (s3 sch) e = Some St_S ∧
  (∀ y, stateAt (s3 sch) (e + 1) = Some y → y = St_I).
Proof.
  intros E e He. split; [|by apply s3_first_ascent].
  intros d Hd. apply (run_empty_days _ _ _ E); lia.
Qed.

Lemma X5_entity3_first_ascent_witness :
  ∃ sch, run regime_2x1 = Ok sch ∧
    Z.max 1 (s3StartDay (constructor regime_2x1) (s1 sch))
    < totalDays (constructor regime_2x1) ∧
    let e := Z.max 1 (s3StartDay (constructor regime_2x1) (s1 sch)) in
    (∀ d, 0 ≤ d < e → stateAt (s3 sch) d = Some St_Empty) ∧
    stateAt (s3 sch) e = Some St_S ∧
    (∀ y, stateAt (s3 sch) (e + 1) = Some y → y = St_I).
Proof.
  destruct (run regime_2x1) as [sch|] eqn:E; [|by vm_compute in E].
  assert (Z.max 1 (s3StartDay (constructor regime_2x1) (s1 sch))
          < totalDays (constructor regime_2x1)) as H.
  { vm_compute in E. injection E as <-. by vm_compute. }
  exists sch. split; [reflexivity|]. split; [exact H|].
  exact (X5_entity3_first_ascent regime_2x1 sch E H).
Defined.

(** ** The first DOWN day of entity 1 and the entry of entity 3 *)

Lemma fixedPattern_first_down cfg :
  let fd := (1 + Z.to_nat (inductionDays cfg)
             + Z.to_nat (Z.max 1 (workDays (regime cfg) - inductionDays cfg - 1)))%nat in
  fixedPattern cfg !! fd = Some St_B ∧
  (fd < length (fixedPattern cfg))%nat ∧
  ∀ k, (k < fd)%nat → fixedPattern cfg !! k ≠ Some St_B.
Proof.
  intros fd. subst fd. unfold fixedPattern.
  set (i := Z.to_nat (inductionDays cfg)).
  set (p := Z.to_nat (Z.max 1 _)).
  set (r := Z.to_nat (Z.max 0 _)).
  split; [|split].
  - change (1 + i + p)%nat with (S (i + p)). simpl.
    rewrite lookup_app_r by (rewrite length_replicate; lia).
    rewrite lookup_app_r by (rewrite !length_replicate; lia).
    rewrite !length_replicate. by replace (i + p - i - p)%nat with 0%nat by lia.
  - rewrite !length_app, !length_replicate. simpl. lia.
  - intros [|k] Hk; [done|]. simpl.
    destruct (decide (k < i)%nat).
    + rewrite lookup_app_l by (by rewrite length_replicate).
      by rewrite lookup_replicate_2.
    + rewrite lookup_app_r by (rewrite length_replicate; lia).
      rewrite length_replicate.
      rewrite lookup_app_l by (rewrite length_replicate; lia).
      rewrite lookup_replicate_2 by lia. done.
Qed.

(** The first DOWN day of S1, when it is inside the horizon. *)
Lemma generateFixedSchedule_first_down this a1 :
  generateFixedSchedule this 0 = Ok a1 →
  let fd := 1 + Z.of_nat (Z.to_nat (inductionDays (config this)))
            + Z.max 1 (workDays (regime (config this))
                       - inductionDays (config this) - 1) in
  fd < totalDays this → firstDownDayOf a1 fd.
Proof.
  intros E fd Hfd.
  destruct (fixedPattern_first_down (config this)) as (HB & Hlt & Hmin).
  assert (Z.to_nat fd =
          (1 + Z.to_nat (inductionDays (config this))
           + Z.to_nat (Z.max 1 (workDays (regime (config this))
                                - inductionDays (config this) - 1)))%nat) as Hnat
    by (subst fd; lia).
  split.
  - rewrite (generateFixedSchedule_lookup this a1 fd E) by lia.
    rewrite Nat.mod_small by lia. by rewrite Hnat.
  - intros j Hj. rewrite (generateFixedSchedule_lookup this a1 j E) by lia.
    rewrite Nat.mod_small by lia. apply Hmin. lia.
Qed.

(** X6: entity 3 goes UP before entity 1 first goes DOWN: when [fd] is the
    first DOWN day of entity 1 and [inductionDays ≥ 0], the first UP day of
    entity 3 is day [fd - inductionDays - 1], a day from 1 to [fd - 1]. *)
Theorem X6_entity3_up_before_first_down (cfg : ScheduleConfig)
    (sch : Schedule) (fd : Z) :
  run cfg = Ok sch →
  firstDownDayOf (s1 sch) fd →
  0 ≤ inductionDays cfg →
  1 ≤ fd - inductionDays cfg - 1 < fd ∧
  stateAt (s3 sch) (fd - inductionDays cfg - 1) = Some St_S ∧
  (∀ d, 0 ≤ d < fd - inductionDays cfg - 1 → stateAt (s3 sch) d = Some St_Empty).
Proof.
  intros E Hfd Hind.
  destruct (run_inversion _ _ E) as (HT & E1 & Hl1 & _).
  pose proof Hfd as [HB _].
  pose proof (generateFixedSchedule_down_late _ _ _ E1 HB) as Hlate.
  change (config (constructor cfg)) with cfg in Hlate.
  pose proof (stateAt_lt _ _ _ HB) as Hlt.
  assert (s3StartDay (constructor cfg) (s1 sch) = fd - inductionDays cfg - 1) as He.
  { unfold s3StartDay. cbv zeta. rewrite (findIndex_firstDownDayOf _ fd Hfd).
    change (config (constructor cfg)) with cfg. lia. }
  split; [lia|].
  destruct (s3_first_ascent cfg sch E) as [HS _]; [rewrite He; lia|].
  rewrite He in HS. rewrite Z.max_r in HS by lia.
  split; [done|]. intros d Hd. apply (run_empty_days _ _ _ E); [lia|].
  rewrite He. lia.
Qed.

Lemma X6_entity3_up_before_first_down_witness :
  ∃ sch, run regime_2x1 = Ok sch ∧ firstDownDayOf (s1 sch) 2 ∧
    0 ≤ inductionDays regime_2x1 ∧
    1 ≤ 2 - inductionDays regime_2x1 - 1 < 2 ∧
    stateAt (s3 sch) (2 - inductionDays regime_2x1 - 1) = Some St_S ∧
    (∀ d, 0 ≤ d < 2 - inductionDays regime_2x1 - 1 →
          stateAt (s3 sch) d = Some St_Empty).
Proof.
  destruct (run regime_2x1) as [sch|] eqn:E; [|by vm_compute in E].
  assert (firstDownDayOf (s1 sch) 2) as Hfd.
  { vm_compute in E. injection E as <-. split; [reflexivity|].
    intros j Hj. assert (j = 0 ∨ j = 1) as [-> | ->] by lia; by vm_compute. }
  assert (0 ≤ inductionDays regime_2x1) as Hind by (by vm_compute).
  exists sch. split; [reflexivity|]. split; [exact Hfd|]. split; [exact Hind|].
  exact (X6_entity3_up_before_first_down regime_2x1 sch 2 E Hfd Hind).
Defined.

(** X7: for [inductionDays ≥ 0], [workDays ≥ inductionDays + 2],
    [restDays ≥ 0], [totalDrillingDays ≥ 1] and a horizon below 2^32 (the
    lengths an array can have) the run returns a schedule in which entity 1
    first goes DOWN on day [workDays], and the entry day of entity 3 is
    [workDays - inductionDays - 1]. *)
Theorem X7_first_down_is_workDays (cfg : ScheduleConfig) :
  0 ≤ inductionDays cfg →
  inductionDays cfg + 2 ≤ workDays (regime cfg) →
  0 ≤ restDays (regime cfg) →
  1 ≤ totalDrillingDays cfg →
  totalDays (constructor cfg) < 2 ^ 32 →
  ∃ sch, run cfg = Ok sch ∧
    workDays (regime cfg) < totalDays (constructor cfg) ∧
    firstDownDayOf (s1 sch) (workDays (regime cfg)) ∧
    s3StartDay (constructor cfg) (s1 sch)
    = workDays (regime cfg) - inductionDays cfg - 1.
Proof.
  intros Hind Hw Hr Htdd Hmax.
  assert (workDays (regime cfg) < totalDays (constructor cfg)) as HT.
  { simpl.
    pose proof (ceil_div_isCeilOf (totalDrillingDays cfg)
                  (1 `max` (workDays (regime cfg) - inductionDays cfg - 1)))
      as [_ Hc]; [lia|].
    assert (1 ≤ ceil_div (totalDrillingDays cfg)
                  (1 `max` (workDays (regime cfg) - inductionDays cfg - 1))) by nia.
    nia. }
  destruct (generateSchedule_Ok (constructor cfg)) as (a1 & cF & E1 & EF & E);
    [lia|].
  eexists. split; [exact E|]. split; [done|]. cbn [s1].
  assert (firstDownDayOf a1 (workDays (regime cfg))) as Hfd.
  { pose proof (generateFixedSchedule_first_down (constructor cfg) a1 E1) as H.
    change (config (constructor cfg)) with cfg in H. cbv zeta in H.
    replace (1 + Z.of_nat (Z.to_nat (inductionDays cfg))
             + 1 `max` (workDays (regime cfg) - inductionDays cfg - 1))
      with (workDays (regime cfg)) in H by lia.
    by apply H. }
  split; [done|]. unfold s3StartDay. cbv zeta.
  rewrite (findIndex_firstDownDayOf _ _ Hfd).
  change (config (constructor cfg)) with cfg. lia.
Qed.

Lemma X7_first_down_is_workDays_witness :
  ∃ sch, run regime_14x7 = Ok sch ∧
    workDays (regime regime_14x7) < totalDays (constructor regime_14x7) ∧
    firstDownDayOf (s1 sch) (workDays (regime regime_14x7)) ∧
    s3StartDay (constructor regime_14x7) (s1 sch)
    = workDays (regime regime_14x7) - inductionDays regime_14x7 - 1.
Proof.
  apply (X7_first_down_is_workDays regime_14x7); by vm_compute.
Defined.

(** ** What the validator reports *)

Section Validator.

Variable this : ScheduleGenerator.

Lemma elem_of_push_inv {A} (b : bool) (l : list A) x y :
  y ∈ (if b then l ++ [x] else l) → y ∈ l ∨ (b = true ∧ y = x).
Proof.
  destruct b; [|by left]. intros [?|?%list_elem_of_singleton]%elem_of_app; auto.
Qed.

Lemma validateSequence_inv schedule day supervisor errors e :
  e ∈ validateSequence this schedule day supervisor errors →
  e ∈ errors ∨ (e_day e = day ∧ sequenceErrorOf this schedule supervisor e).
Proof.
  unfold validateSequence.
  destruct (bool_decide (day = 0)) eqn:H0; [by left|].
  apply bool_decide_eq_false in H0.
  destruct (Z.geb_spec day (totalDays this - 1)) as [|Hlast]; [by left|].
  cbn [orb]. cbv zeta. intros He.
  apply elem_of_push_inv in He as [He|[Hc ->]].
  apply elem_of_push_inv in He as [He|[Hc ->]].
  apply elem_of_push_inv in He as [He|[Hc ->]].
  apply elem_of_push_inv in He as [He|[Hc ->]].
  - by left.
  - right. split; [done|]. repeat (split; [done|]). left. split; [done|].
    apply andb_true_iff in Hc as [?%bool_decide_eq_true ?%bool_decide_eq_true].
    exists St_S, St_S. unfold forbidden. simpl. intuition.
  - right. split; [done|]. repeat (split; [done|]). left. split; [done|].
    apply andb_true_iff in Hc as [?%bool_decide_eq_true ?%bool_decide_eq_true].
    exists St_S, St_B. unfold forbidden. simpl. intuition.
  - right. split; [done|]. repeat (split; [done|]). left. split; [done|].
    apply andb_true_iff in Hc as [?%bool_decide_eq_true ?%bool_decide_eq_true].
    exists St_B, St_S. unfold forbidden. simpl. intuition.
  - right. split; [done|]. repeat (split; [done|]). right. split; [done|].
    apply andb_true_iff in Hc as [Hc ?%bool_decide_eq_true].
    apply andb_true_iff in Hc as [Hc ?%bool_decide_eq_true].
    apply andb_true_iff in Hc as [?%bool_decide_eq_true ?%bool_decide_eq_true].
    simpl. done.
Qed.

Lemma validateDay_inv a1 a2 a3 counts s3ActiveDay errors day e :
  e ∈ validateDay this a1 a2 a3 counts s3ActiveDay errors day →
  e ∈ errors ∨
  (e_day e = day ∧
   (countErrorOf this counts s3ActiveDay e ∨
    sequenceErrorOf this a1 "S1" e ∨ sequenceErrorOf this a2 "S2" e ∨
    sequenceErrorOf this a3 "S3" e)).
Proof.
  unfold validateDay. cbv zeta. intros He.
  apply validateSequence_inv in He as [He|[? ?]]; [|by auto 6].
  apply validateSequence_inv in He as [He|[? ?]]; [|by auto 6].
  apply validateSequence_inv in He as [He|[? ?]]; [|by auto 6].
  apply elem_of_push_inv in He as [He|[Hc ->]].
  apply elem_of_push_inv in He as [He|[Hc ->]].
  apply elem_of_push_inv in He as [He|[Hc ->]].
  - by left.
  - right. split; [done|]. left. left. split; [done|].
    by apply bool_decide_eq_true in Hc.
  - right. split; [done|]. left. right. left. split; [done|].
    apply andb_true_iff in Hc as [Hc ?%Z.geb_le].
    apply andb_true_iff in Hc as [?%bool_decide_eq_true ?%bool_decide_eq_true].
    simpl. done.
  - right. split; [done|]. left. right. right. split; [done|].
    apply andb_true_iff in Hc as [?%bool_decide_eq_true ?%Z.gtb_lt].
    simpl. split; [done|lia].
Qed.

Lemma validateDays_inv a1 a2 a3 counts s3ActiveDay days errors e :
  e ∈ foldl (validateDay this a1 a2 a3 counts s3ActiveDay) errors days →
  e ∈ errors ∨
  (e_day e ∈ days ∧
   (countErrorOf this counts s3ActiveDay e ∨
    sequenceErrorOf this a1 "S1" e ∨ sequenceErrorOf this a2 "S2" e ∨
    sequenceErrorOf this a3 "S3" e)).
Proof.
  revert errors. induction days as [|d days IH]; intros errors He; [by left|].
  simpl in He. apply IH in He as [He|[Hd He]].
  - apply validateDay_inv in He as [He|[<- He]]; [by left|].
    right. split; [left|done].
  - right. split; [by right|done].
Qed.

Lemma validateSchedule_inv a1 a2 a3 counts e :
  e ∈ validateSchedule this a1 a2 a3 counts →
  0 ≤ e_day e < totalDays this ∧
  (countErrorOf this counts
     (findIndex (fun d => bool_decide (state d ≠ St_Empty)) a3) e ∨
   sequenceErrorOf this a1 "S1" e ∨ sequenceErrorOf this a2 "S2" e ∨
   sequenceErrorOf this a3 "S3" e).
Proof.
  unfold validateSchedule. cbv zeta.
  intros [?%elem_of_nil|[Hd He]]%validateDays_inv; [done|].
  apply elem_of_seqZ in Hd. split; [lia|done].
Qed.

(** A day with one producer, from the day S3 is no longer '-', gets its
    ONE_DRILLING error; a day without producer after day
    [inductionDays + 1] its ZERO_DRILLING error. *)
Lemma validateDay_one a1 a2 a3 counts s3ActiveDay errors day :
  getAt counts day = Some 1 → s3ActiveDay ≠ -1 → s3ActiveDay ≤ day →
  ∃ e, e ∈ validateDay this a1 a2 a3 counts s3ActiveDay errors day ∧
       e_type e = ONE_DRILLING ∧ e_day e = day.
Proof.
  intros Hc Hne Hle. unfold validateDay. cbv zeta. rewrite Hc.
  rewrite (bool_decide_eq_true_2 (Some 1 = Some 1)) by done.
  rewrite (bool_decide_eq_true_2 (s3ActiveDay ≠ -1)) by done.
  replace (day >=? s3ActiveDay) with true by (symmetry; apply Z.geb_le; lia).
  eexists. split.
  - do 3 apply validateSequence_incl. apply elem_of_push.
    apply elem_of_app. right. apply list_elem_of_singleton. reflexivity.
  - done.
Qed.

Lemma validateDay_zero a1 a2 a3 counts s3ActiveDay errors day :
  getAt counts day = Some 0 → inductionDays (config this) + 1 < day →
  ∃ e, e ∈ validateDay this a1 a2 a3 counts s3ActiveDay errors day ∧
       e_type e = ZERO_DRILLING ∧ e_day e = day.
Proof.
  intros Hc Hlt. unfold validateDay. cbv zeta. rewrite Hc.
  rewrite (bool_decide_eq_true_2 (Some 0 = Some 0)) by done.
  replace (day >? inductionDays (config this) + 1) with true
    by (symmetry; apply Z.gtb_lt; lia).
  eexists. split.
  - do 3 apply validateSequence_incl.
    apply elem_of_app. right. apply list_elem_of_singleton. reflexivity.
  - done.
Qed.

Lemma validateDays_reported a1 a2 a3 counts s3ActiveDay days errors day type :
  day ∈ days →
  (∀ errors, ∃ e,
      e ∈ validateDay this a1 a2 a3 counts s3ActiveDay errors day ∧
      e_type e = type ∧ e_day e = day) →
  ∃ e, e ∈ foldl (validateDay this a1 a2 a3 counts s3ActiveDay) errors days ∧
       e_type e = type ∧ e_day e = day.
Proof.
  revert errors. induction days as [|d days IH]; intros errors Hd Hday.
  - by apply elem_of_nil in Hd.
  - simpl. apply elem_of_cons in Hd as [<-|Hd]; [|by apply IH].
    destruct (Hday errors) as (e & He & Ht & Hdy).
    exists e. split; [|done]. by apply validateDays_incl.
Qed.

End Validator.

(** ** Counts and errors of a returned schedule *)

Lemma forbidden_not_lifecycle x y : forbidden x y → ¬ lifecycle x y.
Proof.
  intros [[-> ->]|[[-> ->]|[-> ->]]] H; simpl in H; intuition discriminate.
Qed.

Lemma run_lifecycle cfg sch a :
  run cfg = Ok sch → a = s2 sch ∨ a = s3 sch → followsLifecycle a.
Proof.
  intros E Ha d x y Hx Hy.
  pose proof (run_length _ _ E) as (_ & Hl2 & Hl3).
  pose proof (stateAt_lt _ _ _ Hx). pose proof (stateAt_lt _ _ _ Hy).
  destruct (run_trace cfg sch E (d + 1))
    as (cd & _ & p2 & p3 & x2 & x3 & _ & _ & Hp2 & Hph2 & Hp3 & Hph3 & Hx2 & Hlegal2
        & _ & Hx3 & Hlegal3 & _); [destruct Ha as [-> | ->]; lia|].
  replace (d + 1 - 1) with d in Hp2, Hp3 by lia.
  destruct Ha as [-> | ->].
  - rewrite Hx in Hp2. rewrite Hy in Hx2. simplify_eq.
    by eapply getPossibleActions_lifecycle.
  - rewrite Hx in Hp3. rewrite Hy in Hx3. simplify_eq.
    by eapply getPossibleActions_lifecycle.
Qed.

Lemma run_counts cfg sch d :
  run cfg = Ok sch → 0 ≤ d < totalDays (constructor cfg) →
  getAt (drillersPerDay sch) d = Some (producersOn sch d).
Proof.
  intros E Hd. destruct (run_inversion _ _ E) as (_ & _ & _ & cF & _ & _ & _ & -> & _).
  unfold getAt. destruct (Z.ltb_spec d 0); [lia|].
  unfold calculateDrillersPerDay. rewrite list_lookup_fmap.
  rewrite lookup_seqZ_lt by lia. simpl. rewrite Z2Nat.id by lia.
  unfold producersOn, isDrilling. f_equal.
  repeat case_bool_decide; repeat case_decide; done.
Qed.

Lemma producersOn_range sch d : 0 ≤ producersOn sch d ≤ 3.
Proof. unfold producersOn. repeat case_decide; lia. Qed.

Lemma producersOn_day0 cfg sch : run cfg = Ok sch → producersOn sch 0 = 0.
Proof.
  intros E. destruct (run_day0 _ _ E) as (H1 & H2 & H3).
  unfold producersOn. by rewrite H1, H2, H3.
Qed.

(** X8: count consistency: [drillersPerDay] has one entry per day of the
    horizon, and the entry of day [d] is the number of entities whose state
    on day [d] is DRILLING. *)
Theorem X8_count_consistency (cfg : ScheduleConfig) (sch : Schedule) :
  run cfg = Ok sch →
  Z.of_nat (length (drillersPerDay sch)) = totalDays (constructor cfg) ∧
  ∀ d, 0 ≤ d < totalDays (constructor cfg) →
       getAt (drillersPerDay sch) d = Some (producersOn sch d).
Proof.
  intros E. split; [|intros d Hd; by apply (run_counts cfg)].
  destruct (run_inversion _ _ E) as (HT & _ & _ & cF & _ & _ & _ & -> & _).
  rewrite calculateDrillersPerDay_length. lia.
Qed.

Lemma X8_count_consistency_witness :
  ∃ sch, run regime_2x1 = Ok sch ∧
    Z.of_nat (length (drillersPerDay sch)) = totalDays (constructor regime_2x1) ∧
    ∀ d, 0 ≤ d < totalDays (constructor regime_2x1) →
         getAt (drillersPerDay sch) d = Some (producersOn sch d).
Proof.
  destruct (run regime_2x1) as [sch|] eqn:E; [|by vm_compute in E].
  exists sch. split; [reflexivity|]. exact (X8_count_consistency regime_2x1 sch E).
Defined.

(** The day from which the validator takes entity 3 as active is the entry
    day of the coordinator (day 1 when the entry day is day 0). *)
Lemma run_s3ActiveDay cfg sch d :
  run cfg = Ok sch → 0 ≤ d < totalDays (constructor cfg) →
  let s3ActiveDay :=
    findIndex (fun d => bool_decide (state d ≠ St_Empty)) (s3 sch) in
  (s3ActiveDay ≠ -1 ∧ s3ActiveDay ≤ d)
  ↔ (1 ≤ d ∧ s3StartDay (constructor cfg) (s1 sch) ≤ d).
Proof.
  intros E Hd s3ActiveDay.
  pose proof (run_length _ _ E) as (_ & _ & Hl3).
  assert (∀ j : nat, (j < length (s3 sch))%nat →
            ∃ y, s3 sch !! j = Some y ∧
                 (bool_decide (state y ≠ St_Empty) = false
                  ↔ j = 0%nat ∨ Z.of_nat j < s3StartDay (constructor cfg) (s1 sch)))
    as Hday.
  { intros j Hj. destruct (lookup_lt_is_Some_2 (s3 sch) j Hj) as [y Hy].
    exists y. split; [done|].
    rewrite bool_decide_eq_false.
    assert (0 ≤ Z.of_nat j < totalDays (constructor cfg)) as Hjd by lia.
    pose proof (run_empty_days cfg sch (Z.of_nat j) E Hjd) as Hempty.
    rewrite stateAt_states in Hempty. unfold states in Hempty.
    rewrite list_lookup_fmap, Hy in Hempty.
    change (state <$> Some y) with (Some (state y)) in Hempty.
    split.
    - intros Hne. assert (state y = St_Empty) as Hs
        by (destruct (decide (state y = St_Empty)); [done|by destruct Hne]).
      rewrite Hs in Hempty. destruct Hempty as [Hempty _].
      destruct (Hempty eq_refl); [left|right]; lia.
    - intros Hj' Hne. apply Hne.
      destruct Hempty as [_ Hempty].
      assert (Some (state y) = Some St_Empty) as [= ->]; [|done].
      apply Hempty. lia. }
  destruct (findIndex_from_spec (fun d => bool_decide (state d ≠ St_Empty))
              (s3 sch) 0) as [Hnone Hsome].
  fold (findIndex (fun d => bool_decide (state d ≠ St_Empty)) (s3 sch)) in *.
  fold s3ActiveDay in Hnone, Hsome.
  destruct Hsome as [Hm1|(k & x & Ek & Hk & Hpx & Hmin)]; [done| |].
  - split; [by intros [? _]|]. intros [H1 Hentry]. exfalso.
    destruct (Hday (Z.to_nat d)) as (y & Hy & Hiff); [lia|].
    assert (bool_decide (state y ≠ St_Empty) = false) as Hf.
    { apply Hnone; [done|]. by eapply list_elem_of_lookup_2. }
    apply Hiff in Hf. lia.
  - rewrite Ek. apply lookup_lt_Some in Hk as Hklt.
    destruct (Hday k Hklt) as (y & Hy & Hiff).
    rewrite Hk in Hy. injection Hy as <-.
    assert (¬ (k = 0%nat ∨ Z.of_nat k < s3StartDay (constructor cfg) (s1 sch)))
      as Hnot by (intros H; apply Hiff in H; congruence).
    split.
    + intros [_ Hle]. lia.
    + intros [H1 Hentry]. split; [lia|].
      destruct (Z.le_gt_cases (0 + Z.of_nat k) d) as [|Hlt]; [done|exfalso].
      destruct (Hday (Z.to_nat d)) as (y & Hy & Hiff'); [lia|].
      assert (bool_decide (state y ≠ St_Empty) = false) as Hf
        by (apply (Hmin (Z.to_nat d)); [lia|done]).
      apply Hiff' in Hf. lia.
Qed.

(** X9: the count errors of a returned schedule say what the counts are:
    day [d] has a THREE_DRILLING error exactly when it has 3 producers, a
    ONE_DRILLING error exactly when it has 1 producer and is not before the
    entry day of entity 3, and a ZERO_DRILLING error exactly when it has no
    producer and [d > inductionDays + 1]. *)
Theorem X9_count_errors (cfg : ScheduleConfig) (sch : Schedule) (d : Z) :
  run cfg = Ok sch →
  0 ≤ d < totalDays (constructor cfg) →
  (hasError sch THREE_DRILLING d ↔ producersOn sch d = 3) ∧
  (hasError sch ONE_DRILLING d
   ↔ producersOn sch d = 1 ∧ s3StartDay (constructor cfg) (s1 sch) ≤ d) ∧
  (hasError sch ZERO_DRILLING d
   ↔ producersOn sch d = 0 ∧ inductionDays cfg + 1 < d).
Proof.
  intros E Hd.
  pose proof (run_counts cfg sch d E Hd) as Hcount.
  pose proof (run_s3ActiveDay cfg sch d E Hd) as Hactive. cbv zeta in Hactive.
  destruct (run_inversion _ _ E) as (_ & _ & _ & cF & _ & _ & _ & _ & Herr & _).
  assert (d ∈ seqZ 0 (totalDays (constructor cfg))) as Hin
    by (apply elem_of_seqZ; lia).
  unfold hasError. rewrite Herr.
  split; [|split]; split.
  - intros (e & He & Ht & <-). apply validateSchedule_inv in He as [_ He].
    destruct He as [[[_ Hc]|[[Ht' _]|[Ht' _]]]|[Hs|[Hs|Hs]]];
      try congruence;
      try (destruct Hs as (_ & _ & _ & [[Ht' _]|[Ht' _]]); congruence).
  - intros H3. unfold validateSchedule. cbv zeta.
    apply validateDays_three; [done|]. by rewrite Hcount, H3.
  - intros (e & He & Ht & <-). apply validateSchedule_inv in He as [_ He].
    destruct He as [[[Ht' _]|[[_ (Hc & Hne & Hle)]|[Ht' _]]]|[Hs|[Hs|Hs]]];
      try congruence;
      try (destruct Hs as (_ & _ & _ & [[Ht' _]|[Ht' _]]); congruence).
    split; [congruence|]. apply Hactive. done.
  - intros [H1 Hentry]. unfold validateSchedule. cbv zeta.
    assert (1 ≤ d).
    { destruct (decide (d = 0)) as [->|]; [|lia].
      rewrite (producersOn_day0 cfg sch E) in H1. done. }
    destruct Hactive as [_ [Hne Hle]]; [done|].
    apply validateDays_reported; [done|]. intros errs.
    apply validateDay_one; [by rewrite Hcount, H1|done..].
  - intros (e & He & Ht & <-). apply validateSchedule_inv in He as [_ He].
    destruct He as [[[Ht' _]|[[Ht' _]|[_ [Hc Hlt]]]]|[Hs|[Hs|Hs]]];
      try congruence;
      try (destruct Hs as (_ & _ & _ & [[Ht' _]|[Ht' _]]); congruence).
    split; [congruence|done].
  - intros [H0 Hlt]. unfold validateSchedule. cbv zeta.
    apply validateDays_reported; [done|]. intros errs.
    apply validateDay_zero; [by rewrite Hcount, H0|done].
Qed.

Lemma X9_count_errors_witness :
  ∃ sch, run regime_2x1 = Ok sch ∧
    (hasError sch THREE_DRILLING 5 ↔ producersOn sch 5 = 3) ∧
    (hasError sch ONE_DRILLING 5
     ↔ producersOn sch 5 = 1 ∧ s3StartDay (constructor regime_2x1) (s1 sch) ≤ 5) ∧
    (hasError sch ZERO_DRILLING 5
     ↔ producersOn sch 5 = 0 ∧ inductionDays regime_2x1 + 1 < 5).
Proof.
  destruct (run regime_2x1) as [sch|] eqn:E; [|by vm_compute in E].
  exists sch. split; [reflexivity|].
  apply (X9_count_errors regime_2x1 sch 5 E). by vm_compute.
Defined.

(** ** Sequence errors *)

Lemma fixedPattern_drilling_iff cfg (k : nat) :
  fixedPattern cfg !! k = Some St_P
  ↔ (1 + Z.to_nat (inductionDays cfg) ≤ k
     < 1 + Z.to_nat (inductionDays cfg)
       + Z.to_nat (Z.max 1 (workDays (regime cfg) - inductionDays cfg - 1)))%nat.
Proof.
  unfold fixedPattern.
  set (i := Z.to_nat (inductionDays cfg)).
  set (p := Z.to_nat (Z.max 1 _)).
  set (r := Z.to_nat (Z.max 0 _)).
  destruct k as [|k]; [simpl; split; [done|lia]|]. simpl.
  destruct (decide (k < i)%nat).
  { rewrite lookup_app_l by (by rewrite length_replicate).
    rewrite lookup_replicate_2 by done. split; [done|lia]. }
  rewrite lookup_app_r by (rewrite length_replicate; lia).
  rewrite length_replicate.
  destruct (decide (k - i < p)%nat).
  { rewrite lookup_app_l by (by rewrite length_replicate).
    rewrite lookup_replicate_2 by done. split; [lia|done]. }
  rewrite lookup_app_r by (rewrite length_replicate; lia).
  rewrite length_replicate.
  destruct (k - i - p)%nat as [|m] eqn:Em; simpl; [split; [done|lia]|].
  split; [|lia]. intros [Heq _]%lookup_replicate_1. discriminate.
Qed.

(** With two drilling days or more per cycle, a first DRILLING day of S1 is
    followed by a DRILLING day. *)
Lemma generateFixedSchedule_second_drilling_day this a1 d y :
  generateFixedSchedule this 0 = Ok a1 →
  2 ≤ workDays (regime (config this)) - inductionDays (config this) - 1 →
  stateAt a1 d = Some St_P → stateAt a1 (d - 1) ≠ Some St_P →
  stateAt a1 (d + 1) = Some y → y = St_P.
Proof.
  intros E Hp HP Hprev Hnext.
  pose proof (generateFixedSchedule_bounds this _ _ E) as HT.
  destruct (generateFixedSchedule_Ok this HT) as (a1' & E' & Hlen & _).
  rewrite E in E'. injection E' as <-.
  pose proof (stateAt_lt _ _ _ HP). pose proof (stateAt_lt _ _ _ Hnext).
  set (L := length (fixedPattern (config this))).
  set (i := Z.to_nat (inductionDays (config this))).
  set (p := Z.to_nat (Z.max 1 (workDays (regime (config this))
                               - inductionDays (config this) - 1))).
  assert (i + p + 2 ≤ L)%nat as HL.
  { subst L. unfold fixedPattern. rewrite !length_app, !length_replicate.
    simpl. lia. }
  set (k := (Z.to_nat d mod L)%nat).
  assert (k < L)%nat as HkL by (apply Nat.mod_upper_bound; lia).
  pose proof (Nat.div_mod_eq (Z.to_nat d) L) as Hdm. fold k in Hdm.
  rewrite (generateFixedSchedule_lookup this a1 d E) in HP by lia.
  fold L k in HP. apply fixedPattern_drilling_iff in HP. fold i p in HP.
  assert (1 ≤ d) as Hd1 by lia.
  assert ((Z.to_nat (d - 1) mod L)%nat = (k - 1)%nat) as Hkm.
  { symmetry. apply (Nat.mod_unique _ _ (Z.to_nat d / L)); lia. }
  rewrite (generateFixedSchedule_lookup this a1 (d - 1) E) in Hprev by lia.
  fold L in Hprev. rewrite Hkm in Hprev.
  rewrite fixedPattern_drilling_iff in Hprev. fold i p in Hprev.
  assert (k = (1 + i)%nat) as Hk by lia.
  assert ((Z.to_nat (d + 1) mod L)%nat = (k + 1)%nat) as Hkp.
  { symmetry. apply (Nat.mod_unique _ _ (Z.to_nat d / L)); lia. }
  rewrite (generateFixedSchedule_lookup this a1 (d + 1) E) in Hnext by lia.
  fold L in Hnext. rewrite Hkp in Hnext.
  assert (fixedPattern (config this) !! (k + 1)%nat = Some St_P) as HP'.
  { apply fixedPattern_drilling_iff. fold i p. lia. }
  congruence.
Qed.

(** The sequence errors of a returned schedule. *)
Lemma run_sequence_errors (cfg : ScheduleConfig) (sch : Schedule)
    (e : ScheduleError) :
  run cfg = Ok sch →
  e ∈ errors sch →
  0 ≤ e_day e < totalDays (constructor cfg) ∧
  e_type e ≠ NO_DRILLING ∧
  (e_type e = INVALID_SEQUENCE →
   e_supervisors e = ["S1"] ∧ restDays (regime cfg) ≤ 1 ∧
   stateAt (s1 sch) (e_day e - 1) = Some St_B ∧
   stateAt (s1 sch) (e_day e) = Some St_S) ∧
  (e_type e = SHORT_DRILLING →
   e_supervisors e = ["S1"] ∧
   workDays (regime cfg) - inductionDays cfg - 1 ≤ 1).
Proof.
  intros E He.
  destruct (run_inversion _ _ E) as (HT & E1 & Hl1 & cF & _ & _ & _ & _ & Herr & _).
  pose proof (run_length _ _ E) as (_ & Hl2 & Hl3).
  rewrite Herr in He. apply validateSchedule_inv in He as [Hday He].
  split; [done|].
  assert (∀ a, a = s2 sch ∨ a = s3 sch → ∀ sup,
            sequenceErrorOf (constructor cfg) a sup e → False) as Hreactive.
  { intros a Ha sup (H0 & Hlast & _ & [[_ (x & y & Hx & Hy & Hf)]|
                                       (_ & Hprev & HP & Hn1 & Hn2)]).
    - apply (forbidden_not_lifecycle _ _ Hf).
      apply (run_lifecycle cfg sch a E Ha (e_day e - 1)); [done|].
      by replace (e_day e - 1 + 1) with (e_day e) by lia.
    - assert (Z.to_nat (e_day e + 1) < length a)%nat as Hlt
        by (destruct Ha as [-> | ->]; lia).
      rewrite <- states_length in Hlt.
      destruct (lookup_lt_is_Some_2 _ _ Hlt) as [y Hy].
      assert (stateAt a (e_day e + 1) = Some y) as Hy'
        by (apply stateAt_Some; split; [lia|done]).
      rewrite (drilling_second_day cfg sch E a (e_day e) y Ha HP Hprev Hy') in Hy'.
      done. }
  destruct He as [[[Ht _]|[[Ht _]|[Ht _]]]|[Hs|[Hs|Hs]]];
    try (rewrite Ht; repeat split; done);
    try (exfalso; by eapply Hreactive; [|exact Hs]; auto).
  destruct Hs as (H0 & Hlast & Hsup & [[Ht (x & y & Hx & Hy & Hf)]|
                                       (Ht & Hprev & HP & Hn1 & Hn2)]).
  - rewrite Ht. split; [done|]. split; [|done]. intros _. split; [done|].
    destruct (Z.le_gt_cases (restDays (regime cfg)) 1) as [Hr|Hr].
    + split; [done|].
      pose proof (generateFixedSchedule_fromUp _ _ E1 (e_day e - 1) x y Hx) as Hup.
      replace (e_day e - 1 + 1) with (e_day e) in Hup by lia.
      specialize (Hup Hy). unfold forbiddenFromUp in Hup.
      destruct Hf as [[-> ->]|[[-> ->]|[-> ->]]]; [tauto|tauto|done].
    + exfalso.
      apply (generateFixedSchedule_hardSequence (constructor cfg) (s1 sch) E1)
        with (d := e_day e - 1) (x := x) (y := y); [simpl; lia|done| |done].
      by replace (e_day e - 1 + 1) with (e_day e) by lia.
  - rewrite Ht. split; [done|]. split; [done|]. intros _. split; [done|].
    destruct (Z.le_gt_cases (workDays (regime cfg) - inductionDays cfg - 1) 1)
      as [|Hp]; [done|exfalso].
    assert (Z.to_nat (e_day e + 1) < length (s1 sch))%nat as Hlt by lia.
    rewrite <- states_length in Hlt.
    destruct (lookup_lt_is_Some_2 _ _ Hlt) as [y Hy].
    assert (stateAt (s1 sch) (e_day e + 1) = Some y) as Hy'
      by (apply stateAt_Some; split; [lia|done]).
    rewrite (generateFixedSchedule_second_drilling_day (constructor cfg) (s1 sch)
               (e_day e) y E1) in Hy'; [done|simpl; lia|done..].
Qed.

(** X10: what else the error list of a returned schedule can hold: every
    error is of a day of the horizon; none has the type NO_DRILLING; the
    INVALID_SEQUENCE and SHORT_DRILLING errors name entity 1 alone; an
    INVALID_SEQUENCE error needs [restDays ≤ 1] and is a DOWN day followed
    by an UP day; a SHORT_DRILLING error needs
    [workDays - inductionDays - 1 ≤ 1]. *)
Theorem X10_sequence_errors (cfg : ScheduleConfig) (sch : Schedule)
    (e : ScheduleError) :
  run cfg = Ok sch →
  e ∈ errors sch →
  0 ≤ e_day e < totalDays (constructor cfg) ∧
  e_type e ≠ NO_DRILLING ∧
  (e_type e = INVALID_SEQUENCE →
   e_supervisors e = ["S1"] ∧ restDays (regime cfg) ≤ 1 ∧
   stateAt (s1 sch) (e_day e - 1) = Some St_B ∧
   stateAt (s1 sch) (e_day e) = Some St_S) ∧
  (e_type e = SHORT_DRILLING →
   e_supervisors e = ["S1"] ∧
   workDays (regime cfg) - inductionDays cfg - 1 ≤ 1).
Proof. exact (run_sequence_errors cfg sch e). Qed.

Lemma X10_sequence_errors_witness :
  ∃ sch e, run regime_2x1 = Ok sch ∧ e ∈ errors sch ∧
    e_type e = INVALID_SEQUENCE ∧
    0 ≤ e_day e < totalDays (constructor regime_2x1) ∧
    e_type e ≠ NO_DRILLING ∧
    (e_type e = INVALID_SEQUENCE →
     e_supervisors e = ["S1"] ∧ restDays (regime regime_2x1) ≤ 1 ∧
     stateAt (s1 sch) (e_day e - 1) = Some St_B ∧
     stateAt (s1 sch) (e_day e) = Some St_S) ∧
    (e_type e = SHORT_DRILLING →
     e_supervisors e = ["S1"] ∧
     workDays (regime regime_2x1) - inductionDays regime_2x1 - 1 ≤ 1).
Proof.
  destruct (run regime_2x1) as [sch|] eqn:E; [|by vm_compute in E].
  assert (∃ e, e ∈ errors sch ∧ e_type e = INVALID_SEQUENCE) as (e & He & Ht).
  { vm_compute in E. injection E as <-. eexists. split; [|shelve].
    simpl. do 3 right. left. Unshelve. reflexivity. }
  exists sch, e. split; [reflexivity|]. split; [exact He|]. split; [exact Ht|].
  exact (X10_sequence_errors regime_2x1 sch e E He).
Defined.

(** ** The statistics *)

Lemma occurrences_cons k c l :
  occurrences k (c :: l) = (if decide (c = k) then 1 else 0) + occurrences k l.
Proof.
  unfold occurrences. rewrite filter_cons. case_decide; simpl length; lia.
Qed.

(** The first loop of [calculateStats] counts, in each counter, the entries
    equal to the counter's number. *)
Lemma tally_fold l t :
  daysWithTwo (foldl tallyDay t l) = daysWithTwo t + occurrences 2 l ∧
  daysWithOne (foldl tallyDay t l) = daysWithOne t + occurrences 1 l ∧
  daysWithThree (foldl tallyDay t l) = daysWithThree t + occurrences 3 l ∧
  daysWithZero (foldl tallyDay t l) = daysWithZero t + occurrences 0 l.
Proof.
  revert t. induction l as [|c l IH]; intros t.
  - unfold occurrences. simpl. lia.
  - simpl foldl. destruct (IH (tallyDay t c)) as (H2 & H1 & H3 & H0).
    rewrite H2, H1, H3, H0, !occurrences_cons. unfold tallyDay.
    destruct (Z.eqb_spec c 2) as [->|?]; [simpl; repeat case_decide; lia|].
    destruct (Z.eqb_spec c 1) as [->|?]; [simpl; repeat case_decide; lia|].
    destruct (Z.eqb_spec c 3) as [->|?]; [simpl; repeat case_decide; lia|].
    destruct (Z.eqb_spec c 0) as [->|?]; simpl; repeat case_decide; lia.
Qed.

Lemma occurrences_total l :
  (∀ c, c ∈ l → 0 ≤ c ≤ 3) →
  occurrences 0 l + occurrences 1 l + occurrences 2 l + occurrences 3 l
  = Z.of_nat (length l).
Proof.
  induction l as [|c l IH]; intros Hl; [done|].
  rewrite !occurrences_cons. simpl length.
  assert (0 ≤ c ≤ 3) by (apply Hl; left).
  assert (∀ c, c ∈ l → 0 ≤ c ≤ 3) as Hl' by (intros; apply Hl; by right).
  specialize (IH Hl'). repeat case_decide; lia.
Qed.

Lemma occurrences_fmap {A} (f : A → Z) k (l : list A) :
  occurrences k (f <$> l)
  = Z.of_nat (length (filter (fun x => f x = k) l)).
Proof.
  unfold occurrences. induction l as [|x l IH]; [done|].
  rewrite fmap_cons, !filter_cons. case_decide; simpl length; lia.
Qed.

Lemma run_counts_list cfg sch :
  run cfg = Ok sch →
  drillersPerDay sch = producersOn sch <$> seqZ 0 (totalDays (constructor cfg)).
Proof.
  intros E. destruct (run_inversion _ _ E) as (_ & _ & _ & cF & _ & _ & _ & -> & _).
  unfold calculateDrillersPerDay. apply list_fmap_ext. intros _ d _.
  unfold producersOn, isDrilling.
  repeat case_bool_decide; repeat case_decide; done.
Qed.

(** X11: the statistics record the horizon, each of the four counters is the
    number of days of the horizon with that many producers, and the four
    counters add up to the horizon: every day is counted once. *)
Theorem X11_stats_buckets (cfg : ScheduleConfig) (sch : Schedule) :
  run cfg = Ok sch →
  ∃ st, stats sch = Some st ∧
    st_totalDays st = totalDays (constructor cfg) ∧
    daysWithZeroDrillers st
      = daysWithProducers sch (totalDays (constructor cfg)) 0 ∧
    daysWithOneDriller st
      = daysWithProducers sch (totalDays (constructor cfg)) 1 ∧
    daysWithTwoDrillers st
      = daysWithProducers sch (totalDays (constructor cfg)) 2 ∧
    daysWithThreeDrillers st
      = daysWithProducers sch (totalDays (constructor cfg)) 3 ∧
    daysWithZeroDrillers st + daysWithOneDriller st + daysWithTwoDrillers st
      + daysWithThreeDrillers st = totalDays (constructor cfg).
Proof.
  intros E.
  destruct (run_inversion _ _ E) as (HT & _ & _ & cF & _ & _ & _ & _ & _ & ->).
  eexists. split; [reflexivity|].
  unfold calculateStats.
  cbn [st_totalDays daysWithZeroDrillers daysWithOneDriller daysWithTwoDrillers
       daysWithThreeDrillers].
  destruct (tally_fold (drillersPerDay sch)
              {| daysWithTwo := 0; daysWithOne := 0; daysWithThree := 0;
                 daysWithZero := 0 |}) as (H2 & H1 & H3 & H0).
  rewrite H2, H1, H3, H0. cbn [daysWithTwo daysWithOne daysWithThree daysWithZero].
  rewrite !Z.add_0_l.
  assert (occurrences 0 (drillersPerDay sch) + occurrences 1 (drillersPerDay sch)
          + occurrences 2 (drillersPerDay sch) + occurrences 3 (drillersPerDay sch)
          = totalDays (constructor cfg)) as Hsum.
  { rewrite occurrences_total.
    - rewrite (run_counts_list _ _ E), length_fmap, length_seqZ. lia.
    - intros c. rewrite (run_counts_list _ _ E).
      intros (d & -> & _)%list_elem_of_fmap. apply producersOn_range. }
  rewrite (run_counts_list _ _ E) in *. rewrite !occurrences_fmap in *.
  unfold daysWithProducers. repeat split; (done || lia).
Qed.

Lemma X11_stats_buckets_witness :
  ∃ sch, run regime_2x1 = Ok sch ∧
  ∃ st, stats sch = Some st ∧
    st_totalDays st = totalDays (constructor regime_2x1) ∧
    daysWithZeroDrillers st
      = daysWithProducers sch (totalDays (constructor regime_2x1)) 0 ∧
    daysWithOneDriller st
      = daysWithProducers sch (totalDays (constructor regime_2x1)) 1 ∧
    daysWithTwoDrillers st
      = daysWithProducers sch (totalDays (constructor regime_2x1)) 2 ∧
    daysWithThreeDrillers st
      = daysWithProducers sch (totalDays (constructor regime_2x1)) 3 ∧
    daysWithZeroDrillers st + daysWithOneDriller st + daysWithTwoDrillers st
      + daysWithThreeDrillers st = totalDays (constructor regime_2x1).
Proof.
  destruct (run regime_2x1) as [sch|] eqn:E; [|by vm_compute in E].
  exists sch. split; [reflexivity|].
  exact (X11_stats_buckets regime_2x1 sch E).
Defined.

(** ** The outcome of a run *)

Lemma run_outcome (cfg : ScheduleConfig) :
  ((∃ sch, run cfg = Ok sch) ↔ 1 ≤ totalDays (constructor cfg) < 2 ^ 32) ∧
  (run cfg = Throw TypeError ↔ totalDays (constructor cfg) = 0) ∧
  (run cfg = Throw RangeError
   ↔ totalDays (constructor cfg) < 0 ∨ 2 ^ 32 ≤ totalDays (constructor cfg)) ∧
  run cfg ≠ Throw OutOfFuel.
Proof.
  unfold run.
  destruct (Z.le_gt_cases 1 (totalDays (constructor cfg))) as [HT|HT].
  - destruct (Z.le_gt_cases (2 ^ 32) (totalDays (constructor cfg))) as [Hlong|Hmax].
    + rewrite (generateSchedule_Throw_long (constructor cfg)) by done.
      split; [split; [by intros [? ?]|lia]|].
      split; [split; [done|lia]|].
      split; [split; [by right|done]|done].
    + destruct (generateSchedule_Ok (constructor cfg)) as (a1 & cF & _ & _ & E);
        [lia|].
      rewrite E.
      split; [split; [lia|by eexists]|].
      split; [split; [done|lia]|].
      split; [split; [done|lia]|done].
  - rewrite (generateSchedule_Throw (constructor cfg)) by lia.
    destruct (Z.ltb_spec (totalDays (constructor cfg)) 0).
    + split; [split; [by intros [? ?]|lia]|].
      split; [split; [done|lia]|].
      split; [split; [by left|done]|done].
    + split; [split; [by intros [? ?]|lia]|].
      split; [split; [lia|done]|].
      split; [split; [done|lia]|done].
Qed.

(** X12: the outcome of a run is decided by the horizon alone: the run
    returns a schedule exactly when the horizon has at least one day and
    fewer than 2^32 (the lengths an array can have), it throws a TypeError
    exactly when the horizon is 0 and a RangeError exactly when the horizon
    is negative or 2^32 or more; the loop of the fixed regime always ends. *)
Theorem X12_run_outcome (cfg : ScheduleConfig) :
  ((∃ sch, run cfg = Ok sch) ↔ 1 ≤ totalDays (constructor cfg) < 2 ^ 32) ∧
  (run cfg = Throw TypeError ↔ totalDays (constructor cfg) = 0) ∧
  (run cfg = Throw RangeError
   ↔ totalDays (constructor cfg) < 0 ∨ 2 ^ 32 ≤ totalDays (constructor cfg)) ∧
  run cfg ≠ Throw OutOfFuel.
Proof. exact (run_outcome cfg). Qed.

(** ** The input form *)

Lemma formConfig_horizon w r i t priorities :
  7 ≤ w ≤ 30 → 3 ≤ r ≤ 15 → 1 ≤ i ≤ 5 → 10 ≤ t ≤ 365 →
  2 * (w + r) ≤ totalDays (constructor (formConfig w r i t priorities))
    ≤ 2 * t * (w + r).
Proof.
  intros Hw Hr Hi Ht. unfold constructor, formConfig. cbn.
  set (b := Z.max 1 (w - i - 1)).
  assert (1 ≤ b) as Hb by (unfold b; lia).
  destruct (ceil_div_isCeilOf t b) as [Hlo Hhi]; [lia|].
  set (c := ceil_div t b) in *.
  assert (1 ≤ c) by nia.
  assert (c ≤ t) by nia.
  nia.
Qed.

Lemma checkInputs_None w r i t :
  checkInputs w r i t = None
  ↔ 7 ≤ w ≤ 30 ∧ 3 ≤ r ≤ 15 ∧ 1 ≤ i ≤ 5 ∧ 10 ≤ t ≤ 365.
Proof.
  unfold checkInputs.
  destruct (Z.ltb_spec w 7), (Z.gtb_spec w 30); cbn [orb]; try (split; [done|lia]);
  destruct (Z.ltb_spec r 3), (Z.gtb_spec r 15); cbn [orb]; try (split; [done|lia]);
  destruct (Z.ltb_spec i 1), (Z.gtb_spec i 5); cbn [orb]; try (split; [done|lia]);
  destruct (Z.ltb_spec t 10), (Z.gtb_spec t 365); cbn [orb];
    try (split; [done|lia]).
  split; [lia|done].
Qed.

(** X13: with inputs in the ranges the form accepts (work days 7..30, rest
    days 3..15, induction days 1..5, drilling days 10..365) the handler runs
    the engine and the engine returns a schedule; its horizon is between
    [2 * (workDays + restDays)] and
    [2 * totalDrillingDays * (workDays + restDays)] days, and its error list
    holds no INVALID_SEQUENCE error. *)
Theorem X13_form_inputs (w r i t : Z) (priorities : AlgorithmPriorities) :
  7 ≤ w ≤ 30 → 3 ≤ r ≤ 15 → 1 ≤ i ≤ 5 → 10 ≤ t ≤ 365 →
  ∃ sch,
    handleGenerateSchedule w r i t priorities = inr (Ok sch) ∧
    Z.of_nat (length (s1 sch))
      = totalDays (constructor (formConfig w r i t priorities)) ∧
    2 * (w + r) ≤ Z.of_nat (length (s1 sch)) ≤ 2 * t * (w + r) ∧
    (∀ e, e ∈ errors sch → e_type e ≠ INVALID_SEQUENCE).
Proof.
  intros Hw Hr Hi Ht. unfold handleGenerateSchedule.
  rewrite (proj2 (checkInputs_None w r i t)) by done.
  pose proof (formConfig_horizon w r i t priorities Hw Hr Hi Ht) as HT.
  destruct (proj2 (proj1 (run_outcome (formConfig w r i t priorities)))) as [sch E];
    [nia|].
  exists sch. split; [by rewrite E|].
  pose proof (run_length _ _ E) as (Hl1 & _).
  split; [lia|]. split; [lia|].
  intros e He Hty.
  destruct (run_sequence_errors _ _ e E He) as (_ & _ & Hinv & _).
  destruct (Hinv Hty) as (_ & Hrest & _). simpl in Hrest. lia.
Qed.

Lemma X13_form_inputs_witness :
  ∃ sch,
    handleGenerateSchedule 14 7 5 30 DEFAULT_PRIORITIES = inr (Ok sch) ∧
    Z.of_nat (length (s1 sch))
      = totalDays (constructor (formConfig 14 7 5 30 DEFAULT_PRIORITIES)) ∧
    2 * (14 + 7) ≤ Z.of_nat (length (s1 sch)) ≤ 2 * 30 * (14 + 7) ∧
    (∀ e, e ∈ errors sch → e_type e ≠ INVALID_SEQUENCE).
Proof.
  apply (X13_form_inputs 14 7 5 30 DEFAULT_PRIORITIES); lia.
Defined.

(** ** The priority levels *)

(** X14: [isPriorityEqualOrHigher] orders the three levels, low below medium
    below high: it is reflexive, total, antisymmetric and transitive, high is
    above and low is below every level, and [isPriorityHigher] is its strict
    part. *)
Theorem X14_priority_order (p q r : PriorityLevel) :
  isPriorityEqualOrHigher p p = true ∧
  isPriorityEqualOrHigher p q || isPriorityEqualOrHigher q p = true ∧
  isPriorityEqualOrHigher p q && isPriorityEqualOrHigher q p
    = bool_decide (p = q) ∧
  implb (isPriorityEqualOrHigher p q && isPriorityEqualOrHigher q r)
        (isPriorityEqualOrHigher p r) = true ∧
  isPriorityEqualOrHigher high p = true ∧
  isPriorityEqualOrHigher p low = true ∧
  isPriorityHigher p q = negb (isPriorityEqualOrHigher q p).
Proof. destruct p, q, r; repeat split. Qed.

(** ** The fixed regime from a later day *)

Section FixedFrom.

Variable this : ScheduleGenerator.

Lemma Written_replicate schedule (k : nat) :
  Written this schedule [] → (k ≤ Z.to_nat (totalDays this))%nat →
  Written this schedule (replicate k St_Empty).
Proof.
  intros (Hlen & Hst & _) Hk. split; [done|]. split; [|by rewrite length_replicate].
  rewrite Hst, length_replicate. simpl. rewrite Nat.sub_0_r, <- replicate_add.
  f_equal. lia.
Qed.

Lemma generateFixedSchedule_from startDay :
  0 ≤ totalDays this < 2 ^ 32 →
  ∃ a, generateFixedSchedule this startDay = Ok a ∧
       length a = Z.to_nat (totalDays this) ∧
       states a =
         if startDay <? 0 then replicate (Z.to_nat (totalDays this)) St_Empty
         else take (Z.to_nat (totalDays this))
                (replicate (Z.to_nat startDay) St_Empty
                 ++ repeated (Z.to_nat (totalDays this))
                      (fixedPattern (config this))).
Proof.
  intros HT. unfold generateFixedSchedule.
  destruct (createEmptySchedule_Written this HT) as (schedule & -> & HW).
  cbn [bind].
  assert (states schedule = replicate (Z.to_nat (totalDays this)) St_Empty)
    as Hempty.
  { destruct HW as (_ & -> & _). simpl. by rewrite Nat.sub_0_r. }
  destruct (Z.ltb_spec startDay 0) as [Hneg|Hpos].
  { exists schedule. split; [done|]. split; [by destruct HW|done]. }
  destruct (Z.le_gt_cases (totalDays this) startDay) as [Hlate|Hin].
  - exists schedule. split.
    + destruct (Z.to_nat (totalDays this)); simpl;
        by destruct (Z.ltb_spec startDay (totalDays this)); [lia|].
    + split; [by destruct HW|].
      rewrite take_app_le by (rewrite length_replicate; lia).
      rewrite take_replicate, Hempty. f_equal. lia.
  - pose proof (Written_replicate schedule (Z.to_nat startDay) HW) as HW'.
    destruct (fixedLoop_fuel this (Z.to_nat (totalDays this)) schedule
                (replicate (Z.to_nat startDay) St_Empty)) as (a & E & HWa & Hfull).
    { apply HW'. lia. }
    { lia. }
    rewrite length_replicate, Z2Nat.id in E by lia.
    exists a. split; [done|]. split; [by destruct HWa|].
    rewrite (Written_full this _ _ HWa Hfull). unfold extend.
    rewrite take_app_ge by (rewrite length_replicate; lia).
    by rewrite length_replicate.
Qed.

End FixedFrom.

(** X17: [generateFixedSchedule(startDay)] returns for every horizon
    [0 ≤ totalDays < 2^32] (the lengths an array can have) and every
    [startDay]; the result has the length of the horizon; for a negative
    [startDay] every day is '-', otherwise the first [startDay] days are '-'
    and the pattern UP, INDUCTION.., DRILLING.., DOWN, REST.. is repeated
    from day [startDay] on, cut at the horizon. *)
Theorem X17_fixed_schedule_from (this : ScheduleGenerator) (startDay : Z) :
  0 ≤ totalDays this < 2 ^ 32 →
  ∃ a, generateFixedSchedule this startDay = Ok a ∧
       length a = Z.to_nat (totalDays this) ∧
       states a =
         if startDay <? 0 then replicate (Z.to_nat (totalDays this)) St_Empty
         else take (Z.to_nat (totalDays this))
                (replicate (Z.to_nat startDay) St_Empty
                 ++ repeated (Z.to_nat (totalDays this))
                      (fixedPattern (config this))).
Proof. exact (generateFixedSchedule_from this startDay). Qed.

Lemma X17_fixed_schedule_from_witness :
  ∃ a, generateFixedSchedule (constructor regime_2x1) 3 = Ok a ∧
       length a = Z.to_nat (totalDays (constructor regime_2x1)) ∧
       states a =
         if 3 <? 0
         then replicate (Z.to_nat (totalDays (constructor regime_2x1))) St_Empty
         else take (Z.to_nat (totalDays (constructor regime_2x1)))
                (replicate (Z.to_nat 3) St_Empty
                 ++ repeated (Z.to_nat (totalDays (constructor regime_2x1)))
                      (fixedPattern (config (constructor regime_2x1)))).
Proof.
  apply (X17_fixed_schedule_from (constructor regime_2x1) 3).
  split; vm_compute; (reflexivity || discriminate).
Defined.

(** ** The cycles of entity 2 *)

Lemma filter_ext_elem {A} (P Q : A → Prop) `{!∀ x, Decision (P x)}
    `{!∀ x, Decision (Q x)} (l : list A) :
  (∀ x, x ∈ l → (P x ↔ Q x)) → filter P l = filter Q l.
Proof.
  induction l as [|x l IH]; intros Hext; [done|].
  rewrite !filter_cons.
  assert (P x ↔ Q x) as Hx by (apply Hext; left).
  rewrite IH by (intros; apply Hext; by right).
  destruct (decide (P x)), (decide (Q x)); tauto.
Qed.

Lemma length_filter_fmap {A B} (f : A → B) (P : B → Prop)
    `{!∀ y, Decision (P y)} (l : list A) :
  length (filter P (f <$> l)) = length (filter (fun x => P (f x)) l).
Proof.
  induction l as [|x l IH]; [done|].
  rewrite fmap_cons, !filter_cons. case_decide; simpl; by rewrite IH.
Qed.

(** In a returned schedule no UP day of entity 2 follows an UP day, so the
    filter of [calculateStats] keeps every UP day. *)
Lemma run_s2Cycles cfg sch :
  run cfg = Ok sch →
  ∃ st, stats sch = Some st ∧
    s2Cycles st
      = Z.of_nat (length (filter (fun x => x = St_S) (states (s2 sch)))) ∧
    1 ≤ s2Cycles st.
Proof.
  intros E.
  destruct (run_inversion _ _ E) as (HT & _ & _ & cF & _ & _ & _ & _ & _ & ->).
  pose proof (run_length _ _ E) as (_ & Hl2 & _).
  eexists. split; [reflexivity|]. unfold calculateStats. cbn [s2Cycles].
  assert (filter
            (fun id : Z * DayState =>
               state id.2 = St_S
               ∧ (id.1 = 0 ∨ stateAt (s2 sch) (id.1 - 1) ≠ Some St_S))
            (zip (seqZ 0 (Z.of_nat (length (s2 sch)))) (s2 sch))
          = filter (fun id : Z * DayState => state id.2 = St_S)
              (zip (seqZ 0 (Z.of_nat (length (s2 sch)))) (s2 sch))) as ->.
  { apply filter_ext_elem. intros [i x] Hix.
    apply elem_of_lookup_zip_with_1 in Hix as (j & i' & x' & [= -> ->] & Hi & Hx).
    apply lookup_seqZ in Hi as [-> Hj]. cbn [fst snd].
    split; [tauto|]. intros HS. split; [done|].
    destruct j as [|j]; [by left|right]. intros Hprev.
    assert (stateAt (s2 sch) (Z.of_nat j + 1) = Some St_S) as Hcur.
    { replace (Z.of_nat j + 1) with (Z.of_nat (S j)) by lia.
      unfold stateAt. rewrite getAt_of_nat, Hx. simpl. by rewrite HS. }
    replace (0 + Z.of_nat (S j) - 1) with (Z.of_nat j) in Hprev by lia.
    pose proof (run_lifecycle cfg sch (s2 sch) E (or_introl eq_refl)
                  (Z.of_nat j) St_S St_S Hprev Hcur) as Hlife.
    simpl in Hlife. intuition discriminate. }
  assert (length (filter (fun id : Z * DayState => state id.2 = St_S)
                    (zip (seqZ 0 (Z.of_nat (length (s2 sch)))) (s2 sch)))
          = length (filter (fun x => x = St_S) (states (s2 sch)))) as ->.
  { unfold states.
    rewrite <- (snd_zip (seqZ 0 (Z.of_nat (length (s2 sch)))) (s2 sch)) at 3
      by (rewrite length_seqZ; lia).
    rewrite <- list_fmap_compose.
    by rewrite (length_filter_fmap (state ∘ snd) (fun x => x = St_S)). }
  split; [done|].
  destruct (run_day0 _ _ E) as (_ & H0 & _).
  change 0 with (Z.of_nat 0) in H0. rewrite stateAt_states in H0.
  destruct (states (s2 sch)) as [|x l]; [done|]. simpl in H0. injection H0 as ->.
  rewrite filter_cons_True by done. simpl length. lia.
Qed.

(** X18: the statistic [s2Cycles] of a returned schedule is the number of UP
    days of entity 2, and it is at least 1. *)
Theorem X18_s2Cycles (cfg : ScheduleConfig) (sch : Schedule) :
  run cfg = Ok sch →
  ∃ st, stats sch = Some st ∧
    s2Cycles st
      = Z.of_nat (length (filter (fun x => x = St_S) (states (s2 sch)))) ∧
    1 ≤ s2Cycles st.
Proof. exact (run_s2Cycles cfg sch). Qed.

Lemma X18_s2Cycles_witness :
  ∃ sch, run regime_2x1 = Ok sch ∧
  ∃ st, stats sch = Some st ∧
    s2Cycles st
      = Z.of_nat (length (filter (fun x => x = St_S) (states (s2 sch)))) ∧
    1 ≤ s2Cycles st.
Proof.
  destruct (run regime_2x1) as [sch|] eqn:E; [|by vm_compute in E].
  exists sch. split; [reflexivity|].
  exact (X18_s2Cycles regime_2x1 sch E).
Defined.

(** ** The order of the error list *)

Section ErrorOrder.

Variable this : ScheduleGenerator.

Lemma push_if (b : bool) (errors : list ScheduleError) e :
  (if b then errors ++ [e] else errors) = errors ++ (if b then [e] else []).
Proof. destruct b; [done|by rewrite app_nil_r]. Qed.

(** [validateSequence] appends to the list, and only errors of its day. *)
Lemma validateSequence_app schedule day supervisor errors :
  ∃ new, validateSequence this schedule day supervisor errors = errors ++ new ∧
         ∀ e, e ∈ new → e_day e = day.
Proof.
  unfold validateSequence.
  destruct (bool_decide (day = 0) || (day >=? totalDays this - 1)).
  { exists []. split; [by rewrite app_nil_r|]. by intros e ?%elem_of_nil. }
  cbv zeta. rewrite !push_if, <- !app_assoc.
  eexists. split; [reflexivity|]. pushed_days.
Qed.

(** So does the body of the loop of [validateSchedule]. *)
Lemma validateDay_app a1 a2 a3 counts s3ActiveDay errors day :
  ∃ new,
    validateDay this a1 a2 a3 counts s3ActiveDay errors day = errors ++ new ∧
    ∀ e, e ∈ new → e_day e = day.
Proof.
  unfold validateDay. cbv zeta. rewrite !push_if.
  match goal with
  | |- context [validateSequence this a1 day "S1" ?l] =>
      destruct (validateSequence_app a1 day "S1" l) as (n1 & -> & H1)
  end.
  match goal with
  | |- context [validateSequence this a2 day "S2" ?l] =>
      destruct (validateSequence_app a2 day "S2" l) as (n2 & -> & H2)
  end.
  match goal with
  | |- context [validateSequence this a3 day "S3" ?l] =>
      destruct (validateSequence_app a3 day "S3" l) as (n3 & -> & H3)
  end.
  rewrite <- !app_assoc. eexists. split; [reflexivity|].
  intros e He.
  repeat (apply elem_of_app in He as [He|He]); auto;
  repeat match goal with
         | H : _ ∈ (if ?b then _ else _) |- _ => destruct b
         end;
  try (by apply elem_of_nil in He);
  apply list_elem_of_singleton in He; by subst e.
Qed.

Lemma chronological_app errors new d :
  chronological errors → (∀ e, e ∈ errors → e_day e ≤ d) →
  (∀ e, e ∈ new → e_day e = d) →
  chronological (errors ++ new) ∧ (∀ e, e ∈ errors ++ new → e_day e ≤ d).
Proof.
  intros Hc Hle Hnew. split.
  - intros i j e e' [Hi|[Hlen Hi]]%lookup_app_Some [Hj|[Hij Hj]]%lookup_app_Some Hle'.
    + by eapply Hc.
    + apply list_elem_of_lookup_2 in Hi, Hj.
      rewrite (Hnew _ Hj). by apply Hle.
    + apply lookup_lt_Some in Hj. lia.
    + apply list_elem_of_lookup_2 in Hi, Hj. rewrite (Hnew _ Hi), (Hnew _ Hj). lia.
  - intros e [He|He]%elem_of_app; [by apply Hle|]. rewrite (Hnew _ He). lia.
Qed.

Lemma validateDays_chronological a1 a2 a3 counts s3ActiveDay (n : nat) m errors :
  chronological errors → (∀ e, e ∈ errors → e_day e ≤ m) →
  chronological
    (foldl (validateDay this a1 a2 a3 counts s3ActiveDay) errors
       (seqZ m (Z.of_nat n))).
Proof.
  revert m errors. induction n as [|n IH]; intros m errors Hc Hle; [done|].
  rewrite seqZ_cons by lia.
  replace (Z.pred (Z.of_nat (S n))) with (Z.of_nat n) by lia.
  simpl foldl.
  destruct (validateDay_app a1 a2 a3 counts s3ActiveDay errors m)
    as (new & -> & Hnew).
  destruct (chronological_app errors new m Hc Hle Hnew) as [Hc' Hle'].
  apply IH; [done|]. intros e He. specialize (Hle' e He). lia.
Qed.

Lemma validateSchedule_chronological a1 a2 a3 counts :
  chronological (validateSchedule this a1 a2 a3 counts).
Proof.
  unfold validateSchedule. cbv zeta.
  destruct (Z.le_gt_cases 0 (totalDays this)) as [HT|HT].
  - rewrite <- (Z2Nat.id (totalDays this)) by done.
    apply validateDays_chronological.
    + intros i j e e' Hi%list_elem_of_lookup_2. by apply elem_of_nil in Hi.
    + by intros e ?%elem_of_nil.
  - rewrite seqZ_nil by lia. intros i j e e' Hi%list_elem_of_lookup_2. by apply elem_of_nil in Hi.
Qed.

End ErrorOrder.

(** X15: [validateSchedule] returns its errors in the order of their days:
    an error never comes before an error of an earlier day, whatever the
    three sequences and the counts are. *)
Theorem X15_errors_chronological (this : ScheduleGenerator)
    (a1 a2 a3 : list DayState) (counts : list Z) :
  chronological (validateSchedule this a1 a2 a3 counts).
Proof. exact (validateSchedule_chronological this a1 a2 a3 counts). Qed.

(** ** The [day] field *)

Section Indexed.

Variable this : ScheduleGenerator.

(** A write of a state leaves every [day] field as it is. *)
Lemma setState_days schedule i x schedule' :
  setState schedule i x = Ok schedule' → day <$> schedule' = day <$> schedule.
Proof.
  unfold setState. destruct (getAt schedule i) as [d|] eqn:E; [|done].
  intros [= <-]. apply getAt_Some in E as [_ E].
  rewrite list_fmap_insert. cbn [day]. apply list_insert_id.
  by rewrite list_lookup_fmap, E.
Qed.

Lemma fillDays_days x rounds schedule d schedule' d' :
  fillDays this x rounds schedule d = Ok (schedule', d') →
  day <$> schedule' = day <$> schedule.
Proof.
  revert schedule d. induction rounds as [|rounds IH]; intros schedule d H.
  - by injection H as <- <-.
  - simpl in H. destruct (d <? totalDays this); [|by injection H as <- <-].
    bind_inv H. rewrite (IH _ _ H). by eapply setState_days.
Qed.

Lemma fixedCycle_days schedule d schedule' d' :
  fixedCycle this schedule d = Ok (schedule', d') →
  day <$> schedule' = day <$> schedule.
Proof.
  unfold fixedCycle. cbv zeta. intros H.
  destruct (fillDays this St_S 1 schedule d) as [[a1 d1]|] eqn:E1;
    cbn [bind] in H; [|done].
  destruct (fillDays this St_I _ a1 d1) as [[a2 d2]|] eqn:E2;
    cbn [bind] in H; [|done].
  destruct (fillDays this St_P _ a2 d2) as [[a3 d3]|] eqn:E3;
    cbn [bind] in H; [|done].
  destruct (fillDays this St_B 1 a3 d3) as [[a4 d4]|] eqn:E4;
    cbn [bind] in H; [|done].
  rewrite (fillDays_days _ _ _ _ _ _ H), (fillDays_days _ _ _ _ _ _ E4),
    (fillDays_days _ _ _ _ _ _ E3), (fillDays_days _ _ _ _ _ _ E2).
  exact (fillDays_days _ _ _ _ _ _ E1).
Qed.

Lemma fixedLoop_days fuel schedule d schedule' :
  fixedLoop this fuel schedule d = Ok schedule' →
  day <$> schedule' = day <$> schedule.
Proof.
  revert schedule d. induction fuel as [|fuel IH]; intros schedule d H; simpl in H;
    destruct (d <? totalDays this); try done; try (by injection H as <-).
  destruct (fixedCycle this schedule d) as [[a1 d1]|] eqn:E1;
    cbn [bind] in H; [|done].
  rewrite (IH _ _ H). by eapply fixedCycle_days.
Qed.

Lemma createEmptySchedule_days schedule :
  createEmptySchedule this = Ok schedule →
  day <$> schedule = seqZ 0 (totalDays this).
Proof.
  unfold createEmptySchedule.
  destruct ((totalDays this <? 0) || (totalDays this >=? 2 ^ 32)); [done|].
  intros [= <-]. rewrite <- list_fmap_compose.
  rewrite <- (list_fmap_id (seqZ 0 (totalDays this))) at 2.
  by apply list_fmap_ext.
Qed.

Lemma generateFixedSchedule_days startDay schedule :
  generateFixedSchedule this startDay = Ok schedule →
  day <$> schedule = seqZ 0 (totalDays this).
Proof.
  unfold generateFixedSchedule. intros H.
  destruct (createEmptySchedule this) as [a0|] eqn:E0; cbn [bind] in H; [|done].
  apply createEmptySchedule_days in E0.
  destruct (startDay <? 0); [by injection H as <-|].
  by rewrite (fixedLoop_days _ _ _ _ H).
Qed.

Lemma coordinateDay_days s1 s3StartDay d c c' :
  coordinateDay this s1 s3StartDay d c = Ok c' →
  day <$> co_s2 c' = day <$> co_s2 c ∧ day <$> co_s3 c' = day <$> co_s3 c.
Proof.
  unfold coordinateDay. cbv zeta. intros H.
  destruct (getAt s1 d) as [s1Day|]; cbn [bind] in H; [|done].
  bind_inv H. injection H as <-. cbn [co_s2 co_s3].
  split; by eapply setState_days.
Qed.

Lemma coordinateDays_days s1 s3StartDay rounds d c c' :
  coordinateDays this s1 s3StartDay rounds d c = Ok c' →
  day <$> co_s2 c' = day <$> co_s2 c ∧ day <$> co_s3 c' = day <$> co_s3 c.
Proof.
  revert d c. induction rounds as [|rounds IH]; intros d c H; simpl in H.
  - by injection H as <-.
  - bind_inv H. destruct (IH _ _ H) as [-> ->]. by eapply coordinateDay_days.
Qed.

Lemma initialCoordination_days c :
  initialCoordination this = Ok c →
  day <$> co_s2 c = seqZ 0 (totalDays this) ∧
  day <$> co_s3 c = seqZ 0 (totalDays this).
Proof.
  unfold initialCoordination. cbv zeta. intros H.
  destruct (createEmptySchedule this) as [a0|] eqn:E0; cbn [bind] in H; [|done].
  bind_inv H. injection H as <-. cbn [co_s2 co_s3].
  apply createEmptySchedule_days in E0.
  split; [|done]. erewrite setState_days; [exact E0|eassumption].
Qed.

Lemma days_indexed (a : list DayState) n : day <$> a = seqZ 0 n → indexed a.
Proof.
  intros Ha d x [Hd Hx]%getAt_Some.
  assert ((day <$> a) !! Z.to_nat d = Some (day x)) as Hday
    by (by rewrite list_lookup_fmap, Hx).
  rewrite Ha in Hday. apply lookup_seqZ in Hday as [-> _]. lia.
Qed.

End Indexed.

Lemma run_indexed cfg sch :
  run cfg = Ok sch → indexed (s1 sch) ∧ indexed (s2 sch) ∧ indexed (s3 sch).
Proof.
  intros E.
  destruct (run_inversion _ _ E) as (_ & E1 & _ & cF & EF & -> & -> & _).
  split.
  { eapply days_indexed, generateFixedSchedule_days, E1. }
  unfold coordinationBefore in EF.
  destruct (initialCoordination (constructor cfg)) as [c0|] eqn:E0;
    cbn [bind] in EF; [|done].
  destruct (initialCoordination_days _ _ E0) as [H2 H3].
  destruct (coordinateDays_days _ _ _ _ _ _ _ EF) as [H2' H3'].
  split; eapply days_indexed; [rewrite H2'|rewrite H3']; eassumption.
Qed.

(** X16: in a returned schedule every element of the three sequences
    carries its own position in its [day] field: [s[d].day = d]. *)
Theorem X16_day_field (cfg : ScheduleConfig) (sch : Schedule) :
  run cfg = Ok sch →
  indexed (s1 sch) ∧ indexed (s2 sch) ∧ indexed (s3 sch).
Proof. exact (run_indexed cfg sch). Qed.

Lemma X16_day_field_witness :
  ∃ sch, run regime_2x1 = Ok sch ∧
    indexed (s1 sch) ∧ indexed (s2 sch) ∧ indexed (s3 sch).
Proof.
  destruct (run regime_2x1) as [sch|] eqn:E; [|by vm_compute in E].
  exists sch. split; [reflexivity|].
  exact (X16_day_field regime_2x1 sch E).
Defined.

(** ** The chosen move *)

Section BestMove.

Variable score : SupervisorState → SupervisorState → Z.

Lemma considerMove_step a2 a3 acc :
  consistent score acc →
  consistent score (considerMove score a2 acc a3) ∧
  covers score (considerMove score a2 acc a3) a2 a3 ∧
  (∀ x2 x3, covers score acc x2 x3 →
     covers score (considerMove score a2 acc a3) x2 x3).
Proof.
  intros Hc. unfold considerMove, consistent, covers, scoreGt in *.
  destruct acc as [[b|] best]; simpl in *.
  - destruct (Z.gtb_spec (score a2 a3) b) as [Hgt|Hle]; simpl.
    + split; [by intros ? [= <-]|]. split; [exists (score a2 a3); split; [done|lia]|].
      intros x2 x3 (b' & [= <-] & Hle). exists (score a2 a3). split; [done|lia].
    + split; [done|]. split; [by exists b|]. done.
  - split; [by intros ? [= <-]|]. split; [exists (score a2 a3); split; [done|lia]|].
    by intros x2 x3 (b' & ? & _).
Qed.

Lemma inner_fold a2 l3 acc :
  consistent score acc →
  consistent score (foldl (considerMove score a2) acc l3) ∧
  (∀ a3, a3 ∈ l3 → covers score (foldl (considerMove score a2) acc l3) a2 a3) ∧
  (∀ x2 x3, covers score acc x2 x3 →
     covers score (foldl (considerMove score a2) acc l3) x2 x3).
Proof.
  revert acc. induction l3 as [|a3 l3 IH]; intros acc Hc.
  - split; [done|]. split; [by intros a3 ?%elem_of_nil|done].
  - simpl. destruct (considerMove_step a2 a3 acc Hc) as (Hc1 & Hcov1 & Hmono1).
    destruct (IH _ Hc1) as (Hc2 & Hcov2 & Hmono2).
    split; [done|]. split; [|by auto].
    intros x [->|Hx]%elem_of_cons; auto.
Qed.

Lemma outer_fold l2 l3 acc :
  consistent score acc →
  consistent score
    (foldl (fun acc a2 => foldl (considerMove score a2) acc l3) acc l2) ∧
  (∀ a2 a3, a2 ∈ l2 → a3 ∈ l3 →
     covers score
       (foldl (fun acc a2 => foldl (considerMove score a2) acc l3) acc l2)
       a2 a3) ∧
  (∀ x2 x3, covers score acc x2 x3 →
     covers score
       (foldl (fun acc a2 => foldl (considerMove score a2) acc l3) acc l2)
       x2 x3).
Proof.
  revert acc. induction l2 as [|a2 l2 IH]; intros acc Hc.
  - split; [done|]. split; [by intros a2 a3 ?%elem_of_nil|done].
  - simpl. destruct (inner_fold a2 l3 acc Hc) as (Hc1 & Hcov1 & Hmono1).
    destruct (IH _ Hc1) as (Hc2 & Hcov2 & Hmono2).
    split; [done|]. split; [|by auto].
    intros x2 x3 [->|Hx]%elem_of_cons Hx3; auto.
Qed.

End BestMove.

(** No pair of possible actions scores higher than the chosen pair. *)
Lemma chooseBestMove_maximal this day s1State s2Idx s3Idx s3Active a2 a3 :
  a2 ∈ getPossibleActions this s2Idx true →
  a3 ∈ getPossibleActions this s3Idx s3Active →
  evaluateActions this day s1State a2 a3 s2Idx s3Idx s3Active
  ≤ evaluateActions this day s1State
      (chooseBestMove this day s1State s2Idx s3Idx s3Active).1
      (chooseBestMove this day s1State s2Idx s3Idx s3Active).2
      s2Idx s3Idx s3Active.
Proof.
  intros H2 H3. unfold chooseBestMove. cbv zeta.
  destruct (outer_fold
              (fun a2 a3 =>
                 evaluateActions this day s1State a2 a3 s2Idx s3Idx s3Active)
              (getPossibleActions this s2Idx true)
              (getPossibleActions this s3Idx s3Active)
              (None, (hd St_Empty (getPossibleActions this s2Idx true),
                      hd St_Empty (getPossibleActions this s3Idx s3Active))))
    as (Hc & Hcov & _); [by intros b|].
  destruct (Hcov a2 a3 H2 H3) as (b & Hb & Hle).
  specialize (Hc b Hb). cbv beta in Hle. rewrite Hc in Hle. exact Hle.
Qed.



(** ** The weight of the three-producer penalty *)

Lemma priority_terms level :
  5000 ≤ 500000 * getPriorityValue level / 100 ≤ 500000 ∧
  1000 ≤ 10000 * getPriorityValue level / 10 ≤ 100000 ∧
  200 ≤ 2000 * getPriorityValue level / 10 ≤ 20000 ∧
  200 ≤ 20000 * getPriorityValue level / 100 ≤ 20000 ∧
  500 ≤ 5000 * getPriorityValue level / 10 ≤ 50000.
Proof. destruct level; vm_compute; repeat split; intros; discriminate. Qed.

(** A pair that leaves three producers scores at most -999850. *)
Lemma evaluateActions_three this day a1 a2 a3 s2Idx s3Idx s3Active :
  2 < countP a1 a2 a3 →
  evaluateActions this day a1 a2 a3 s2Idx s3Idx s3Active ≤ -999850.
Proof.
  intros Hc.
  assert (a1 = St_P ∧ a2 = St_P ∧ a3 = St_P) as (-> & -> & ->)
    by (unfold countP in Hc; repeat case_decide; (done || lia)).
  destruct (priority_terms (twoDrillers (priorities this))) as (HA & HB & _ & HD & _).
  destruct (priority_terms (maxConsecutiveWork (priorities this)))
    as (_ & _ & HC & _ & _).
  destruct (priority_terms (minimumRest (priorities this))) as (_ & _ & _ & _ & HE).
  unfold evaluateActions. cbv zeta.
  rewrite !if_branches, !if_add, !if_sub.
  change (countP St_P St_P St_P) with 3.
  change (3 >? 2) with true. change (3 =? 1) with false.
  change (3 =? 0) with false. change (3 =? 2) with false.
  change (bool_decide (St_P = St_S)) with false.
  change (bool_decide (St_P = St_P)) with true.
  cbn [andb].
  revert HA HB HC HD HE.
  generalize (500000 * getPriorityValue (twoDrillers (priorities this)) / 100).
  generalize (10000 * getPriorityValue (twoDrillers (priorities this)) / 10).
  generalize (2000 * getPriorityValue (maxConsecutiveWork (priorities this)) / 10).
  generalize (20000 * getPriorityValue (twoDrillers (priorities this)) / 100).
  generalize (5000 * getPriorityValue (minimumRest (priorities this)) / 10).
  intros E D C B A HA HB HC HD HE.
  bound_branches.
Qed.

(** A pair that leaves at most two producers scores at least -900000. *)
Lemma evaluateActions_safe this day a1 a2 a3 s2Idx s3Idx s3Active :
  countP a1 a2 a3 ≤ 2 →
  -900000 ≤ evaluateActions this day a1 a2 a3 s2Idx s3Idx s3Active.
Proof.
  intros Hc.
  destruct (priority_terms (twoDrillers (priorities this))) as (HA & HB & _ & HD & _).
  destruct (priority_terms (maxConsecutiveWork (priorities this)))
    as (_ & _ & HC & _ & _).
  destruct (priority_terms (minimumRest (priorities this))) as (_ & _ & _ & _ & HE).
  unfold evaluateActions. cbv zeta.
  rewrite !if_branches, !if_add, !if_sub.
  revert HA HB HC HD HE.
  generalize (500000 * getPriorityValue (twoDrillers (priorities this)) / 100).
  generalize (10000 * getPriorityValue (twoDrillers (priorities this)) / 10).
  generalize (2000 * getPriorityValue (maxConsecutiveWork (priorities this)) / 10).
  generalize (20000 * getPriorityValue (twoDrillers (priorities this)) / 100).
  generalize (5000 * getPriorityValue (minimumRest (priorities this)) / 10).
  intros E D C B A HA HB HC HD HE.
  unfold countP in *.
  destruct (decide (a1 = St_P)) as [H1|H1], (decide (a2 = St_P)) as [H2|H2],
    (decide (a3 = St_P)) as [H3|H3]; try lia; clear Hc;
    rewrite ?(bool_decide_eq_true_2 _ H2), ?(bool_decide_eq_true_2 _ H3),
      ?(bool_decide_eq_false_2 _ H2), ?(bool_decide_eq_false_2 _ H3);
    repeat match goal with
           | |- context [?a + ?b + ?c >? 2] =>
               let v := eval vm_compute in (a + b + c) in
               change (a + b + c) with v
           end;
    cbn [Z.gtb Z.eqb Z.ltb Z.compare Pos.compare Pos.compare_cont Pos.eqb andb];
    bound_branches.
Qed.

Lemma chooseBestMove_avoids_three this day s1State s2Idx s3Idx s3Active a2 a3 :
  a2 ∈ getPossibleActions this s2Idx true →
  a3 ∈ getPossibleActions this s3Idx s3Active →
  countP s1State a2 a3 ≤ 2 →
  countP s1State (chooseBestMove this day s1State s2Idx s3Idx s3Active).1
    (chooseBestMove this day s1State s2Idx s3Idx s3Active).2 ≤ 2.
Proof.
  intros H2 H3 Hc.
  pose proof (chooseBestMove_maximal this day s1State s2Idx s3Idx s3Active
                a2 a3 H2 H3) as Hmax.
  pose proof (evaluateActions_safe this day s1State a2 a3 s2Idx s3Idx s3Active Hc).
  destruct (Z.le_gt_cases
              (countP s1State
                 (chooseBestMove this day s1State s2Idx s3Idx s3Active).1
                 (chooseBestMove this day s1State s2Idx s3Idx s3Active).2) 2)
    as [|Hthree]; [done|].
  pose proof (evaluateActions_three this day s1State _ _ s2Idx s3Idx s3Active
                Hthree).
  lia.
Qed.

(** X20: the penalty for three producers outweighs every other term of the
    score, whatever the priorities are: a pair that leaves three producers
    scores at most -999850 and a pair that leaves at most two scores at least
    -900000, so that [chooseBestMove] returns a pair with three producers
    only when every pair of possible actions has three producers. *)
Theorem X20_three_producers_avoided (this : ScheduleGenerator) (day : Z)
    (s1State : SupervisorState) (s2Idx s3Idx : S2State) (s3Active : bool)
    (a2 a3 : SupervisorState) :
  a2 ∈ getPossibleActions this s2Idx true →
  a3 ∈ getPossibleActions this s3Idx s3Active →
  countP s1State a2 a3 ≤ 2 →
  -900000 ≤ evaluateActions this day s1State a2 a3 s2Idx s3Idx s3Active ∧
  (∀ b2 b3, 2 < countP s1State b2 b3 →
     evaluateActions this day s1State b2 b3 s2Idx s3Idx s3Active ≤ -999850) ∧
  countP s1State (chooseBestMove this day s1State s2Idx s3Idx s3Active).1
    (chooseBestMove this day s1State s2Idx s3Idx s3Active).2 ≤ 2.
Proof.
  intros H2 H3 Hc. split; [by apply evaluateActions_safe|].
  split; [intros b2 b3; apply evaluateActions_three|].
  by eapply chooseBestMove_avoids_three.
Qed.

Lemma X20_three_producers_avoided_witness :
  ∃ best,
    best = chooseBestMove (generatorWith medium) 20 St_P
             (restingState 3) (restingState 3) true ∧
    -900000 ≤ evaluateActions (generatorWith medium) 20 St_P St_D St_D
                (restingState 3) (restingState 3) true ∧
    (∀ b2 b3, 2 < countP St_P b2 b3 →
       evaluateActions (generatorWith medium) 20 St_P b2 b3
         (restingState 3) (restingState 3) true ≤ -999850) ∧
    countP St_P best.1 best.2 ≤ 2.
Proof.
  eexists. split; [reflexivity|].
  apply (X20_three_producers_avoided (generatorWith medium) 20 St_P
           (restingState 3) (restingState 3) true St_D St_D);
    [apply (bool_decide_unpack _); vm_compute; exact I ..
    |vm_compute; discriminate].
Defined.
